(** * Poker kata: a shallow embedding of [pokerkata.py] and its ranking laws

    Faces, suits, cards and hands are modelled as the source has them.  A
    Python [set] of cards is a list holding its elements in iteration
    order; every statement below quantifies over such lists, and
    [Hand.fromRep], which iterates the sets it builds, takes the iteration
    orders as parameters, so it holds for whichever order the interpreter
    iterates in.  Exceptions are values of an error monad. *)

From Stdlib Require Import String Ascii ZArith List Bool Lia.
From Stdlib Require Import Permutation Sorted.
Import ListNotations.

Local Open Scope string_scope.
Local Open Scope list_scope.
Local Open Scope Z_scope.

(** ** Exceptions *)

Inductive exn : Type :=
| InvalidCardDeck (msg : string)
| IndexError
| ValueError
| TypeError
| AttributeError.

Inductive M (A : Type) : Type :=
| Ret (a : A)
| Raise (e : exn).
Arguments Ret {A} a.
Arguments Raise {A} e.

Definition bind {A B : Type} (m : M A) (k : A -> M B) : M B :=
  match m with
  | Ret a => k a
  | Raise e => Raise e
  end.

Notation "x <- m ;; k" := (bind m (fun x => k))
  (at level 61, m at next level, right associativity).

(** ** Face, Suit, Card *)

Inductive Suit : Type := CLUBS | DIAMONDS | HEARTS | SPADES.

Definition Suit_value (s : Suit) : string :=
  match s with
  | CLUBS => "C" | DIAMONDS => "D" | HEARTS => "H" | SPADES => "S"
  end.

Definition Suit_eqb (s t : Suit) : bool :=
  match s, t with
  | CLUBS, CLUBS | DIAMONDS, DIAMONDS | HEARTS, HEARTS | SPADES, SPADES => true
  | _, _ => false
  end.

(** [Suit(rep)]: lookup of an enumeration member by value. *)
Definition Suit_init (rep : string) : M Suit :=
  if String.eqb rep "C" then Ret CLUBS
  else if String.eqb rep "D" then Ret DIAMONDS
  else if String.eqb rep "H" then Ret HEARTS
  else if String.eqb rep "S" then Ret SPADES
  else Raise ValueError.

(** A [Face] object is built by [Face(rep)] only, which fails unless [rep]
    is one of the thirteen entries of [Face.faces]; the thirteen objects
    that can exist are the constructors below. *)
Inductive Face : Type :=
| F2 | F3 | F4 | F5 | F6 | F7 | F8 | F9 | FT | FJ | FQ | FK | FA.

Definition Face_faces : list string :=
  ["2"; "3"; "4"; "5"; "6"; "7"; "8"; "9"; "T"; "J"; "Q"; "K"; "A"].

Definition Face_all : list Face :=
  [F2; F3; F4; F5; F6; F7; F8; F9; FT; FJ; FQ; FK; FA].

Definition Face_value (f : Face) : Z :=
  match f with
  | F2 => 0 | F3 => 1 | F4 => 2 | F5 => 3 | F6 => 4 | F7 => 5 | F8 => 6
  | F9 => 7 | FT => 8 | FJ => 9 | FQ => 10 | FK => 11 | FA => 12
  end.

Definition Face_rep (f : Face) : string :=
  nth (Z.to_nat (Face_value f)) Face_faces "".

(** [Face.faces.index(rep)] followed by the construction of the object. *)
Fixpoint Face_lookup (rep : string) (reps : list string) (fs : list Face)
  : M Face :=
  match reps, fs with
  | r :: reps', f :: fs' => if String.eqb rep r then Ret f else Face_lookup rep reps' fs'
  | _, _ => Raise ValueError
  end.

Definition Face_init (rep : string) : M Face :=
  Face_lookup rep Face_faces Face_all.

Definition Face_eq (a b : Face) : bool := Face_value a =? Face_value b.
Definition Face_lt (a b : Face) : bool := Face_value a <? Face_value b.
(** [a > b] on faces: [Face] defines no [__gt__], so Python evaluates the
    reflected [b.__lt__(a)]. *)
Definition Face_gt (a b : Face) : bool := Face_lt b a.

Record Card : Type := mkCard { face : Face; suit : Suit }.

Definition Card_repr (c : Card) : string :=
  (Face_rep (face c) ++ Suit_value (suit c))%string.

Definition Card_eq (a b : Card) : bool := Face_eq (face a) (face b).
Definition Card_lt (a b : Card) : bool :=
  Face_value (face a) <? Face_value (face b).

(** [rep[i]] on a string. *)
Definition str_index (rep : string) (i : nat) : M string :=
  match String.get i rep with
  | Some c => Ret (String c EmptyString)
  | None => Raise IndexError
  end.

Definition Card_fromRep (rep : string) : M Card :=
  r0 <- str_index rep 0 ;;
  f <- Face_init r0 ;;
  r1 <- str_index rep 1 ;;
  s <- Suit_init r1 ;;
  Ret (mkCard f s).

(** ** Builtins: [sorted(..., reverse=True)], sets, dictionaries *)

(** A stable descending sort that compares with [<] only, as [sorted]
    does: elements that compare equal keep their original order. *)
Fixpoint insert_desc {A : Type} (lt : A -> A -> bool) (x : A) (l : list A)
  : list A :=
  match l with
  | [] => [x]
  | y :: l' => if lt x y then y :: insert_desc lt x l' else x :: y :: l'
  end.

Definition sorted_reverse {A : Type} (lt : A -> A -> bool) (l : list A)
  : list A :=
  fold_right (insert_desc lt) [] l.

(** [l[i]] on a list. *)
Definition list_index {A : Type} (l : list A) (i : nat) : M A :=
  match nth_error l i with
  | Some a => Ret a
  | None => Raise IndexError
  end.

(** A set keeps a new element unless it already holds an entry with the
    same hash that also compares equal; [same] is that test. *)
Section PySet.
Context {A : Type} (same : A -> A -> bool).

Definition set_contains (s : list A) (x : A) : bool :=
  existsb (fun y => same y x) s.

Definition set_add (s : list A) (x : A) : list A :=
  if set_contains s x then s else s ++ [x].

Definition set_of (l : list A) : list A := fold_left set_add l [].

Fixpoint is_set (l : list A) : bool :=
  match l with
  | [] => true
  | x :: l' => negb (set_contains l' x) && is_set l'
  end.

End PySet.

(** A dictionary in insertion order: [d[k]] finds the first key equal to
    [k]. *)
Fixpoint dict_get {K V : Type} (eqb : K -> K -> bool) (d : list (K * V))
  (k : K) : option V :=
  match d with
  | [] => None
  | (k', v) :: d' => if eqb k' k then Some v else dict_get eqb d' k
  end.

(** [grouped[k].append(c)] on a [defaultdict(list)]. *)
Fixpoint grouped_append {K C : Type} (eqb : K -> K -> bool) (k : K) (c : C)
  (g : list (K * list C)) : list (K * list C) :=
  match g with
  | [] => [(k, [c])]
  | (k', cs) :: g' =>
      if eqb k' k then (k', cs ++ [c]) :: g'
      else (k', cs) :: grouped_append eqb k c g'
  end.

(** Truthiness: an object without [__bool__] and [__len__] is true, [None]
    is false, a list is true when it is not empty. *)
Definition truthy {A : Type} (o : option A) : bool :=
  match o with
  | Some _ => true
  | None => false
  end.

Definition nonempty {A : Type} (l : list A) : bool :=
  match l with
  | [] => false
  | _ :: _ => true
  end.

(** ** Hand *)

(** [faceCounts] and [suitCounts] are computed once by [__init__] from
    [cards], and no attribute is ever reassigned: they are functions of
    the hand. *)
Record Hand : Type := mkHand { colour : string; cards : list Card }.

Definition Hand_descending (h : Hand) : list Card :=
  sorted_reverse Card_lt (cards h).

Definition Hand_grouped {K : Type} (eqb : K -> K -> bool) (fun_ : Card -> K)
  (h : Hand) : list (K * list Card) :=
  fold_left (fun grouped card => grouped_append eqb (fun_ card) card grouped)
    (cards h) [].

Definition counts_of {K : Type} (grouped : list (K * list Card))
  : list (K * nat) :=
  map (fun kv => (fst kv, length (snd kv))) grouped.

Definition faceCounts (h : Hand) : list (Face * nat) :=
  counts_of (Hand_grouped Face_eq face h).

Definition suitCounts (h : Hand) : list (Suit * nat) :=
  counts_of (Hand_grouped Suit_eqb suit h).

(** [[k for k in d if d[k] == numTimes]]; a key of [d] is always found. *)
Definition keys_with_count {K : Type} (eqb : K -> K -> bool)
  (d : list (K * nat)) (numTimes : nat) : list K :=
  filter (fun k => match dict_get eqb d k with
                   | Some n => Nat.eqb n numTimes
                   | None => false
                   end)
    (map fst d).

Definition Hand_facesOccuringTimes (h : Hand) (numTimes : nat) : list Face :=
  sorted_reverse Face_lt (keys_with_count Face_eq (faceCounts h) numTimes).

Definition Hand_suitsOccuringTimes (h : Hand) (numTimes : nat) : list Suit :=
  keys_with_count Suit_eqb (suitCounts h) numTimes.

(** One conjunct [d[i] - 1 == d[i+1]] of the test in [straight], and the
    short-circuiting [and]. *)
Definition run_step (d : list Z) (i : nat) : M bool :=
  a <- list_index d i ;;
  b <- list_index d (S i) ;;
  Ret (a - 1 =? b).

Definition and_then (m k : M bool) : M bool :=
  b <- m ;; if b then k else Ret false.

Definition Hand_straight (h : Hand) : M (option Face) :=
  let descendingFaceValues :=
    map (fun card => Face_value (face card)) (Hand_descending h) in
  ok <- and_then (run_step descendingFaceValues 0)
          (and_then (run_step descendingFaceValues 1)
             (and_then (run_step descendingFaceValues 2)
                (run_step descendingFaceValues 3))) ;;
  if ok then
    top <- list_index (Hand_descending h) 0 ;;
    Ret (Some (face top))
  else Ret None.

Definition Hand_isFlush (h : Hand) : list Suit :=
  Hand_suitsOccuringTimes h 5.

(** ** Result and the comparison primitives *)

Record Result : Type :=
  mkResult { outcome : string;
             winningColour : option string;
             reason : option string }.

Definition Result_draw : Result := mkResult "draw" None None.

Definition Result_win (winner why : string) : Result :=
  mkResult "win" (Some winner) (Some why).

Definition isDraw (r : Result) : bool := String.eqb (outcome r) "draw".

Definition over (why : string) (a b : Face) : string :=
  (why ++ ": " ++ Face_rep a ++ " over " ++ Face_rep b)%string.

Definition compareFaces (face1 face2 : Face) (hand1 hand2 : Hand)
  (why : string) : Result :=
  if Face_gt face1 face2 then Result_win (colour hand1) (over why face1 face2)
  else if Face_gt face2 face1 then
    Result_win (colour hand2) (over why face2 face1)
  else Result_draw.

(** [compareFaces] on detector results: [>] between [None] and a [Face]
    is a [TypeError]. *)
Definition compareFaces_obj (face1 face2 : option Face) (hand1 hand2 : Hand)
  (why : string) : M Result :=
  match face1, face2 with
  | Some f1, Some f2 => Ret (compareFaces f1 f2 hand1 hand2 why)
  | _, _ => Raise TypeError
  end.

Definition neitherOrOnlyOne (appliesTo1 appliesTo2 : bool)
  (hand1 hand2 : Hand) (why : string) : option Result :=
  if negb appliesTo1 && negb appliesTo2 then None
  else if appliesTo1 && negb appliesTo2 then
    Some (Result_win (colour hand1) why)
  else if negb appliesTo1 && appliesTo2 then
    Some (Result_win (colour hand2) why)
  else Some Result_draw.

Fixpoint deepComparison (hand1 hand2 : Hand)
  (sortedCardToCard : list (Card * Card)) (why : string) : Result :=
  match sortedCardToCard with
  | (highestCard1, highestCard2) :: rest =>
      let result :=
        compareFaces (face highestCard1) (face highestCard2) hand1 hand2 why in
      if isDraw result then deepComparison hand1 hand2 rest why else result
  | [] => Result_draw
  end.

Definition highCard (hand1 hand2 : Hand) (why : string) : Result :=
  deepComparison hand1 hand2
    (combine (Hand_descending hand1) (Hand_descending hand2)) why.

(** The categories that build no residual hand. *)
Definition straight (hand1 hand2 : Hand) (why : string) : M (option Result) :=
  straightFace1 <- Hand_straight hand1 ;;
  straightFace2 <- Hand_straight hand2 ;;
  match neitherOrOnlyOne (truthy straightFace1) (truthy straightFace2)
          hand1 hand2 why with
  | None => Ret None
  | Some result =>
      if isDraw result then
        r <- compareFaces_obj straightFace1 straightFace2 hand1 hand2 why ;;
        Ret (Some r)
      else Ret (Some result)
  end.

Definition flush (hand1 hand2 : Hand) (why : string) : M (option Result) :=
  match neitherOrOnlyOne (nonempty (Hand_isFlush hand1))
          (nonempty (Hand_isFlush hand2)) hand1 hand2 why with
  | None => Ret None
  | Some result =>
      if isDraw result then Ret (Some (highCard hand1 hand2 why))
      else Ret (Some result)
  end.

(** [hand.straight() and hand.isFlush()], as a truth value. *)
Definition straight_and_flush (h : Hand) : M bool :=
  s <- Hand_straight h ;;
  Ret (if truthy s then nonempty (Hand_isFlush h) else false).

Definition straightFlush (hand1 hand2 : Hand) (why : string)
  : M (option Result) :=
  a1 <- straight_and_flush hand1 ;;
  a2 <- straight_and_flush hand2 ;;
  match neitherOrOnlyOne a1 a2 hand1 hand2 why with
  | None => Ret None
  | Some result =>
      if isDraw result then Ret (Some (highCard hand1 hand2 why))
      else Ret (Some result)
  end.

(** ** Text helpers of [Hand.fromRep] *)

(** [s.split(' ')]. *)
Fixpoint split_space (s : string) : list string :=
  match s with
  | EmptyString => [EmptyString]
  | String c s' =>
      if Ascii.eqb c " "%char then EmptyString :: split_space s'
      else match split_space s' with
           | w :: ws => String c w :: ws
           | [] => [String c EmptyString]
           end
  end.

Fixpoint first_line (s : string) : string :=
  match s with
  | EmptyString => EmptyString
  | String c s' =>
      if Ascii.eqb c "010"%char then EmptyString else String c (first_line s')
  end.

(** The two groups of the pattern of [Hand.fromRep] (anything, a colon and
    a space, anything) on a line [s]: the first group is greedy, so it
    ends at the last colon followed by a space. *)
Fixpoint colon_groups (s : string) : option (string * string) :=
  match s with
  | EmptyString => None
  | String c s' =>
      match colon_groups s' with
      | Some (g1, g2) => Some (String c g1, g2)
      | None =>
          match s' with
          | String c' g2 =>
              if Ascii.eqb c ":"%char && Ascii.eqb c' " "%char
              then Some (EmptyString, g2) else None
          | EmptyString => None
          end
      end
  end.

Definition re_match (s : string) : M (string * string) :=
  match colon_groups (first_line s) with
  | Some g => Ret g
  | None => Raise AttributeError
  end.

(** What is known of the order in which a set is iterated: it hands over
    every entry once. *)
Definition iteration_order {A : Type} (iter : list A -> list A) : Prop :=
  forall l, Permutation (iter l) l.

(** The order of insertion, for running the definitions. *)
Definition insertion_order {A : Type} (l : list A) : list A := l.

Section Ranking.

(** [hash] on a tuple [(face, suit)]: the one builtin whose values the
    source leaves to the interpreter. *)
Variable hash : Face * Suit -> Z.

Definition Card_hash (c : Card) : Z := hash (face c, suit c).

(** When a set of cards takes two cards for the same entry. *)
Definition Card_same (a b : Card) : bool :=
  (Card_hash a =? Card_hash b) && Card_eq a b.

(** [{card for card in cards if keep(card)}]. *)
Definition card_set (keep : Card -> bool) (cs : list Card) : list Card :=
  set_of Card_same (filter keep cs).

Definition without (f : Face) (card : Card) : bool :=
  negb (Face_eq (face card) f).

Definition Hand_pair (h : Hand) : option Face * Hand :=
  match Hand_facesOccuringTimes h 2 with
  | f :: _ => (Some f, mkHand (colour h) (card_set (without f) (cards h)))
  | [] => (None, h)
  end.

Definition Hand_pairs (h : Hand) : option Face * option Face * Hand :=
  match Hand_facesOccuringTimes h 2 with
  | f0 :: f1 :: _ =>
      (Some f0, Some f1,
       mkHand (colour h)
         (card_set (fun card => negb (Face_eq (face card) f0
                                      || Face_eq (face card) f1))
            (cards h)))
  | _ => (None, None, h)
  end.

Definition Hand_triplet (h : Hand) : option Face * Hand :=
  match Hand_facesOccuringTimes h 3 with
  | f :: _ => (Some f, mkHand (colour h) (card_set (without f) (cards h)))
  | [] => (None, h)
  end.

Definition Hand_quartet (h : Hand) : option Face * Hand :=
  match Hand_facesOccuringTimes h 4 with
  | f :: _ => (Some f, mkHand (colour h) (card_set (without f) (cards h)))
  | [] => (None, h)
  end.

Definition Hand_fullHouse (h : Hand) : option Face :=
  let (triplet, remainingHand) := Hand_triplet h in
  if truthy triplet then
    let (pair, _) := Hand_pair remainingHand in
    if truthy pair then triplet else None
  else None.

(** The orders in which [Hand.fromRep] iterates its set of words and the
    hand iterates the set of cards it is given: a set hands its entries
    over in an order that follows the hash values. *)
Variable iter_words : list string -> list string.
Variable iter_cards : list Card -> list Card.

Definition Hand_fromRep (rep : string) : M Hand :=
  g <- re_match rep ;;
  let cardreps := iter_words (set_of String.eqb (split_space (snd g))) in
  cs <- fold_left
          (fun acc cardrep =>
             s <- acc ;; c <- Card_fromRep cardrep ;;
             Ret (set_add Card_same s c))
          cardreps (Ret []) ;;
  Ret (mkHand (fst g) (iter_cards cs)).

(** ** The categories with a residual hand or a fatal tie *)

Definition twoOfAKind (hand1 hand2 : Hand) (why : string)
  : M (option Result) :=
  let (pairFace1, remainingHand1) := Hand_pair hand1 in
  let (pairFace2, remainingHand2) := Hand_pair hand2 in
  match neitherOrOnlyOne (truthy pairFace1) (truthy pairFace2)
          hand1 hand2 why with
  | None => Ret None
  | Some result =>
      if isDraw result then
        result <- compareFaces_obj pairFace1 pairFace2 hand1 hand2 why ;;
        if isDraw result then
          Ret (Some (highCard remainingHand1 remainingHand2 why))
        else Ret (Some result)
      else Ret (Some result)
  end.

Definition twoPairs (hand1 hand2 : Hand) (why : string)
  : M (option Result) :=
  let '(highPairFace1, lowPairFace1, remainingHand1) := Hand_pairs hand1 in
  let '(highPairFace2, lowPairFace2, remainingHand2) := Hand_pairs hand2 in
  match neitherOrOnlyOne (truthy highPairFace1 && truthy lowPairFace1)
          (truthy highPairFace2 && truthy lowPairFace2) hand1 hand2 why with
  | None => Ret None
  | Some result =>
      if isDraw result then
        result <- compareFaces_obj highPairFace1 highPairFace2
                    hand1 hand2 why ;;
        if isDraw result then
          result <- compareFaces_obj lowPairFace1 lowPairFace2
                      hand1 hand2 why ;;
          if isDraw result then
            Ret (Some (highCard remainingHand1 remainingHand2 why))
          else Ret (Some result)
        else Ret (Some result)
      else Ret (Some result)
  end.

(** The shape shared by [threeOfAKind], [fullHouse] and [fourOfAKind]: a
    tie of the matched faces raises [InvalidCardDeck]. *)
Definition fatal_tie (face1 face2 : option Face) (hand1 hand2 : Hand)
  (why msg : string) : M (option Result) :=
  match neitherOrOnlyOne (truthy face1) (truthy face2) hand1 hand2 why with
  | None => Ret None
  | Some result =>
      if isDraw result then
        result <- compareFaces_obj face1 face2 hand1 hand2 why ;;
        if isDraw result then Raise (InvalidCardDeck msg)
        else Ret (Some result)
      else Ret (Some result)
  end.

Definition threeOfAKind (hand1 hand2 : Hand) (why : string)
  : M (option Result) :=
  let (tripletFace1, remainingHand1) := Hand_triplet hand1 in
  let (tripletFace2, remainingHand2) := Hand_triplet hand2 in
  fatal_tie tripletFace1 tripletFace2 hand1 hand2 why
    "Two triplets with same faces?".

Definition fullHouse (hand1 hand2 : Hand) (why : string)
  : M (option Result) :=
  fatal_tie (Hand_fullHouse hand1) (Hand_fullHouse hand2) hand1 hand2 why
    "Two triplets with same faces?".

Definition fourOfAKind (hand1 hand2 : Hand) (why : string)
  : M (option Result) :=
  let (quartetFace1, remainingHand1) := Hand_quartet hand1 in
  let (quartetFace2, remainingHand2) := Hand_quartet hand2 in
  fatal_tie quartetFace1 quartetFace2 hand1 hand2 why
    "Two quartets with same faces?".

(** ** The orchestrator *)

Definition ranker : Type := Hand -> Hand -> M (option Result).

(** The categories in the order [rank] lists them, each called with its
    default reason. *)
Definition categories : list ranker :=
  [ (fun h1 h2 => straightFlush h1 h2 "Straight Flush");
    (fun h1 h2 => fourOfAKind h1 h2 "Four of a Kind");
    (fun h1 h2 => fullHouse h1 h2 "Full House");
    (fun h1 h2 => flush h1 h2 "Flush");
    (fun h1 h2 => straight h1 h2 "Straight");
    (fun h1 h2 => threeOfAKind h1 h2 "Three of a Kind");
    (fun h1 h2 => twoPairs h1 h2 "Two Pairs");
    (fun h1 h2 => twoOfAKind h1 h2 "Two of a Kind");
    (fun h1 h2 => Ret (Some (highCard h1 h2 "High Card"))) ].

(** The [for] loop of [rank]; a [Result] object is always true, and
    falling off the loop returns [None]. *)
Fixpoint rank_loop (cs : list ranker) (hand1 hand2 : Hand)
  : M (option Result) :=
  match cs with
  | [] => Ret None
  | category :: cs' =>
      result <- category hand1 hand2 ;;
      match result with
      | Some r => Ret (Some r)
      | None => rank_loop cs' hand1 hand2
      end
  end.

Definition rank (hand1 hand2 : Hand) : M (option Result) :=
  rank_loop categories hand1 hand2.

(** A hand as the specification has it: the cards form a set and there
    are five of them. *)
Definition valid_hand (h : Hand) : Prop :=
  is_set Card_same (cards h) = true /\ length (cards h) = 5%nat.

End Ranking.

(** A hash without collisions, for running the definitions. *)
Definition hash0 (p : Face * Suit) : Z :=
  4 * Face_value (fst p)
  + match snd p with CLUBS => 0 | DIAMONDS => 1 | HEARTS => 2 | SPADES => 3 end.

Definition collision_free (hash : Face * Suit -> Z) : Prop :=
  forall p q, hash p = hash q -> p = q.

(** Another one, with other values. *)
Definition hash1 (p : Face * Suit) : Z :=
  Face_value (fst p)
  - 13 * match snd p with
         | CLUBS => 3 | DIAMONDS => 1 | HEARTS => 0 | SPADES => 2
         end.

(** ** Vocabulary of the specification *)



(** How many cards of a list show the face [f], the suit [s]. *)
Definition face_count (f : Face) (cs : list Card) : nat :=
  length (filter (fun c => Face_eq (face c) f) cs).

Definition suit_count (s : Suit) (cs : list Card) : nat :=
  length (filter (fun c => Suit_eqb (suit c) s) cs).

(** The value a [defaultdict(list)] holds for a key whose cards are [l]. *)
Definition opt_list {A : Type} (l : list A) : option (list A) :=
  match l with
  | [] => None
  | _ :: _ => Some l
  end.

(** Every element of a list is at least as large as those after it. *)
Definition descends {A : Type} (key : A -> Z) (l : list A) : Prop :=
  StronglySorted (fun a b => key b <= key a) l.

(** Five values that are consecutive integers, listed downwards. *)
Definition is_run (vs : list Z) : bool :=
  match vs with
  | [a; b; c; d; e] =>
      (a - 1 =? b) && (b - 1 =? c) && (c - 1 =? d) && (d - 1 =? e)
  | _ => false
  end.

Definition face_values (cs : list Card) : list Z :=
  map (fun c => Face_value (face c)) cs.

(** The nine categories, in the order of precedence. *)
Inductive Category : Type :=
| StraightFlush | FourOfAKind | FullHouse | Flush | Straight
| ThreeOfAKind | TwoPairs | TwoOfAKind | HighCard.

Definition all_categories : list Category :=
  [StraightFlush; FourOfAKind; FullHouse; Flush; Straight;
   ThreeOfAKind; TwoPairs; TwoOfAKind; HighCard].

(** The position of a category in the list of [rank]: lower is tried
    earlier and takes precedence. *)
Definition precedence (c : Category) : nat :=
  match c with
  | StraightFlush => 0 | FourOfAKind => 1 | FullHouse => 2 | Flush => 3
  | Straight => 4 | ThreeOfAKind => 5 | TwoPairs => 6 | TwoOfAKind => 7
  | HighCard => 8
  end.

Definition Category_name (c : Category) : string :=
  match c with
  | StraightFlush => "Straight Flush" | FourOfAKind => "Four of a Kind"
  | FullHouse => "Full House" | Flush => "Flush" | Straight => "Straight"
  | ThreeOfAKind => "Three of a Kind" | TwoPairs => "Two Pairs"
  | TwoOfAKind => "Two of a Kind" | HighCard => "High Card"
  end.

Section Qualification.
Variable hash : Face * Suit -> Z.

(** A hand qualifies for a category when the detector its ranker consults
    is true of it; every hand has a high card. *)
Definition qualifies (c : Category) (h : Hand) : bool :=
  match c with
  | StraightFlush =>
      match straight_and_flush h with Ret b => b | Raise _ => false end
  | FourOfAKind => truthy (fst (Hand_quartet hash h))
  | FullHouse => truthy (Hand_fullHouse hash h)
  | Flush => nonempty (Hand_isFlush h)
  | Straight =>
      match Hand_straight h with Ret o => truthy o | Raise _ => false end
  | ThreeOfAKind => truthy (fst (Hand_triplet hash h))
  | TwoPairs =>
      truthy (fst (fst (Hand_pairs hash h)))
      && truthy (snd (fst (Hand_pairs hash h)))
  | TwoOfAKind => truthy (fst (Hand_pair hash h))
  | HighCard => true
  end.

Definition ranker_of (c : Category) : ranker :=
  match c with
  | StraightFlush => fun h1 h2 => straightFlush h1 h2 "Straight Flush"
  | FourOfAKind => fun h1 h2 => fourOfAKind hash h1 h2 "Four of a Kind"
  | FullHouse => fun h1 h2 => fullHouse hash h1 h2 "Full House"
  | Flush => fun h1 h2 => flush h1 h2 "Flush"
  | Straight => fun h1 h2 => straight h1 h2 "Straight"
  | ThreeOfAKind => fun h1 h2 => threeOfAKind hash h1 h2 "Three of a Kind"
  | TwoPairs => fun h1 h2 => twoPairs hash h1 h2 "Two Pairs"
  | TwoOfAKind => fun h1 h2 => twoOfAKind hash h1 h2 "Two of a Kind"
  | HighCard => fun h1 h2 => Ret (Some (highCard h1 h2 "High Card"))
  end.

(** The face a category with a fatal tie matches in a hand. *)
Definition matched (c : Category) (h : Hand) : option Face :=
  match c with
  | FourOfAKind => fst (Hand_quartet hash h)
  | FullHouse => Hand_fullHouse hash h
  | ThreeOfAKind => fst (Hand_triplet hash h)
  | _ => None
  end.

End Qualification.

(** The message of the exception a category raises on a tie. *)
Definition tie_message (c : Category) : string :=
  match c with
  | FourOfAKind => "Two quartets with same faces?"
  | _ => "Two triplets with same faces?"
  end.

(** Equality of cards as (face, suit) pairs. *)
Definition Card_eqb (a b : Card) : bool :=
  Face_eq (face a) (face b) && Suit_eqb (suit a) (suit b).

(** ** Further vocabulary *)

(** Every value of a list is one more than the next. *)
Fixpoint consecutive (vs : list Z) : bool :=
  match vs with
  | a :: t => match t with
              | b :: _ => (a - 1 =? b) && consecutive t
              | [] => true
              end
  | [] => true
  end.

(** The verdicts a ranker called with the reason [why] can give on two
    hands: the draw, or a win of one of the two owners whose reason is
    [why], bare or followed by the deciding faces, the higher one first. *)
Definition verdict_of (h1 h2 : Hand) (why : string) (r : Result) : Prop :=
  r = Result_draw
  \/ exists owner,
       (owner = colour h1 \/ owner = colour h2)
       /\ (r = Result_win owner why
           \/ exists f g, Face_value g < Face_value f
                          /\ r = Result_win owner (over why f g)).

(** Two hands of one owner holding the same cards, in any order. *)
Definition same_cards (h h' : Hand) : Prop :=
  colour h = colour h' /\ Permutation (cards h) (cards h').

(** Two hands of one owner holding the same set of cards, possibly
    iterated in different orders. *)
Definition same_hand (hash : Face * Suit -> Z) (h h' : Hand) : Prop :=
  colour h = colour h'
  /\ Permutation (cards h) (cards h')
  /\ is_set (Card_same hash) (cards h) = true
  /\ is_set (Card_same hash) (cards h') = true.

(** How the ranker of a category can end on any two hands: with [None],
    with a verdict whose reason starts with the category, with the fatal
    tie of two equal matched faces, or, for the two categories that call
    [straight], with an [IndexError] on a hand of fewer than five cards. *)
Definition ranker_outcome (hash : Face * Suit -> Z) (c : Category)
  (h1 h2 : Hand) (m : M (option Result)) : Prop :=
  m = Ret None
  \/ (exists r, m = Ret (Some r) /\ verdict_of h1 h2 (Category_name c) r)
  \/ (m = Raise (InvalidCardDeck (tie_message c))
      /\ exists f, matched hash c h1 = Some f /\ matched hash c h2 = Some f)
  \/ (m = Raise IndexError
      /\ (c = StraightFlush \/ c = Straight)
      /\ ((length (cards h1) < 5)%nat \/ (length (cards h2) < 5)%nat)).

(** [Result.__eq__]: field by field, [None] equal to [None] only. *)
Definition opt_string_eqb (a b : option string) : bool :=
  match a, b with
  | Some x, Some y => String.eqb x y
  | None, None => true
  | _, _ => false
  end.

Definition Result_eq (a b : Result) : bool :=
  String.eqb (outcome a) (outcome b)
  && opt_string_eqb (winningColour a) (winningColour b)
  && opt_string_eqb (reason a) (reason b).

(** [s] without the prefix [p], when it starts with it. *)
Fixpoint strip_prefix (p s : string) : option string :=
  match p with
  | EmptyString => Some s
  | String a p' =>
      match s with
      | String b s' => if Ascii.eqb a b then strip_prefix p' s' else None
      | EmptyString => None
      end
  end.

(** The two groups of the pattern of [Result.fromRep] after its literal
    start: the first group is lazy, so it ends at the first comma followed
    by a space, and it cannot cross a line end; the second group is the rest
    of the line. *)
Fixpoint lazy_comma_groups (s : string) : option (string * string) :=
  match s with
  | EmptyString => None
  | String c s' =>
      match (if Ascii.eqb c ","%char then strip_prefix " " s' else None) with
      | Some rest => Some (EmptyString, first_line rest)
      | None =>
          if Ascii.eqb c "010"%char then None
          else match lazy_comma_groups s' with
               | Some (g1, g2) => Some (String c g1, g2)
               | None => None
               end
      end
  end.

(** [Result.fromRep]: every exception of the match is caught and gives the
    draw. *)
Definition Result_fromRep (rep : string) : Result :=
  match strip_prefix "Win " rep with
  | Some rest =>
      match lazy_comma_groups rest with
      | Some (winningColour, why) => Result_win winningColour why
      | None => Result_draw
      end
  | None => Result_draw
  end.

(** Words joined by single spaces, and the text of a hand as
    [Hand.fromRep] reads it. *)
Fixpoint join_space (ws : list string) : string :=
  match ws with
  | [] => EmptyString
  | w :: ws' => match ws' with
                | [] => w
                | _ :: _ => (w ++ " " ++ join_space ws')%string
                end
  end.

Definition Hand_text (owner : string) (cs : list Card) : string :=
  (owner ++ ": " ++ join_space (map Card_repr cs))%string.

(** A text without line ends. *)
Fixpoint one_line (s : string) : bool :=
  match s with
  | EmptyString => true
  | String c s' => negb (Ascii.eqb c "010"%char) && one_line s'
  end.

(** A text in which no comma is followed by a space. *)
Fixpoint comma_space_free (s : string) : bool :=
  match s with
  | EmptyString => true
  | String c s' =>
      negb (Ascii.eqb c ","%char
            && match s' with
               | String d _ => Ascii.eqb d " "%char
               | EmptyString => false
               end)
      && comma_space_free s'
  end.

(** ** The test table and its driver *)

(** [s.split] on a separator of two spaces. *)
Fixpoint split_two_spaces (s : string) : list string :=
  match s with
  | EmptyString => [EmptyString]
  | String c s' =>
      let unsplit :=
        match split_two_spaces s' with
        | w :: ws => String c w :: ws
        | [] => [String c EmptyString]
        end in
      match s' with
      | String d rest =>
          if Ascii.eqb c " "%char && Ascii.eqb d " "%char
          then EmptyString :: split_two_spaces rest
          else unsplit
      | EmptyString => unsplit
      end
  end.

Definition testCases : list (string * string) :=
  [
    ("Black: 2H 3D 5S 9C KD  White: 2C 3H 4S 8C AH",
     "Win White, High Card: A over K");
    ("Black: 2H 4S 4C 2D 4H  White: 2S 8S AS QS 3S",
     "Win Black, Full House");
    ("Black: 2H 3D 5S 9C KD  White: 2C 3H 4S 8C KH",
     "Win Black, High Card: 9 over 8");
    ("Black: 2H 3D 5S 9C KD  White: 2D 3H 5C 9S KH",
     "Draw");
    ("Black: 2D 3D 4D 5D 7D  White: 2C 3C 4C 5C 7C",
     "Draw");
    ("Black: 2D 3C 6D 7D 8D  White: 2H 4C 6C 7C 8C",
     "Win White, High Card: 4 over 3");
    ("Black: 2D 3C 4D 6D 8D  White: 2H 3C 4C 6C 7C",
     "Win Black, High Card: 8 over 7");
    ("Black: 2D 3D 4D 5D 7D  White: 2C 3C 4C 5C 7C",
     "Not Ranked");
    ("Black: 2D 2C 4D 5D 6D  White: 2H 3C 4C 5C 7C",
     "Win Black, Two of a Kind");
    ("Black: 2D 3D 4D 5D 7H  White: 2C 2H 4C 5C 6C",
     "Win White, Two of a Kind");
    ("Black: 2D 2S 4D 5D 6D  White: 2C 2H 4C 5C 6C",
     "Draw");
    ("Black: 2D 2C 4D 5D 6D  White: 3C 3H 4C 5C 6C",
     "Win White, Two of a Kind: 3 over 2");
    ("Black: 4D 4C 7H 5D 6D  White: 2C 2H 4S 5C 6C",
     "Win Black, Two of a Kind: 4 over 2");
    ("Black: 4D 4C 7D 5D 6D  White: 4H 4S 8D 5C 6C",
     "Win White, Two of a Kind: 8 over 7");
    ("Black: 2D 3D 4D 5D 7D  White: 2C 3C 4C 5C 7C",
     "Not Ranked");
    ("Black: 2D 2C 3D 3C 6D  White: QC 2H 4C 5C 6C",
     "Win Black, Two Pairs");
    ("Black: 2D 2S 4D 5D 6D  White: QC QH KC KS AC",
     "Win White, Two Pairs");
    ("Black: 2D 2S 3D 3S 6D  White: QC QH KC KS AC",
     "Win White, Two Pairs: K over 3");
    ("Black: KD KS 3D 3S 6D  White: QC QH KC KH AC",
     "Win White, Two Pairs: Q over 3");
    ("Black: KD KS QD QS 6D  White: QC QH KC KH 2C",
     "Win Black, Two Pairs: 6 over 2");
    ("Black: 2D 2C 2H 5D 6D  White: QH 3C 4C 5C 6C",
     "Win Black, Three of a Kind");
    ("Black: 2D 3D 4D 5D 7H  White: AC AH AD 5C 6C",
     "Win White, Three of a Kind");
    ("Black: 2D 2S 2H 5D 6D  White: 3D 3H 3C 5C 6C",
     "Win White, Three of a Kind: 3 over 2");
    ("Black: QD QS QH 5D 6D  White: AD AH AC AC 6C",
     "Win White, Three of a Kind: A over Q");
    ("Black: 2D 3C 4H 5D 6D  White: QH 3D 4C 5C 6C",
     "Win Black, Straight");
    ("Black: 2D 3D 4D 5D 8H  White: 4C 5H 6D 7C 8C",
     "Win White, Straight");
    ("Black: 2D 3S 4H 5D 6D  White: 3D 4D 5C 6C 7C",
     "Win White, Straight: 7 over 6");
    ("Black: 2D 3S 4H 5D 6D  White: 2S 3D 4C 5C 6C",
     "Draw");
    ("Black: 2D 3D 4D 5D 7D  White: QH 3H 4C 5C 6C",
     "Win Black, Flush");
    ("Black: 2D 3D 4D 5D 8H  White: 4C 5C 6C 8C TC",
     "Win White, Flush");
    ("Black: 2D 3D 4D 5D 8D  White: 4C 5C 6C 8C TC",
     "Win White, Flush: T over 8");
    ("Black: 2D 3D 4D 5D 7C  White: 2C 3C 4C 5H 7D",
     "Not Ranked");
    ("Black: 2D 2H 3D 3S 3C  White: QH 3H 4C 5C 6C",
     "Win Black, Full House");
    ("Black: 2D 3D 4H 5D 8H  White: 4C 4D AS AC AD",
     "Win White, Full House");
    ("Black: 2D 2H 3D 3S 3C  White: TC TH TD 8C 8D",
     "Win White, Full House: T over 3");
    ("Black: 2D 2C 2H 2S 6D  White: QH 3C 4C 5C 6C",
     "Win Black, Four of a Kind");
    ("Black: 2D 3D 4D 7D 6H  White: AC AH AD AS 6C",
     "Win White, Four of a Kind");
    ("Black: TD TS TH TC 6D  White: AD AS AH AC 6C",
     "Win White, Four of a Kind: A over T");
    ("Black: 2D 3D 4D 5D 6D  White: QH 3C 4C 5C 6C",
     "Win Black, Straight Flush");
    ("Black: 2D 3D 4D 5D 9D  White: 6C 7C 8C 9C TC",
     "Win White, Straight Flush");
    ("Black: 2D 3D 4D 5D 6D  White: 3H 4H 5H 6H 7H",
     "Win White, Straight Flush: 7 over 6");
    ("Black: 2H 3H 4H 5H 6H  White: AC AH AS AS KH",
     "Win Black, Straight Flush");
    ("Black: 2H 2C 4H 4C 4D  White: AC AH AS AD KH",
     "Win White, Four of a Kind");
    ("Black: 2H 2C 4H 4C 4D  White: 8C TC 5C 6C AC",
     "Win Black, Full House");
    ("Black: 2H 3C 4H 5D 6D  White: 8C TC 5C 6C AC",
     "Win White, Flush");
    ("Black: 2H 3C 4H 5D 6D  White: 8C 8D 8S 6H AC",
     "Win Black, Straight");
    ("Black: 2H 2C 4H 4D 6D  White: 8C 8D 8S 6H AC",
     "Win White, Three of a Kind");
    ("Black: 2H 2C 4H 4D 6D  White: 8C 8D 7S 6H AC",
     "Win Black, Two Pairs");
    ("Black: AH 2C 4H 5D 6D  White: 8C 8D 7S 6H AC",
     "Win White, Two of a Kind")
  ].

(** The body of the loop over [testCases]: [true] when it prints the line
    of a passed test.  Unpacking needs exactly two hand texts; comparing
    [None] with a result ends in [Result.__eq__] reading a field of
    [None]. *)
Definition run_test (hash : Face * Suit -> Z)
  (iter_words : list string -> list string)
  (iter_cards : list Card -> list Card) (testCase : string * string)
  : M bool :=
  match split_two_spaces (fst testCase) with
  | [handrep1; handrep2] =>
      hand1 <- Hand_fromRep hash iter_words iter_cards handrep1 ;;
      hand2 <- Hand_fromRep hash iter_words iter_cards handrep2 ;;
      actual <- rank hash hand1 hand2 ;;
      let expected := Result_fromRep (snd testCase) in
      match actual with
      | Some a => Ret (Result_eq a expected)
      | None => Raise AttributeError
      end
  | _ => Raise ValueError
  end.

(** ** Example hands *)

Definition hand_of (owner : string) (cs : list (Face * Suit)) : Hand :=
  mkHand owner (map (fun p => mkCard (fst p) (snd p)) cs).

Definition ex_flush : Hand :=
  hand_of "White"
    [(F8, CLUBS); (FT, CLUBS); (F5, CLUBS); (F6, CLUBS); (FA, CLUBS)].

Definition ex_straight : Hand :=
  hand_of "Black"
    [(F2, HEARTS); (F3, CLUBS); (F4, HEARTS); (F5, DIAMONDS); (F6, DIAMONDS)].

Definition ex_quartet_black : Hand :=
  hand_of "Black"
    [(FT, DIAMONDS); (FT, SPADES); (FT, HEARTS); (FT, CLUBS); (F6, DIAMONDS)].

Definition ex_quartet_white : Hand :=
  hand_of "White"
    [(FT, DIAMONDS); (FT, SPADES); (FT, HEARTS); (FT, CLUBS); (F7, CLUBS)].

Definition ex_full_house : Hand :=
  hand_of "Black"
    [(F3, CLUBS); (F3, DIAMONDS); (F3, HEARTS); (F2, CLUBS); (F2, DIAMONDS)].

Definition ex_triplet_black : Hand :=
  hand_of "Black"
    [(F3, CLUBS); (F3, DIAMONDS); (F3, HEARTS); (F2, CLUBS); (F6, DIAMONDS)].

Definition ex_triplet_white : Hand :=
  hand_of "White"
    [(F3, SPADES); (F3, CLUBS); (F3, DIAMONDS); (F4, CLUBS); (F5, DIAMONDS)].

Definition ex_straight_flush_black : Hand :=
  hand_of "Black"
    [(F2, DIAMONDS); (F3, DIAMONDS); (F4, DIAMONDS); (F5, DIAMONDS);
     (F6, DIAMONDS)].

Definition ex_straight_flush_white : Hand :=
  hand_of "White"
    [(F3, HEARTS); (F4, HEARTS); (F5, HEARTS); (F6, HEARTS); (F7, HEARTS)].

Definition ex_two_pairs : Hand :=
  hand_of "Black"
    [(FK, DIAMONDS); (FK, SPADES); (F3, DIAMONDS); (F3, SPADES);
     (F6, DIAMONDS)].

Definition ex_two_pairs_swapped : Hand :=
  hand_of "Black"
    [(FK, SPADES); (FK, DIAMONDS); (F3, DIAMONDS); (F3, SPADES);
     (F6, DIAMONDS)].

Definition ex_high_black : Hand :=
  hand_of "Black"
    [(F2, HEARTS); (F3, DIAMONDS); (F5, SPADES); (F9, CLUBS); (FK, DIAMONDS)].

Definition ex_high_white : Hand :=
  hand_of "White"
    [(F2, DIAMONDS); (F3, HEARTS); (F5, CLUBS); (F9, SPADES); (FK, HEARTS)].

(** * Properties *)

(** ** Faces, suits, results *)

Lemma Face_eq_true (a b : Face) : Face_eq a b = true <-> a = b.
Proof.
  unfold Face_eq; split.
  - destruct a, b; simpl; intros E; try reflexivity; discriminate E.
  - intros ->. apply Z.eqb_refl.
Qed.

Lemma Face_eq_refl (a : Face) : Face_eq a a = true.
Proof. apply Face_eq_true; reflexivity. Qed.

Lemma Face_value_inj (a b : Face) : Face_value a = Face_value b -> a = b.
Proof. intros E; apply Face_eq_true; unfold Face_eq; now apply Z.eqb_eq. Qed.

Lemma Suit_eqb_true (s t : Suit) : Suit_eqb s t = true <-> s = t.
Proof. destruct s, t; simpl; split; intros E; try reflexivity; discriminate E. Qed.

Lemma isDraw_win (c w : string) : isDraw (Result_win c w) = false.
Proof. reflexivity. Qed.

Lemma isDraw_draw : isDraw Result_draw = true.
Proof. reflexivity. Qed.

Lemma compareFaces_gt (f g : Face) (h1 h2 : Hand) (w : string) :
  Face_value g < Face_value f ->
  compareFaces f g h1 h2 w = Result_win (colour h1) (over w f g).
Proof.
  intros L; unfold compareFaces, Face_gt, Face_lt.
  apply Z.ltb_lt in L; now rewrite L.
Qed.

Lemma compareFaces_lt (f g : Face) (h1 h2 : Hand) (w : string) :
  Face_value f < Face_value g ->
  compareFaces f g h1 h2 w = Result_win (colour h2) (over w g f).
Proof.
  intros L; unfold compareFaces, Face_gt, Face_lt.
  assert (N : (Face_value g <? Face_value f) = false) by (apply Z.ltb_ge; lia).
  apply Z.ltb_lt in L; now rewrite N, L.
Qed.

Lemma compareFaces_same (f g : Face) (h1 h2 : Hand) (w : string) :
  Face_value f = Face_value g -> compareFaces f g h1 h2 w = Result_draw.
Proof.
  intros E; unfold compareFaces, Face_gt, Face_lt.
  now rewrite E, Z.ltb_irrefl.
Qed.

Lemma compareFaces_isDraw (f g : Face) (h1 h2 : Hand) (w : string) :
  isDraw (compareFaces f g h1 h2 w) = (Face_value f =? Face_value g).
Proof.
  destruct (Z.lt_trichotomy (Face_value f) (Face_value g)) as [L | [E | L]].
  - rewrite compareFaces_lt by assumption.
    symmetry; rewrite isDraw_win; apply Z.eqb_neq; lia.
  - rewrite compareFaces_same by assumption.
    symmetry; rewrite isDraw_draw; now apply Z.eqb_eq.
  - rewrite compareFaces_gt by assumption.
    symmetry; rewrite isDraw_win; apply Z.eqb_neq; lia.
Qed.

Lemma compareFaces_swap (f g : Face) (h1 h2 : Hand) (w : string) :
  compareFaces f g h1 h2 w = compareFaces g f h2 h1 w.
Proof.
  destruct (Z.lt_trichotomy (Face_value f) (Face_value g)) as [L | [E | L]].
  - now rewrite compareFaces_lt, compareFaces_gt.
  - now rewrite !compareFaces_same.
  - now rewrite compareFaces_gt, compareFaces_lt.
Qed.


(** ** The kicker walk *)

Lemma deepComparison_swap (h1 h2 : Hand) (w : string) (l1 l2 : list Card) :
  deepComparison h1 h2 (combine l1 l2) w
  = deepComparison h2 h1 (combine l2 l1) w.
Proof.
  revert l2; induction l1 as [| a l1 IH]; intros [| b l2]; simpl; trivial.
  rewrite (compareFaces_swap (face a) (face b)), IH; reflexivity.
Qed.

Lemma highCard_swap (h1 h2 : Hand) (w : string) :
  highCard h1 h2 w = highCard h2 h1 w.
Proof. apply deepComparison_swap. Qed.


Lemma deepComparison_same_faces (h1 h2 : Hand) (w : string)
  (l1 l2 : list Card) :
  map face l1 = map face l2 ->
  deepComparison h1 h2 (combine l1 l2) w = Result_draw.
Proof.
  revert l2; induction l1 as [| a l1 IH]; intros [| b l2] E; simpl in *;
    try reflexivity; try discriminate E.
  injection E as Ea El.
  rewrite compareFaces_same by (now rewrite Ea).
  rewrite isDraw_draw; now apply IH.
Qed.

(** Claim C6.  Two hands whose descending face sequences are identical draw
    under [highCard]: the walk draws at every position and ends on the empty
    sequence.  The number of cards plays no part, so this covers the
    five-card hands of the claim. *)
Theorem highCard_same_faces_draw (h1 h2 : Hand) (w : string) :
  map face (Hand_descending h1) = map face (Hand_descending h2) ->
  highCard h1 h2 w = Result_draw.
Proof. apply deepComparison_same_faces. Qed.

(** ** Symmetry of the rankers *)

Lemma list_index_raise {A : Type} (l : list A) (i : nat) (e : exn) :
  list_index l i = Raise e -> e = IndexError.
Proof.
  unfold list_index; destruct (nth_error l i); intros E;
    [discriminate E | now injection E].
Qed.

Lemma run_step_raise (d : list Z) (i : nat) (e : exn) :
  run_step d i = Raise e -> e = IndexError.
Proof.
  unfold run_step.
  destruct (list_index d i) eqn:E1; simpl;
    [| intros E; injection E as <-; eapply list_index_raise; eauto].
  destruct (list_index d (S i)) eqn:E2; simpl; intros E;
    [discriminate E | injection E as <-; eapply list_index_raise; eauto].
Qed.

Lemma and_then_raise (m k : M bool) (e : exn) :
  (forall e', m = Raise e' -> e' = IndexError) ->
  (forall e', k = Raise e' -> e' = IndexError) ->
  and_then m k = Raise e -> e = IndexError.
Proof.
  intros Hm Hk; unfold and_then.
  destruct m as [[|] | e']; simpl; intros E.
  - now apply Hk.
  - discriminate E.
  - injection E as <-; now apply Hm.
Qed.

Lemma Hand_straight_raise (h : Hand) (e : exn) :
  Hand_straight h = Raise e -> e = IndexError.
Proof.
  unfold Hand_straight.
  destruct (and_then _ _) as [[|] | e'] eqn:E; simpl.
  - destruct (list_index (Hand_descending h) 0) eqn:E0; simpl; intros R;
      [discriminate R | injection R as <-; eapply list_index_raise; eauto].
  - discriminate.
  - intros R; injection R as <-.
    revert E; repeat (apply and_then_raise; intros ?); apply run_step_raise.
Qed.

Lemma straight_and_flush_raise (h : Hand) (e : exn) :
  straight_and_flush h = Raise e -> e = IndexError.
Proof.
  unfold straight_and_flush.
  destruct (Hand_straight h) eqn:E; simpl; intros R;
    [discriminate R | injection R as <-; eapply Hand_straight_raise; eauto].
Qed.

Lemma neitherOrOnlyOne_swap (a1 a2 : bool) (h1 h2 : Hand) (w : string) :
  neitherOrOnlyOne a1 a2 h1 h2 w = neitherOrOnlyOne a2 a1 h2 h1 w.
Proof. now destruct a1, a2. Qed.

Lemma compareFaces_obj_swap (o1 o2 : option Face) (h1 h2 : Hand)
  (w : string) :
  compareFaces_obj o1 o2 h1 h2 w = compareFaces_obj o2 o1 h2 h1 w.
Proof.
  destruct o1, o2; simpl; trivial.
  now rewrite compareFaces_swap.
Qed.

Lemma straight_swap (h1 h2 : Hand) (w : string) :
  straight h1 h2 w = straight h2 h1 w.
Proof.
  unfold straight.
  destruct (Hand_straight h1) as [o1 | e1] eqn:E1,
           (Hand_straight h2) as [o2 | e2] eqn:E2; simpl; trivial.
  - rewrite (neitherOrOnlyOne_swap (truthy o1)).
    destruct (neitherOrOnlyOne _ _ _ _ _); trivial.
    now rewrite (compareFaces_obj_swap o1).
  - apply Hand_straight_raise in E1, E2; congruence.
Qed.

Lemma flush_swap (h1 h2 : Hand) (w : string) : flush h1 h2 w = flush h2 h1 w.
Proof.
  unfold flush.
  rewrite (neitherOrOnlyOne_swap (nonempty (Hand_isFlush h1))).
  destruct (neitherOrOnlyOne _ _ _ _ _); trivial.
  now rewrite (highCard_swap h1).
Qed.

Lemma straightFlush_swap (h1 h2 : Hand) (w : string) :
  straightFlush h1 h2 w = straightFlush h2 h1 w.
Proof.
  unfold straightFlush.
  destruct (straight_and_flush h1) as [a1 | e1] eqn:E1,
           (straight_and_flush h2) as [a2 | e2] eqn:E2; simpl; trivial.
  - rewrite (neitherOrOnlyOne_swap a1).
    destruct (neitherOrOnlyOne _ _ _ _ _); trivial.
    now rewrite (highCard_swap h1).
  - apply straight_and_flush_raise in E1, E2; congruence.
Qed.

Section Symmetry.
Variable hash : Face * Suit -> Z.

Lemma fatal_tie_swap (o1 o2 : option Face) (h1 h2 : Hand) (w msg : string) :
  fatal_tie o1 o2 h1 h2 w msg = fatal_tie o2 o1 h2 h1 w msg.
Proof.
  unfold fatal_tie.
  rewrite (neitherOrOnlyOne_swap (truthy o1)).
  destruct (neitherOrOnlyOne _ _ _ _ _); trivial.
  now rewrite (compareFaces_obj_swap o1).
Qed.

Lemma twoOfAKind_swap (h1 h2 : Hand) (w : string) :
  twoOfAKind hash h1 h2 w = twoOfAKind hash h2 h1 w.
Proof.
  unfold twoOfAKind.
  destruct (Hand_pair hash h1) as [p1 r1], (Hand_pair hash h2) as [p2 r2].
  rewrite (neitherOrOnlyOne_swap (truthy p1)).
  destruct (neitherOrOnlyOne _ _ _ _ _); trivial.
  now rewrite (compareFaces_obj_swap p1), (highCard_swap r1).
Qed.

Lemma twoPairs_swap (h1 h2 : Hand) (w : string) :
  twoPairs hash h1 h2 w = twoPairs hash h2 h1 w.
Proof.
  unfold twoPairs.
  destruct (Hand_pairs hash h1) as [[a1 b1] r1],
           (Hand_pairs hash h2) as [[a2 b2] r2].
  rewrite (neitherOrOnlyOne_swap (truthy a1 && truthy b1)).
  destruct (neitherOrOnlyOne _ _ _ _ _); trivial.
  now rewrite (compareFaces_obj_swap a1), (compareFaces_obj_swap b1),
    (highCard_swap r1).
Qed.

Lemma ranker_of_swap (c : Category) (h1 h2 : Hand) :
  ranker_of hash c h1 h2 = ranker_of hash c h2 h1.
Proof.
  destruct c; simpl.
  - apply straightFlush_swap.
  - unfold fourOfAKind.
    destruct (Hand_quartet hash h1), (Hand_quartet hash h2).
    apply fatal_tie_swap.
  - apply fatal_tie_swap.
  - apply flush_swap.
  - apply straight_swap.
  - unfold threeOfAKind.
    destruct (Hand_triplet hash h1), (Hand_triplet hash h2).
    apply fatal_tie_swap.
  - apply twoPairs_swap.
  - apply twoOfAKind_swap.
  - now rewrite highCard_swap.
Qed.

Lemma categories_ranker_of :
  categories hash = map (ranker_of hash) all_categories.
Proof. reflexivity. Qed.

Lemma rank_swap (h1 h2 : Hand) : rank hash h1 h2 = rank hash h2 h1.
Proof.
  unfold rank; rewrite categories_ranker_of.
  induction all_categories as [| c cs IH]; simpl; trivial.
  rewrite (ranker_of_swap c h1 h2), IH; reflexivity.
Qed.

(** Claim C5.  On two hands for which [rank] returns a result, valid ones
    among them, the call with the hands exchanged returns the same verdict:
    the same outcome (so both are draws or both are wins), the same winning
    owner and the same reason text; the reason of a tie-break therefore
    names the same two faces, the winner's face first in both calls. *)
Theorem rank_symmetric (h1 h2 : Hand) (r : Result) :
  rank hash h1 h2 = Ret (Some r) ->
  exists r', rank hash h2 h1 = Ret (Some r')
             /\ outcome r' = outcome r
             /\ winningColour r' = winningColour r
             /\ reason r' = reason r.
Proof.
  intros E; exists r; rewrite <- rank_swap; auto.
Qed.

End Symmetry.

(** ** The descending sort *)

Section Sorting.
Context {A : Type} (key : A -> Z).

Let lt (a b : A) : bool := key a <? key b.

Lemma insert_desc_perm (x : A) (l : list A) :
  Permutation (insert_desc lt x l) (x :: l).
Proof.
  induction l as [| y l IH]; simpl; [reflexivity |].
  destruct (lt x y); [| reflexivity].
  rewrite IH; apply perm_swap.
Qed.

Lemma sorted_reverse_perm (l : list A) : Permutation (sorted_reverse lt l) l.
Proof.
  induction l as [| x l IH]; simpl; [reflexivity |].
  rewrite insert_desc_perm; now constructor.
Qed.

Lemma sorted_reverse_length (l : list A) :
  length (sorted_reverse lt l) = length l.
Proof. apply Permutation_length, sorted_reverse_perm. Qed.

Lemma insert_desc_descends (x : A) (l : list A) :
  descends key l -> descends key (insert_desc lt x l).
Proof.
  unfold descends; induction l as [| y l IH]; simpl; intros S.
  - repeat constructor.
  - apply StronglySorted_inv in S as [S F].
    unfold lt at 1; destruct (key x <? key y) eqn:E.
    + apply Z.ltb_lt in E. constructor; [now apply IH |].
      rewrite Forall_forall in *; intros z Hz.
      apply (Permutation_in _ (insert_desc_perm x l)) in Hz as [<- | Hz];
        [lia | now apply F].
    + apply Z.ltb_ge in E. constructor; [now constructor |].
      constructor; [exact E |].
      rewrite Forall_forall in *; intros z Hz; specialize (F z Hz); lia.
Qed.

Lemma sorted_reverse_descends (l : list A) :
  descends key (sorted_reverse lt l).
Proof.
  induction l as [| x l IH]; simpl; [constructor |].
  now apply insert_desc_descends.
Qed.

Lemma sorted_reverse_head_max (l : list A) (x : A) (rest : list A) :
  sorted_reverse lt l = x :: rest -> forall y, In y l -> key y <= key x.
Proof.
  intros E y Hy.
  pose proof (sorted_reverse_descends l) as S; rewrite E in S.
  apply StronglySorted_inv in S as [_ F].
  apply (Permutation_in _ (Permutation_sym (sorted_reverse_perm l))) in Hy.
  rewrite E in Hy; destruct Hy as [<- | Hy]; [lia |].
  rewrite Forall_forall in F; now apply F.
Qed.

End Sorting.

Lemma Hand_descending_perm (h : Hand) :
  Permutation (Hand_descending h) (cards h).
Proof. apply (sorted_reverse_perm (fun c => Face_value (face c))). Qed.

Lemma Hand_descending_length (h : Hand) :
  length (Hand_descending h) = length (cards h).
Proof. apply Permutation_length, Hand_descending_perm. Qed.

(** ** [Hand.straight] *)

Lemma list5 {A : Type} (l : list A) :
  length l = 5%nat -> exists a b c d e, l = [a; b; c; d; e].
Proof.
  destruct l as [| a [| b [| c [| d [| e [| x l]]]]]]; simpl; intros E;
    try discriminate E.
  now exists a, b, c, d, e.
Qed.

Lemma Hand_straight_five (h : Hand) :
  length (cards h) = 5%nat ->
  Hand_straight h
  = Ret (if is_run (face_values (Hand_descending h))
         then option_map face (hd_error (Hand_descending h))
         else None).
Proof.
  intros L; rewrite <- Hand_descending_length in L.
  destruct (list5 _ L) as (a & b & c & d & e & E).
  unfold Hand_straight, face_values; rewrite E; simpl.
  unfold run_step, and_then; simpl.
  destruct (_ - 1 =? Face_value (face b)); simpl; trivial.
  destruct (_ - 1 =? Face_value (face c)); simpl; trivial.
  destruct (_ - 1 =? Face_value (face d)); simpl; trivial.
  destruct (_ - 1 =? Face_value (face e)); simpl; trivial.
Qed.

Lemma Hand_straight_run (h : Hand) (t : Face) :
  length (cards h) = 5%nat ->
  Hand_straight h = Ret (Some t) ->
  exists a b c d e,
    Hand_descending h = [a; b; c; d; e] /\ t = face a
    /\ Face_value (face b) = Face_value (face a) - 1
    /\ Face_value (face c) = Face_value (face a) - 2
    /\ Face_value (face d) = Face_value (face a) - 3
    /\ Face_value (face e) = Face_value (face a) - 4.
Proof.
  intros L S; rewrite (Hand_straight_five h L) in S.
  rewrite <- Hand_descending_length in L.
  destruct (list5 _ L) as (a & b & c & d & e & E).
  rewrite E in S; simpl in S.
  exists a, b, c, d, e; split; [exact E |].
  destruct (_ && _) eqn:R in S; [| discriminate S].
  injection S as <-.
  repeat (apply andb_prop in R as [R ?]).
  repeat match goal with H : (_ =? _) = true |- _ => apply Z.eqb_eq in H end.
  repeat split; lia.
Qed.

Lemma highCard_runs (h1 h2 : Hand) (t1 t2 : Face) (w : string) :
  length (cards h1) = 5%nat -> length (cards h2) = 5%nat ->
  Hand_straight h1 = Ret (Some t1) -> Hand_straight h2 = Ret (Some t2) ->
  highCard h1 h2 w = compareFaces t1 t2 h1 h2 w.
Proof.
  intros L1 L2 S1 S2.
  destruct (Hand_straight_run h1 t1 L1 S1)
    as (a1 & b1 & c1 & d1 & e1 & D1 & -> & Hb1 & Hc1 & Hd1 & He1).
  destruct (Hand_straight_run h2 t2 L2 S2)
    as (a2 & b2 & c2 & d2 & e2 & D2 & -> & Hb2 & Hc2 & Hd2 & He2).
  unfold highCard; rewrite D1, D2; simpl.
  rewrite compareFaces_isDraw.
  destruct (Face_value (face a1) =? Face_value (face a2)) eqn:E; trivial.
  apply Z.eqb_eq in E.
  rewrite !compareFaces_same by lia; reflexivity.
Qed.

(** Claim C3.  When both five-card hands hold a straight, [straight] raises
    nothing and returns the comparison of the two top faces; when both also
    hold a flush, [straightFlush] raises nothing and its walk over the whole
    hands returns that same comparison.  The comparison is the draw when
    the top faces are equal and a win with the two faces in its reason when
    they differ. *)
Theorem straight_rankers_compare_top_faces
  (h1 h2 : Hand) (t1 t2 : Face) (w : string) :
  length (cards h1) = 5%nat -> length (cards h2) = 5%nat ->
  Hand_straight h1 = Ret (Some t1) -> Hand_straight h2 = Ret (Some t2) ->
  straight h1 h2 w = Ret (Some (compareFaces t1 t2 h1 h2 w))
  /\ (nonempty (Hand_isFlush h1) = true ->
      nonempty (Hand_isFlush h2) = true ->
      straightFlush h1 h2 w = Ret (Some (compareFaces t1 t2 h1 h2 w)))
  /\ (t1 = t2 -> compareFaces t1 t2 h1 h2 w = Result_draw)
  /\ (Face_value t2 < Face_value t1 ->
      compareFaces t1 t2 h1 h2 w = Result_win (colour h1) (over w t1 t2))
  /\ (Face_value t1 < Face_value t2 ->
      compareFaces t1 t2 h1 h2 w = Result_win (colour h2) (over w t2 t1)).
Proof.
  intros L1 L2 S1 S2; repeat split.
  - unfold straight; rewrite S1, S2; reflexivity.
  - intros F1 F2; unfold straightFlush, straight_and_flush.
    rewrite S1, S2; simpl; rewrite F1, F2; simpl.
    now rewrite (highCard_runs h1 h2 t1 t2).
  - intros ->; now apply compareFaces_same.
  - apply compareFaces_gt.
  - apply compareFaces_lt.
Qed.

(** On a hand of exactly five cards [straight] raises nothing; it returns
    the face of the highest card when the five descending values are
    consecutive, and [None] otherwise. *)
Lemma Hand_straight_total (h : Hand) :
  length (cards h) = 5%nat ->
  exists o, Hand_straight h = Ret o
            /\ o = (if is_run (face_values (Hand_descending h))
                    then option_map face (hd_error (Hand_descending h))
                    else None).
Proof. intros L; eexists; split; [now apply Hand_straight_five | trivial]. Qed.

(** ** Sets *)

Section SetFacts.
Context {A : Type} (same : A -> A -> bool).
Hypothesis same_sym : forall a b, same a b = same b a.

Lemma set_contains_app (s t : list A) (x : A) :
  set_contains same (s ++ t) x
  = set_contains same s x || set_contains same t x.
Proof. apply existsb_app. Qed.

Lemma is_set_app_contains (acc l : list A) (x : A) :
  is_set same (acc ++ x :: l) = true -> set_contains same acc x = false.
Proof.
  induction acc as [| a acc IH]; simpl; [reflexivity |].
  intros S; apply andb_prop in S as [N S].
  rewrite (IH S), orb_false_r.
  rewrite set_contains_app in N; simpl in N.
  rewrite same_sym.
  destruct (same x a); [| reflexivity].
  now rewrite orb_true_r in N.
Qed.

Lemma fold_set_add_is_set (l acc : list A) :
  is_set same (acc ++ l) = true -> fold_left (set_add same) l acc = acc ++ l.
Proof.
  revert acc; induction l as [| x l IH]; intros acc S; simpl.
  - now rewrite app_nil_r.
  - unfold set_add at 2; rewrite (is_set_app_contains acc l x S).
    rewrite IH; rewrite <- app_assoc; [reflexivity | exact S].
Qed.

Lemma set_of_is_set (l : list A) : is_set same l = true -> set_of same l = l.
Proof. intros S; now apply (fold_set_add_is_set l []). Qed.

Lemma set_contains_filter (p : A -> bool) (l : list A) (x : A) :
  set_contains same (filter p l) x = true -> set_contains same l x = true.
Proof.
  unfold set_contains; rewrite !existsb_exists.
  intros (y & Hy & E); exists y; split; [| exact E].
  now apply filter_In in Hy.
Qed.

Lemma is_set_filter (p : A -> bool) (l : list A) :
  is_set same l = true -> is_set same (filter p l) = true.
Proof.
  induction l as [| x l IH]; simpl; [trivial |].
  intros S; apply andb_prop in S as [N S].
  destruct (p x); simpl; [| now apply IH].
  rewrite (IH S), andb_true_r.
  destruct (set_contains same (filter p l) x) eqn:C; [| reflexivity].
  apply set_contains_filter in C; now rewrite C in N.
Qed.

Lemma NoDup_is_set (l : list A) :
  (forall a b, same a b = true -> a = b) -> NoDup l -> is_set same l = true.
Proof.
  intros I; induction 1 as [| x l N _ IH]; simpl; [reflexivity |].
  rewrite IH, andb_true_r.
  destruct (set_contains same l x) eqn:C; [| reflexivity].
  unfold set_contains in C; apply existsb_exists in C as (y & Hy & E).
  apply I in E; subst y; contradiction.
Qed.

End SetFacts.

Lemma filter_split_length {A : Type} (p : A -> bool) (l : list A) :
  (length (filter p l) + length (filter (fun a => negb (p a)) l)
   = length l)%nat.
Proof.
  induction l as [| a l IH]; simpl; [reflexivity |].
  destruct (p a); simpl; lia.
Qed.

(** ** Grouping and counting *)

Section Grouping.
Context {K : Type} (eqb : K -> K -> bool).
Hypothesis eqb_true : forall a b, eqb a b = true <-> a = b.
Variable fun_ : Card -> K.

Let of_key (k : K) (cs : list Card) : list Card :=
  filter (fun c => eqb (fun_ c) k) cs.

Lemma eqb_refl' (k : K) : eqb k k = true.
Proof. now apply eqb_true. Qed.

Lemma dict_get_grouped_append (k : K) (c : Card) (g : list (K * list Card))
  (k' : K) :
  dict_get eqb (grouped_append eqb k c g) k'
  = if eqb k k'
    then Some (match dict_get eqb g k with
               | Some cs => cs ++ [c]
               | None => [c]
               end)
    else dict_get eqb g k'.
Proof.
  induction g as [| [k0 cs] g IH]; simpl; [reflexivity |].
  destruct (eqb k0 k) eqn:E0; simpl.
  - apply eqb_true in E0; subst k0.
    destruct (eqb k k'); reflexivity.
  - rewrite IH.
    destruct (eqb k0 k') eqn:E1; [| reflexivity].
    apply eqb_true in E1; subst k0.
    destruct (eqb k k') eqn:E2; [| reflexivity].
    apply eqb_true in E2; subst k'.
    now rewrite eqb_refl' in E0.
Qed.

Lemma grouped_fold (cs : list Card) :
  forall (g : list (K * list Card)) (l : list Card),
    (forall k, dict_get eqb g k = opt_list (of_key k l)) ->
    forall k,
      dict_get eqb
        (fold_left
           (fun grouped card => grouped_append eqb (fun_ card) card grouped)
           cs g) k
      = opt_list (of_key k (l ++ cs)).
Proof.
  induction cs as [| c cs IH]; intros g l Inv k; simpl.
  - now rewrite app_nil_r.
  - replace (l ++ c :: cs) with ((l ++ [c]) ++ cs)
      by now rewrite <- app_assoc.
    apply IH; clear k; intros k.
    rewrite dict_get_grouped_append, Inv.
    unfold of_key; rewrite filter_app; simpl.
    destruct (eqb (fun_ c) k) eqn:E.
    + apply eqb_true in E; subst k.
      destruct (filter _ l); reflexivity.
    + rewrite app_nil_r; apply Inv.
Qed.

Lemma Hand_grouped_get (h : Hand) (k : K) :
  dict_get eqb (Hand_grouped eqb fun_ h) k = opt_list (of_key k (cards h)).
Proof. apply (grouped_fold (cards h) [] []); reflexivity. Qed.

Lemma dict_get_counts_of (g : list (K * list Card)) (k : K) :
  dict_get eqb (counts_of g) k = option_map (@length Card) (dict_get eqb g k).
Proof.
  induction g as [| [k0 cs] g IH]; simpl; [reflexivity |].
  destruct (eqb k0 k); [reflexivity | exact IH].
Qed.

Lemma dict_get_some_key {V : Type} (d : list (K * V)) (k : K) (v : V) :
  dict_get eqb d k = Some v -> In k (map fst d).
Proof.
  induction d as [| [k0 v0] d IH]; simpl; [discriminate |].
  destruct (eqb k0 k) eqn:E; [apply eqb_true in E; now left |].
  intros G; right; now apply IH.
Qed.

Lemma keys_with_count_In (d : list (K * nat)) (n : nat) (k : K) :
  In k (keys_with_count eqb d n) <-> dict_get eqb d k = Some n.
Proof.
  unfold keys_with_count; rewrite filter_In; split.
  - intros [_ E]; destruct (dict_get eqb d k); [| discriminate E].
    apply Nat.eqb_eq in E; now subst.
  - intros G; split; [now apply dict_get_some_key in G |].
    rewrite G; apply Nat.eqb_refl.
Qed.

Lemma counted_keys_In (h : Hand) (n : nat) (k : K) :
  In k (keys_with_count eqb (counts_of (Hand_grouped eqb fun_ h)) n)
  <-> length (of_key k (cards h)) = n /\ n <> 0%nat.
Proof.
  rewrite keys_with_count_In, dict_get_counts_of, Hand_grouped_get.
  destruct (of_key k (cards h)) as [| c l]; simpl; split.
  - discriminate.
  - intros [E N]; congruence.
  - intros E; injection E as <-; split; [reflexivity | discriminate].
  - intros [E _]; now rewrite E.
Qed.

End Grouping.

Lemma facesOccuringTimes_In (h : Hand) (n : nat) (f : Face) :
  In f (Hand_facesOccuringTimes h n)
  <-> face_count f (cards h) = n /\ n <> 0%nat.
Proof.
  unfold Hand_facesOccuringTimes, faceCounts.
  rewrite <- (counted_keys_In Face_eq Face_eq_true face h n f).
  split; apply Permutation_in;
    [| symmetry]; apply (sorted_reverse_perm Face_value).
Qed.

Lemma suitsOccuringTimes_In (h : Hand) (n : nat) (s : Suit) :
  In s (Hand_suitsOccuringTimes h n)
  <-> suit_count s (cards h) = n /\ n <> 0%nat.
Proof.
  unfold Hand_suitsOccuringTimes, suitCounts.
  apply (counted_keys_In Suit_eqb Suit_eqb_true suit h n s).
Qed.

Lemma facesOccuringTimes_head (h : Hand) (n : nat) (f : Face)
  (rest : list Face) :
  Hand_facesOccuringTimes h n = f :: rest ->
  face_count f (cards h) = n /\ n <> 0%nat
  /\ forall g, face_count g (cards h) = n -> Face_value g <= Face_value f.
Proof.
  intros E.
  assert (I : In f (Hand_facesOccuringTimes h n)) by (rewrite E; now left).
  apply facesOccuringTimes_In in I as [C N]; repeat split; trivial.
  intros g Cg.
  assert (Ig : In g (Hand_facesOccuringTimes h n))
    by now apply facesOccuringTimes_In.
  unfold Hand_facesOccuringTimes in E, Ig.
  apply (sorted_reverse_head_max Face_value _ _ _ E).
  now apply (Permutation_in _ (sorted_reverse_perm Face_value _)) in Ig.
Qed.

Lemma facesOccuringTimes_nil (h : Hand) (n : nat) :
  n <> 0%nat ->
  Hand_facesOccuringTimes h n = [] ->
  forall f, face_count f (cards h) <> n.
Proof.
  intros N E f C.
  assert (I : In f (Hand_facesOccuringTimes h n))
    by now apply facesOccuringTimes_In.
  now rewrite E in I.
Qed.

(** ** Card sets and residual hands *)

Section Residual.
Variable hash : Face * Suit -> Z.

Lemma Card_same_sym (a b : Card) : Card_same hash a b = Card_same hash b a.
Proof.
  unfold Card_same, Card_eq, Face_eq.
  now rewrite Z.eqb_sym, (Z.eqb_sym (Face_value (face a))).
Qed.

Lemma Card_same_refl (c : Card) : Card_same hash c c = true.
Proof. unfold Card_same, Card_eq; now rewrite Z.eqb_refl, Face_eq_refl. Qed.

Lemma Card_same_eq (a b : Card) :
  collision_free hash -> Card_same hash a b = true -> a = b.
Proof.
  intros I S; apply andb_prop in S as [S _].
  apply Z.eqb_eq, I in S.
  destruct a, b; simpl in S; congruence.
Qed.

Lemma card_set_filter (keep : Card -> bool) (cs : list Card) :
  is_set (Card_same hash) cs = true -> card_set hash keep cs = filter keep cs.
Proof.
  intros S; apply set_of_is_set; [apply Card_same_sym |].
  now apply is_set_filter.
Qed.

Lemma without_true (f : Face) (c : Card) :
  without f c = true <-> face c <> f.
Proof.
  unfold without; rewrite negb_true_iff; split.
  - intros E F; apply Face_eq_true in F; congruence.
  - intros N; destruct (Face_eq (face c) f) eqn:E; [| reflexivity].
    now apply Face_eq_true in E.
Qed.

Lemma without_length (f : Face) (cs : list Card) :
  (length (filter (without f) cs) + face_count f cs = length cs)%nat.
Proof.
  unfold face_count.
  rewrite <- (filter_split_length (fun c => Face_eq (face c) f) cs).
  unfold without; lia.
Qed.

(** Claim C7.  On a valid hand: when some face occurs exactly twice, [pair]
    returns the highest such face with a residual hand that keeps the owner
    and holds exactly the cards of another face, three of them; when no face
    occurs exactly twice, it returns [None] with the hand itself. *)
Theorem Hand_pair_spec (h : Hand) :
  valid_hand hash h ->
  ((exists f, face_count f (cards h) = 2%nat) ->
   exists f r,
     Hand_pair hash h = (Some f, r)
     /\ face_count f (cards h) = 2%nat
     /\ (forall g, face_count g (cards h) = 2%nat ->
                   Face_value g <= Face_value f)
     /\ colour r = colour h
     /\ (forall c, In c (cards r) <-> In c (cards h) /\ face c <> f)
     /\ length (cards r) = 3%nat
     /\ is_set (Card_same hash) (cards r) = true)
  /\ ((forall f, face_count f (cards h) <> 2%nat) ->
      Hand_pair hash h = (None, h)).
Proof.
  intros [S L]; unfold Hand_pair; split.
  - intros [f0 C0].
    destruct (Hand_facesOccuringTimes h 2) as [| f rest] eqn:E.
    + now apply (facesOccuringTimes_nil h 2) with (f := f0) in E.
    + apply facesOccuringTimes_head in E as (C & _ & Max).
      exists f, (mkHand (colour h) (card_set hash (without f) (cards h))).
      simpl; rewrite (card_set_filter _ _ S).
      split; [reflexivity |]. split; [exact C |]. split; [exact Max |].
      split; [reflexivity |]. split; [| split].
      * intros c; rewrite filter_In, without_true; tauto.
      * pose proof (without_length f (cards h)); lia.
      * now apply is_set_filter.
  - intros N.
    destruct (Hand_facesOccuringTimes h 2) as [| f rest] eqn:E; trivial.
    apply facesOccuringTimes_head in E as (C & _); now apply N in C.
Qed.

End Residual.

(** ** The presence gate of every category *)

Lemma straight_and_flush_five (h : Hand) :
  length (cards h) = 5%nat ->
  exists o, Hand_straight h = Ret o
            /\ straight_and_flush h
               = Ret (if truthy o then nonempty (Hand_isFlush h) else false).
Proof.
  intros L; unfold straight_and_flush.
  rewrite (Hand_straight_five h L); eexists; split; reflexivity.
Qed.

Section Gate.
Variable hash : Face * Suit -> Z.
Variables h1 h2 : Hand.
Hypothesis five1 : length (cards h1) = 5%nat.
Hypothesis five2 : length (cards h2) = 5%nat.

Let won (h : Hand) (c : Category) : M (option Result) :=
  Ret (Some (Result_win (colour h) (Category_name c))).

Lemma fatal_tie_gate (o1 o2 : option Face) (w msg : string) :
  fatal_tie o1 o2 h1 h2 w msg
  = match o1, o2 with
    | None, None => Ret None
    | Some _, None => Ret (Some (Result_win (colour h1) w))
    | None, Some _ => Ret (Some (Result_win (colour h2) w))
    | Some f1, Some f2 =>
        if Face_value f1 =? Face_value f2 then Raise (InvalidCardDeck msg)
        else Ret (Some (compareFaces f1 f2 h1 h2 w))
    end.
Proof.
  destruct o1 as [f1 |], o2 as [f2 |]; try reflexivity.
  unfold fatal_tie; simpl.
  now rewrite compareFaces_isDraw.
Qed.

(** What a ranker other than [highCard] returns when at most the first
    hand qualifies, or at most the second. *)
Lemma ranker_of_gate (c : Category) :
  c <> HighCard ->
  qualifies hash c h2 = false ->
  ranker_of hash c h1 h2
  = if qualifies hash c h1 then won h1 c else Ret None.
Proof.
  intros NH Q2; subst won; destruct c; simpl in *; try congruence.
  - unfold straightFlush.
    destruct (straight_and_flush_five h1 five1) as (o1 & _ & ->).
    destruct (straight_and_flush_five h2 five2) as (o2 & _ & E2).
    rewrite E2 in *; simpl; rewrite Q2.
    destruct (truthy o1); [destruct (nonempty (Hand_isFlush h1)) |];
      reflexivity.
  - unfold fourOfAKind.
    destruct (Hand_quartet hash h1) as [o1 r1],
             (Hand_quartet hash h2) as [o2 r2]; simpl in *.
    rewrite fatal_tie_gate; destruct o1, o2; simpl in *; congruence.
  - unfold fullHouse; rewrite fatal_tie_gate.
    destruct (Hand_fullHouse hash h1), (Hand_fullHouse hash h2);
      simpl in *; congruence.
  - unfold flush; rewrite Q2.
    now destruct (nonempty (Hand_isFlush h1)).
  - unfold straight.
    rewrite (Hand_straight_five h1 five1), (Hand_straight_five h2 five2) in *.
    simpl in *; rewrite Q2.
    destruct (if is_run (face_values (Hand_descending h1)) then _ else _);
      reflexivity.
  - unfold threeOfAKind.
    destruct (Hand_triplet hash h1) as [o1 r1],
             (Hand_triplet hash h2) as [o2 r2]; simpl in *.
    rewrite fatal_tie_gate; destruct o1, o2; simpl in *; congruence.
  - unfold twoPairs.
    destruct (Hand_pairs hash h1) as [[a1 b1] r1],
             (Hand_pairs hash h2) as [[a2 b2] r2]; simpl in *.
    rewrite Q2; now destruct (truthy a1 && truthy b1).
  - unfold twoOfAKind.
    destruct (Hand_pair hash h1) as [o1 r1],
             (Hand_pair hash h2) as [o2 r2]; simpl in *.
    rewrite Q2; now destruct (truthy o1).
Qed.




Lemma gate_cases (a1 a2 : bool) (w : string) :
  neitherOrOnlyOne a1 a2 h1 h2 w
  = match a1, a2 with
    | false, false => None
    | true, false => Some (Result_win (colour h1) w)
    | false, true => Some (Result_win (colour h2) w)
    | true, true => Some Result_draw
    end.
Proof. now destruct a1, a2. Qed.



End Gate.

(** ** Precedence *)

Lemma all_categories_sorted :
  StronglySorted (fun a b => (precedence a < precedence b)%nat)
    all_categories.
Proof. repeat constructor; simpl; lia. Qed.

Section Precedence.
Variable hash : Face * Suit -> Z.
Variables A B : Hand.
Hypothesis fiveA : length (cards A) = 5%nat.
Hypothesis fiveB : length (cards B) = 5%nat.

Lemma rank_loop_precedence (cs : list Category) (cA : Category) :
  StronglySorted (fun a b => (precedence a < precedence b)%nat) cs ->
  In cA cs ->
  qualifies hash cA A = true ->
  (forall c, qualifies hash c B = true -> (precedence cA < precedence c)%nat) ->
  exists c,
    qualifies hash c A = true
    /\ (forall c', In c' cs -> qualifies hash c' A = true ->
                   (precedence c <= precedence c')%nat)
    /\ rank_loop (map (ranker_of hash) cs) A B
       = Ret (Some (Result_win (colour A) (Category_name c))).
Proof.
  intros S I QA QB; induction cs as [| c0 cs IH]; [contradiction |].
  apply StronglySorted_inv in S as [S F]; rewrite Forall_forall in F.
  assert (P0 : (precedence c0 <= precedence cA)%nat).
  { destruct I as [-> | I]; [lia | specialize (F _ I); lia]. }
  assert (Q0 : qualifies hash c0 B = false).
  { destruct (qualifies hash c0 B) eqn:Q; [| reflexivity].
    apply QB in Q; lia. }
  assert (N0 : c0 <> HighCard) by (intros ->; discriminate Q0).
  simpl; rewrite (ranker_of_gate hash A B fiveA fiveB c0 N0 Q0).
  destruct (qualifies hash c0 A) eqn:Q; simpl.
  - exists c0; repeat split; trivial.
    intros c' [<- | I'] _; [lia | specialize (F _ I'); lia].
  - destruct IH as (c & Qc & Mc & R); [exact S | |].
    + destruct I as [-> | I]; [congruence | exact I].
    + exists c; repeat split; trivial.
      intros c' [<- | I'] Q'; [congruence | now apply Mc].
Qed.

End Precedence.

Lemma In_all_categories (c : Category) : In c all_categories.
Proof. destruct c; simpl; tauto. Qed.

(** Claim C1.  Let [A] and [B] be valid hands; if [A] qualifies for a category
    that precedes every category [B] qualifies for, then [rank A B] is a win
    that names the owner of [A], whatever the cards are; its reason is the
    bare name of the best category of [A]. *)
Theorem rank_precedence (hash : Face * Suit -> Z) (A B : Hand)
  (cA : Category) :
  valid_hand hash A -> valid_hand hash B ->
  qualifies hash cA A = true ->
  (forall c, qualifies hash c B = true -> (precedence cA < precedence c)%nat) ->
  exists c,
    qualifies hash c A = true
    /\ (forall c', qualifies hash c' A = true ->
                   (precedence c <= precedence c')%nat)
    /\ rank hash A B = Ret (Some (Result_win (colour A) (Category_name c))).
Proof.
  intros [_ LA] [_ LB] QA QB.
  destruct (rank_loop_precedence hash A B LA LB all_categories cA
              all_categories_sorted (In_all_categories cA) QA QB)
    as (c & Qc & Mc & R).
  exists c; repeat split; trivial.
  intros c'; apply Mc, In_all_categories.
Qed.


(** ** Repeated faces exclude straights and flushes *)

Lemma face_count_perm (f : Face) (l l' : list Card) :
  Permutation l l' -> face_count f l = face_count f l'.
Proof.
  unfold face_count; induction 1; simpl; trivial.
  - destruct (Face_eq (face x) f); simpl; congruence.
  - destruct (Face_eq (face x) f), (Face_eq (face y) f); reflexivity.
  - congruence.
Qed.

Lemma straight_faces_once (h : Hand) (t f : Face) :
  length (cards h) = 5%nat ->
  Hand_straight h = Ret (Some t) ->
  (face_count f (cards h) <= 1)%nat.
Proof.
  intros L S.
  destruct (Hand_straight_run h t L S)
    as (a & b & c & d & e & D & _ & Hb & Hc & Hd & He).
  rewrite <- (face_count_perm f _ _ (Hand_descending_perm h)), D.
  unfold face_count; simpl.
  destruct (Face_eq (face a) f) eqn:Ea, (Face_eq (face b) f) eqn:Eb,
    (Face_eq (face c) f) eqn:Ec, (Face_eq (face d) f) eqn:Ed,
    (Face_eq (face e) f) eqn:Ee; simpl; try lia;
    repeat match goal with
           | H : Face_eq _ _ = true |- _ => apply Z.eqb_eq in H
           end; lia.
Qed.

Lemma repeated_face_no_straight (h : Hand) (f : Face) :
  length (cards h) = 5%nat ->
  (2 <= face_count f (cards h))%nat ->
  Hand_straight h = Ret None.
Proof.
  intros L C.
  destruct (Hand_straight_total h L) as (o & S & _); rewrite S.
  destruct o as [t |]; [| reflexivity].
  pose proof (straight_faces_once h t f L S); lia.
Qed.

Lemma filter_all {A : Type} (p : A -> bool) (l : list A) :
  length (filter p l) = length l -> Forall (fun a => p a = true) l.
Proof.
  induction l as [| a l IH]; simpl; [constructor |].
  pose proof (filter_length_le p l).
  destruct (p a) eqn:E; simpl; intros L; [| lia].
  constructor; [exact E | apply IH; lia].
Qed.

Lemma face_count_two (f g : Face) (cs : list Card) :
  f <> g -> (face_count f cs + face_count g cs <= length cs)%nat.
Proof.
  intros N; unfold face_count; induction cs as [| c cs IH]; simpl; [lia |].
  destruct (Face_eq (face c) f) eqn:Ef, (Face_eq (face c) g) eqn:Eg;
    simpl; try lia.
  apply Face_eq_true in Ef, Eg; congruence.
Qed.

Section Exclusion.
Variable hash : Face * Suit -> Z.

Lemma one_suit_faces_once (s : Suit) (f : Face) (cs : list Card) :
  is_set (Card_same hash) cs = true ->
  Forall (fun c => Suit_eqb (suit c) s = true) cs ->
  (face_count f cs <= 1)%nat.
Proof.
  unfold face_count; induction cs as [| c cs IH]; simpl; [lia |].
  intros S F; apply andb_prop in S as [N S]; inversion_clear F as [| ? ? Fc Fs].
  specialize (IH S Fs).
  destruct (Face_eq (face c) f) eqn:E; simpl; [| lia].
  destruct (filter _ cs) as [| y l] eqn:Y; simpl; [lia |].
  exfalso.
  assert (Iy : In y (filter (fun c => Face_eq (face c) f) cs))
    by (rewrite Y; now left).
  apply filter_In in Iy as [Iy Ey].
  rewrite Forall_forall in Fs; specialize (Fs y Iy).
  apply Face_eq_true in E, Ey; apply Suit_eqb_true in Fc, Fs.
  assert (y = c) by (destruct y, c; simpl in *; congruence); subst y.
  apply negb_true_iff in N.
  assert (C : set_contains (Card_same hash) cs c = true).
  { apply existsb_exists; exists c; split; [exact Iy |].
    apply Card_same_refl. }
  congruence.
Qed.

Lemma repeated_face_no_flush (h : Hand) (f : Face) :
  valid_hand hash h ->
  (2 <= face_count f (cards h))%nat ->
  nonempty (Hand_isFlush h) = false.
Proof.
  intros [S L] C.
  destruct (Hand_isFlush h) as [| s l] eqn:E; [reflexivity | exfalso].
  assert (I : In s (Hand_isFlush h)) by (rewrite E; now left).
  apply suitsOccuringTimes_In in I as [I _].
  unfold suit_count in I; rewrite <- L in I; apply filter_all in I.
  pose proof (one_suit_faces_once s f (cards h) S I); lia.
Qed.

Lemma Hand_triplet_count (h : Hand) (f : Face) :
  fst (Hand_triplet hash h) = Some f -> face_count f (cards h) = 3%nat.
Proof.
  unfold Hand_triplet.
  destruct (Hand_facesOccuringTimes h 3) eqn:E; simpl; intros X;
    [discriminate X |].
  injection X as ->; now apply facesOccuringTimes_head in E.
Qed.

Lemma Hand_quartet_count (h : Hand) (f : Face) :
  fst (Hand_quartet hash h) = Some f -> face_count f (cards h) = 4%nat.
Proof.
  unfold Hand_quartet.
  destruct (Hand_facesOccuringTimes h 4) eqn:E; simpl; intros X;
    [discriminate X |].
  injection X as ->; now apply facesOccuringTimes_head in E.
Qed.

Lemma Hand_fullHouse_triplet (h : Hand) (f : Face) :
  Hand_fullHouse hash h = Some f -> fst (Hand_triplet hash h) = Some f.
Proof.
  unfold Hand_fullHouse.
  destruct (Hand_triplet hash h) as [[t |] r]; simpl; [| discriminate].
  destruct (Hand_pair hash r) as [[p |] r']; simpl; [trivial | discriminate].
Qed.

Lemma triplet_no_quartet (h : Hand) (f : Face) :
  length (cards h) = 5%nat ->
  face_count f (cards h) = 3%nat ->
  fst (Hand_quartet hash h) = None.
Proof.
  intros L C.
  destruct (fst (Hand_quartet hash h)) as [g |] eqn:Q; [| reflexivity].
  apply Hand_quartet_count in Q.
  assert (N : f <> g) by (intros ->; lia).
  pose proof (face_count_two f g (cards h) N); lia.
Qed.

(** A hand with a repeated face qualifies neither for a straight flush,
    nor for a flush, nor for a straight. *)
Lemma repeated_face_unqualified (h : Hand) (f : Face) :
  valid_hand hash h ->
  (2 <= face_count f (cards h))%nat ->
  qualifies hash StraightFlush h = false
  /\ qualifies hash Flush h = false
  /\ qualifies hash Straight h = false.
Proof.
  intros V C; pose proof V as [_ L]; simpl.
  unfold straight_and_flush.
  rewrite (repeated_face_no_straight h f L C); simpl.
  now rewrite (repeated_face_no_flush h f V C).
Qed.

End Exclusion.

(** ** Fatal ties *)

Section FatalTies.
Variable hash : Face * Suit -> Z.

Lemma rank_loop_skip (h1 h2 : Hand) (c : Category) (cs : list Category) :
  length (cards h1) = 5%nat -> length (cards h2) = 5%nat ->
  c <> HighCard ->
  qualifies hash c h1 = false -> qualifies hash c h2 = false ->
  rank_loop (map (ranker_of hash) (c :: cs)) h1 h2
  = rank_loop (map (ranker_of hash) cs) h1 h2.
Proof.
  intros L1 L2 N Q1 Q2; simpl.
  now rewrite (ranker_of_gate hash h1 h2 L1 L2 c N Q2), Q1.
Qed.

Lemma rank_loop_raise (h1 h2 : Hand) (c : Category) (cs : list Category)
  (e : exn) :
  ranker_of hash c h1 h2 = Raise e ->
  rank_loop (map (ranker_of hash) (c :: cs)) h1 h2 = Raise e.
Proof. intros E; simpl; now rewrite E. Qed.

Lemma rank_loop_return (h1 h2 : Hand) (c : Category) (cs : list Category)
  (r : Result) :
  ranker_of hash c h1 h2 = Ret (Some r) ->
  rank_loop (map (ranker_of hash) (c :: cs)) h1 h2 = Ret (Some r).
Proof. intros E; simpl; now rewrite E. Qed.

(** The ranker of a category with a fatal tie raises when both hands match
    the same face. *)
Lemma matched_tie_raises (c : Category) (h1 h2 : Hand) (f : Face) :
  matched hash c h1 = Some f -> matched hash c h2 = Some f ->
  ranker_of hash c h1 h2 = Raise (InvalidCardDeck (tie_message c)).
Proof.
  destruct c; simpl; try discriminate; intros M1 M2.
  - unfold fourOfAKind.
    destruct (Hand_quartet hash h1), (Hand_quartet hash h2); simpl in *.
    subst; rewrite fatal_tie_gate; now rewrite Z.eqb_refl.
  - unfold fullHouse; rewrite M1, M2, fatal_tie_gate; now rewrite Z.eqb_refl.
  - unfold threeOfAKind.
    destruct (Hand_triplet hash h1), (Hand_triplet hash h2); simpl in *.
    subst; rewrite fatal_tie_gate; now rewrite Z.eqb_refl.
Qed.

Lemma matched_count (c : Category) (h : Hand) (f : Face) :
  matched hash c h = Some f ->
  face_count f (cards h)
  = match c with FourOfAKind => 4%nat | _ => 3%nat end.
Proof.
  destruct c; simpl; try discriminate.
  - apply Hand_quartet_count.
  - intros F; apply (Hand_triplet_count hash).
    now apply Hand_fullHouse_triplet.
  - apply Hand_triplet_count.
Qed.

Lemma triplet_unqualified (h : Hand) (f : Face) :
  valid_hand hash h ->
  face_count f (cards h) = 3%nat ->
  qualifies hash StraightFlush h = false
  /\ qualifies hash FourOfAKind h = false
  /\ qualifies hash Flush h = false
  /\ qualifies hash Straight h = false.
Proof.
  intros V C; pose proof V as [_ L].
  destruct (repeated_face_unqualified hash h f V) as (Q1 & Q2 & Q3); [lia |].
  repeat split; trivial.
  simpl; now rewrite (triplet_no_quartet hash h f L C).
Qed.

Lemma rank_quartets (h1 h2 : Hand) (f : Face) :
  valid_hand hash h1 -> valid_hand hash h2 ->
  matched hash FourOfAKind h1 = Some f ->
  matched hash FourOfAKind h2 = Some f ->
  rank hash h1 h2 = Raise (InvalidCardDeck (tie_message FourOfAKind)).
Proof.
  intros V1 V2 M1 M2; pose proof V1 as [_ L1]; pose proof V2 as [_ L2].
  pose proof (matched_count _ _ _ M1) as C1.
  pose proof (matched_count _ _ _ M2) as C2; simpl in C1, C2.
  destruct (repeated_face_unqualified hash h1 f V1) as (S1 & _); [lia |].
  destruct (repeated_face_unqualified hash h2 f V2) as (S2 & _); [lia |].
  unfold rank; rewrite categories_ranker_of; unfold all_categories.
  rewrite rank_loop_skip by (trivial; discriminate).
  apply rank_loop_raise; now apply matched_tie_raises with (f := f).
Qed.

Lemma rank_full_houses (h1 h2 : Hand) (f : Face) :
  valid_hand hash h1 -> valid_hand hash h2 ->
  matched hash FullHouse h1 = Some f ->
  matched hash FullHouse h2 = Some f ->
  rank hash h1 h2 = Raise (InvalidCardDeck (tie_message FullHouse)).
Proof.
  intros V1 V2 M1 M2; pose proof V1 as [_ L1]; pose proof V2 as [_ L2].
  pose proof (matched_count _ _ _ M1) as C1.
  pose proof (matched_count _ _ _ M2) as C2; simpl in C1, C2.
  destruct (triplet_unqualified h1 f V1 C1) as (S1 & K1 & _).
  destruct (triplet_unqualified h2 f V2 C2) as (S2 & K2 & _).
  unfold rank; rewrite categories_ranker_of; unfold all_categories.
  rewrite !rank_loop_skip by (trivial; discriminate).
  apply rank_loop_raise; now apply matched_tie_raises with (f := f).
Qed.

Lemma rank_full_house_over_triplet (h1 h2 : Hand) (f : Face) :
  valid_hand hash h1 -> valid_hand hash h2 ->
  matched hash ThreeOfAKind h1 = Some f ->
  matched hash ThreeOfAKind h2 = Some f ->
  qualifies hash FullHouse h1 = true ->
  qualifies hash FullHouse h2 = false ->
  rank hash h1 h2 = Ret (Some (Result_win (colour h1) "Full House")).
Proof.
  intros V1 V2 M1 M2 F1 F2; pose proof V1 as [_ L1]; pose proof V2 as [_ L2].
  pose proof (matched_count _ _ _ M1) as C1.
  pose proof (matched_count _ _ _ M2) as C2; simpl in C1, C2.
  destruct (triplet_unqualified h1 f V1 C1) as (S1 & K1 & _).
  destruct (triplet_unqualified h2 f V2 C2) as (S2 & K2 & _).
  unfold rank; rewrite categories_ranker_of; unfold all_categories.
  rewrite !rank_loop_skip by (trivial; discriminate).
  apply rank_loop_return.
  rewrite (ranker_of_gate hash h1 h2 L1 L2 FullHouse) by (trivial; discriminate).
  now rewrite F1.
Qed.

Lemma rank_triplets (h1 h2 : Hand) (f : Face) :
  valid_hand hash h1 -> valid_hand hash h2 ->
  matched hash ThreeOfAKind h1 = Some f ->
  matched hash ThreeOfAKind h2 = Some f ->
  qualifies hash FullHouse h1 = qualifies hash FullHouse h2 ->
  rank hash h1 h2 = Raise (InvalidCardDeck (tie_message ThreeOfAKind)).
Proof.
  intros V1 V2 M1 M2 F.
  destruct (qualifies hash FullHouse h2) eqn:F2.
  - (* two full houses on the same triplet face *)
    simpl in F, F2, M1, M2.
    destruct (Hand_fullHouse hash h1) as [t1 |] eqn:E1; [| discriminate F].
    destruct (Hand_fullHouse hash h2) as [t2 |] eqn:E2; [| discriminate F2].
    pose proof (Hand_fullHouse_triplet hash h1 t1 E1) as T1.
    pose proof (Hand_fullHouse_triplet hash h2 t2 E2) as T2.
    assert (t1 = f) by congruence; assert (t2 = f) by congruence; subst.
    now apply rank_full_houses with (f := f).
  - pose proof V1 as [_ L1]; pose proof V2 as [_ L2].
    pose proof (matched_count _ _ _ M1) as C1.
    pose proof (matched_count _ _ _ M2) as C2; simpl in C1, C2.
    destruct (triplet_unqualified h1 f V1 C1) as (S1 & K1 & X1 & Y1).
    destruct (triplet_unqualified h2 f V2 C2) as (S2 & K2 & X2 & Y2).
    unfold rank; rewrite categories_ranker_of; unfold all_categories.
    rewrite !rank_loop_skip by (trivial; discriminate).
    apply rank_loop_raise; now apply matched_tie_raises with (f := f).
Qed.

(** Claim C2, as amended.  When two valid hands match the same face in
    Four of a Kind, Full House or Three of a Kind, the ranker of that
    category raises [InvalidCardDeck].  For Four of a Kind and Full House
    the whole [rank] call raises it; for Three of a Kind it does so when
    both hands or neither hold a full house, and when exactly one does,
    [rank] returns the win of that hand by Full House, the category tried
    earlier. *)
Theorem fatal_tie_aborts_rank (c : Category) (h1 h2 : Hand) (f : Face) :
  valid_hand hash h1 -> valid_hand hash h2 ->
  matched hash c h1 = Some f -> matched hash c h2 = Some f ->
  ranker_of hash c h1 h2 = Raise (InvalidCardDeck (tie_message c))
  /\ (c <> ThreeOfAKind
      \/ qualifies hash FullHouse h1 = qualifies hash FullHouse h2 ->
      rank hash h1 h2 = Raise (InvalidCardDeck (tie_message c)))
  /\ (c = ThreeOfAKind ->
      qualifies hash FullHouse h1 = true ->
      qualifies hash FullHouse h2 = false ->
      rank hash h1 h2 = Ret (Some (Result_win (colour h1) "Full House")))
  /\ (c = ThreeOfAKind ->
      qualifies hash FullHouse h1 = false ->
      qualifies hash FullHouse h2 = true ->
      rank hash h1 h2 = Ret (Some (Result_win (colour h2) "Full House"))).
Proof.
  intros V1 V2 M1 M2; split; [| split; [| split]].
  - now apply matched_tie_raises with (f := f).
  - intros H; destruct c; try discriminate M1.
    + now apply rank_quartets with (f := f).
    + now apply rank_full_houses with (f := f).
    + destruct H as [H | H]; [congruence |].
      now apply rank_triplets with (f := f).
  - intros -> F1 F2; now apply rank_full_house_over_triplet with (f := f).
  - intros -> F1 F2; rewrite rank_swap.
    now apply rank_full_house_over_triplet with (f := f).
Qed.

End FatalTies.

(** ** Hashes without collisions *)

Lemma hash_distinct (hash : Face * Suit -> Z) (p q : Face * Suit) :
  collision_free hash -> p <> q -> (hash p =? hash q) = false.
Proof. intros I N; apply Z.eqb_neq; intros E; now apply I in E. Qed.

Lemma hash0_collision_free : collision_free hash0.
Proof.
  intros [f s] [g t]; unfold hash0; simpl; intros E.
  assert (V : Face_value f = Face_value g)
    by (destruct f, g; simpl in *; destruct s, t; lia).
  apply Face_value_inj in V; subst g.
  destruct s, t; try reflexivity; lia.
Qed.

(** ** The theorems at work on example hands *)

Lemma rank_precedence_witness :
  exists c,
    qualifies hash0 c ex_flush = true
    /\ (forall c', qualifies hash0 c' ex_flush = true ->
                   (precedence c <= precedence c')%nat)
    /\ rank hash0 ex_flush ex_straight
       = Ret (Some (Result_win (colour ex_flush) (Category_name c))).
Proof.
  apply (rank_precedence hash0 ex_flush ex_straight Flush).
  - split; reflexivity.
  - split; reflexivity.
  - reflexivity.
  - intros c; destruct c; simpl precedence; intros Q; try lia;
      vm_compute in Q; discriminate Q.
Defined.

Lemma fatal_tie_aborts_rank_witness :
  rank hash0 ex_quartet_black ex_quartet_white
  = Raise (InvalidCardDeck "Two quartets with same faces?")
  /\ rank hash0 ex_triplet_black ex_triplet_white
     = Raise (InvalidCardDeck "Two triplets with same faces?")
  /\ rank hash0 ex_full_house ex_triplet_white
     = Ret (Some (Result_win "Black" "Full House")).
Proof.
  split; [| split].
  - apply (fatal_tie_aborts_rank hash0 FourOfAKind ex_quartet_black
             ex_quartet_white FT);
      try (split; reflexivity); try reflexivity.
    left; discriminate.
  - apply (fatal_tie_aborts_rank hash0 ThreeOfAKind ex_triplet_black
             ex_triplet_white F3);
      try (split; reflexivity); try reflexivity.
    right; reflexivity.
  - apply (fatal_tie_aborts_rank hash0 ThreeOfAKind ex_full_house
             ex_triplet_white F3);
      try (split; reflexivity); reflexivity.
Defined.

(** Claim C2, as stated, fails: both hands hold three threes, so both
    qualify for Three of a Kind on the same face, yet [rank] raises nothing
    and returns the win of the full house. *)
Lemma triplet_tie_ranked_by_full_house :
  valid_hand hash0 ex_full_house /\ valid_hand hash0 ex_triplet_white
  /\ fst (Hand_triplet hash0 ex_full_house) = Some F3
  /\ fst (Hand_triplet hash0 ex_triplet_white) = Some F3
  /\ rank hash0 ex_full_house ex_triplet_white
     = Ret (Some (Result_win "Black" "Full House"))
  /\ forall e, rank hash0 ex_full_house ex_triplet_white <> Raise e.
Proof.
  repeat split; try reflexivity.
  intros e; vm_compute; discriminate.
Qed.

Lemma straight_rankers_compare_top_faces_witness :
  straight ex_straight_flush_black ex_straight_flush_white "Straight"
  = Ret (Some (Result_win "White" "Straight: 7 over 6"))
  /\ straightFlush ex_straight_flush_black ex_straight_flush_white
       "Straight Flush"
     = Ret (Some (Result_win "White" "Straight Flush: 7 over 6")).
Proof.
  split.
  - apply (straight_rankers_compare_top_faces ex_straight_flush_black
             ex_straight_flush_white F6 F7 "Straight"); reflexivity.
  - apply (straight_rankers_compare_top_faces ex_straight_flush_black
             ex_straight_flush_white F6 F7 "Straight Flush"); reflexivity.
Defined.


Lemma rank_symmetric_witness :
  exists r',
    rank hash0 ex_straight ex_flush = Ret (Some r')
    /\ outcome r' = "win"
    /\ winningColour r' = Some "White"
    /\ reason r' = Some "Flush".
Proof.
  apply (rank_symmetric hash0 ex_flush ex_straight
           (Result_win "White" "Flush")).
  reflexivity.
Defined.

Lemma highCard_same_faces_draw_witness :
  highCard ex_high_black ex_high_white "High Card" = Result_draw.
Proof.
  apply (highCard_same_faces_draw ex_high_black ex_high_white "High Card").
  reflexivity.
Defined.

Lemma Hand_pair_spec_witness :
  exists f r,
    Hand_pair hash0 ex_two_pairs = (Some f, r)
    /\ face_count f (cards ex_two_pairs) = 2%nat
    /\ (forall g, face_count g (cards ex_two_pairs) = 2%nat ->
                  Face_value g <= Face_value f)
    /\ colour r = colour ex_two_pairs
    /\ (forall c, In c (cards r) <-> In c (cards ex_two_pairs) /\ face c <> f)
    /\ length (cards r) = 3%nat
    /\ is_set (Card_same hash0) (cards r) = true.
Proof.
  apply (Hand_pair_spec hash0 ex_two_pairs).
  - split; reflexivity.
  - exists FK; reflexivity.
Defined.

(** * Further properties of the code *)

(** ** Faces and cards read from text *)

Lemma Face_lookup_spec (rep : string) :
  (exists f, rep = Face_rep f /\ Face_init rep = Ret f)
  \/ ((forall f, rep <> Face_rep f) /\ Face_init rep = Raise ValueError).
Proof.
  unfold Face_init, Face_all, Face_faces; simpl.
  repeat match goal with
         | |- context [String.eqb rep ?r] =>
             let E := fresh "E" in
             destruct (String.eqb rep r) eqn:E;
             [apply String.eqb_eq in E; subst rep; left; eexists; split;
              [| reflexivity];
              reflexivity
             | apply String.eqb_neq in E]
         end.
  right; split; [| reflexivity].
  intros f; destruct f; assumption.
Qed.

(** Extra X1.  [Face(rep)] succeeds on the thirteen symbols of [Face.faces]
    only: it returns [f] exactly when [rep] is the text of [f], whose value
    is the position of that text in the list, and raises [ValueError] on
    any other text.  Equal faces have the same text, so face equality
    agrees with the face hash. *)
Theorem Face_init_round_trip (rep : string) (f : Face) :
  (Face_init rep = Ret f <-> rep = Face_rep f)
  /\ Face_init (Face_rep f) = Ret f
  /\ nth_error Face_faces (Z.to_nat (Face_value f)) = Some (Face_rep f)
  /\ ((forall g, rep <> Face_rep g) -> Face_init rep = Raise ValueError)
  /\ (forall g, Face_eq f g = true -> Face_rep f = Face_rep g).
Proof.
  assert (R : forall g, Face_init (Face_rep g) = Ret g)
    by (intros g; destruct g; reflexivity).
  repeat split.
  - destruct (Face_lookup_spec rep) as [(g & -> & E) | (_ & E)];
      rewrite E; intros X; [now injection X as -> | discriminate X].
  - intros ->; apply R.
  - apply R.
  - destruct f; reflexivity.
  - intros N; destruct (Face_lookup_spec rep) as [(g & E & _) | (_ & E)];
      [now apply N in E | exact E].
  - intros g E; apply Face_eq_true in E; now subst.
Qed.

Lemma Suit_init_spec (rep : string) (s : Suit) :
  Suit_init rep = Ret s -> rep = Suit_value s.
Proof.
  unfold Suit_init.
  repeat match goal with
         | |- context [String.eqb rep ?r] =>
             let E := fresh "E" in
             destruct (String.eqb rep r) eqn:E;
             [apply String.eqb_eq in E; subst rep; intros X;
              now injection X as <- |]
         end.
  discriminate.
Qed.

Lemma Card_fromRep_repr (c : Card) (rest : string) :
  Card_fromRep (Card_repr c ++ rest)%string = Ret c.
Proof. destruct c as [f s]; destruct f, s; reflexivity. Qed.

(** Extra X2.  [Card.fromRep] reads the first two characters and ignores
    the rest: it returns [c] exactly on the texts that start with the text
    of [c].  A text of fewer than two characters never gives a card. *)
Theorem Card_fromRep_round_trip (rep : string) (c : Card) :
  (Card_fromRep rep = Ret c
   <-> exists rest, rep = (Card_repr c ++ rest)%string)
  /\ ((String.length rep < 2)%nat -> exists e, Card_fromRep rep = Raise e).
Proof.
  split; [split |].
  - destruct rep as [| a [| b rest]]; try discriminate.
    + unfold Card_fromRep; simpl.
      destruct (Face_init _); simpl; discriminate.
    + unfold Card_fromRep; simpl.
      destruct (Face_init (String a "")) as [f | e] eqn:F; simpl;
        [| discriminate].
      destruct (Suit_init (String b "")) as [s | e] eqn:S; simpl;
        [| discriminate].
      intros X; injection X as <-.
      destruct (Face_lookup_spec (String a "")) as [(g & Eg & Fg) | (_ & Fg)];
        rewrite Fg in F; [| discriminate F].
      injection F as ->; apply Suit_init_spec in S.
      exists rest; unfold Card_repr; simpl; rewrite <- Eg, <- S; reflexivity.
  - intros (rest & ->); apply Card_fromRep_repr.
  - destruct rep as [| a [| b rest]]; simpl; intros L; try lia.
    + now exists IndexError.
    + unfold Card_fromRep; simpl.
      destruct (Face_init _); simpl; eauto.
Qed.

(** ** The descending order of a hand *)

Section Stability.
Context {A : Type} (key : A -> Z).

Let lt (a b : A) : bool := key a <? key b.

Lemma insert_desc_stable (k : Z) (x : A) (l : list A) :
  filter (fun a => key a =? k) (insert_desc lt x l)
  = filter (fun a => key a =? k) (x :: l).
Proof.
  induction l as [| y l IH]; [reflexivity |].
  simpl insert_desc; unfold lt at 1.
  destruct (key x <? key y) eqn:L; [| reflexivity].
  apply Z.ltb_lt in L.
  cbn [filter]; rewrite IH; cbn [filter].
  destruct (key x =? k) eqn:Ex, (key y =? k) eqn:Ey; trivial.
  apply Z.eqb_eq in Ex, Ey; lia.
Qed.

Lemma sorted_reverse_stable (k : Z) (l : list A) :
  filter (fun a => key a =? k) (sorted_reverse lt l)
  = filter (fun a => key a =? k) l.
Proof.
  induction l as [| x l IH]; [reflexivity |].
  simpl sorted_reverse; rewrite insert_desc_stable; simpl.
  now rewrite IH.
Qed.

End Stability.

(** Extra X3.  [descending] returns the cards of the hand, each once,
    from the highest face value to the lowest, and among cards of one face
    it keeps the order in which the hand holds them. *)
Theorem Hand_descending_sorted_stable (h : Hand) :
  Permutation (Hand_descending h) (cards h)
  /\ descends (fun c => Face_value (face c)) (Hand_descending h)
  /\ forall f,
       filter (fun c => Face_eq (face c) f) (Hand_descending h)
       = filter (fun c => Face_eq (face c) f) (cards h).
Proof.
  split; [apply Hand_descending_perm | split].
  - apply (sorted_reverse_descends (fun c => Face_value (face c))).
  - intros f.
    apply (sorted_reverse_stable (fun c => Face_value (face c))
             (Face_value f)).
Qed.

(** ** [Hand.straight] on hands of any size *)

Lemma straight_of_descending (h : Hand) :
  Hand_straight h
  = match Hand_descending h with
    | a :: b :: c :: d :: e :: _ =>
        Ret (if consecutive (face_values [a; b; c; d; e])
             then Some (face a) else None)
    | short =>
        if consecutive (face_values short) then Raise IndexError
        else Ret None
    end.
Proof.
  unfold Hand_straight, face_values.
  destruct (Hand_descending h) as [| a [| b [| c [| d [| e rest]]]]];
    try reflexivity; simpl; unfold run_step, and_then; simpl;
    repeat match goal with
           | |- context [?x - 1 =? ?y] => destruct (x - 1 =? y); simpl
           end; reflexivity.
Qed.

(** Extra X4.  On a hand of fewer than five cards [straight] never returns
    a face: it raises [IndexError] when each card present is one below the
    card before it (the empty hand and a single card included) and returns
    [None] otherwise.  On five cards or more it raises nothing and looks at
    the five highest cards only. *)
Theorem Hand_straight_by_size (h : Hand) :
  ((length (cards h) < 5)%nat ->
   Hand_straight h
   = if consecutive (face_values (Hand_descending h))
     then Raise IndexError else Ret None)
  /\ ((5 <= length (cards h))%nat ->
      Hand_straight h
      = Ret (if consecutive (firstn 5 (face_values (Hand_descending h)))
             then option_map face (hd_error (Hand_descending h))
             else None)).
Proof.
  rewrite <- Hand_descending_length, straight_of_descending.
  destruct (Hand_descending h) as [| a [| b [| c [| d [| e rest]]]]];
    simpl length; split; intros L; try lia; reflexivity.
Qed.

(** ** A descending list is determined by its elements *)

Lemma descends_perm_eq (l l' : list Z) :
  descends (fun z => z) l -> descends (fun z => z) l' ->
  Permutation l l' -> l = l'.
Proof.
  unfold descends; revert l'; induction l as [| a l IH]; intros l' S S' P.
  - now apply Permutation_nil in P.
  - destruct l' as [| b l'];
      [apply Permutation_sym, Permutation_nil in P; discriminate P |].
    apply StronglySorted_inv in S as [S F], S' as [S' F'].
    rewrite Forall_forall in F, F'.
    assert (a = b).
    { assert (Ia : In a (b :: l'))
        by (apply (Permutation_in _ P); now left).
      assert (Ib : In b (a :: l))
        by (apply (Permutation_in _ (Permutation_sym P)); now left).
      destruct Ia as [-> | Ia]; [reflexivity |].
      destruct Ib as [-> | Ib]; [reflexivity |].
      specialize (F _ Ib); specialize (F' _ Ia); lia. }
    subst b; f_equal.
    apply IH; trivial; now apply Permutation_cons_inv in P.
Qed.

Lemma descends_map {A : Type} (key : A -> Z) (l : list A) :
  descends key l -> descends (fun z => z) (map key l).
Proof.
  unfold descends; induction 1 as [| a l S IH F]; simpl; constructor; trivial.
  rewrite Forall_forall in *; intros z Hz.
  apply in_map_iff in Hz as (x & <- & Hx); now apply F.
Qed.

Lemma sorted_keys_perm {A : Type} (key : A -> Z) (l l' : list A) :
  Permutation l l' ->
  map key (sorted_reverse (fun a b => key a <? key b) l)
  = map key (sorted_reverse (fun a b => key a <? key b) l').
Proof.
  intros P; apply descends_perm_eq.
  - apply descends_map, sorted_reverse_descends.
  - apply descends_map, sorted_reverse_descends.
  - apply Permutation_map.
    rewrite (sorted_reverse_perm key l), (sorted_reverse_perm key l').
    exact P.
Qed.

Lemma run_descends (v : Z) :
  descends (fun z => z) [v; v - 1; v - 2; v - 3; v - 4].
Proof. unfold descends; repeat constructor; lia. Qed.

(** Extra X5.  On a hand of five cards [straight] returns the face [t]
    exactly when the face values of the hand are, in some order, the value
    of [t] and the four values below it; there is no run that wraps from
    the ace to the two. *)
Theorem Hand_straight_iff_run (h : Hand) (t : Face) :
  length (cards h) = 5%nat ->
  (Hand_straight h = Ret (Some t)
   <-> Permutation (face_values (cards h))
         [Face_value t; Face_value t - 1; Face_value t - 2;
          Face_value t - 3; Face_value t - 4]).
Proof.
  intros L; split.
  - intros S.
    destruct (Hand_straight_run h t L S)
      as (a & b & c & d & e & D & -> & Hb & Hc & Hd & He).
    unfold face_values.
    rewrite <- (Permutation_map _ (Hand_descending_perm h)), D; simpl.
    now rewrite Hb, Hc, Hd, He.
  - intros P.
    assert (V : face_values (Hand_descending h)
                = [Face_value t; Face_value t - 1; Face_value t - 2;
                   Face_value t - 3; Face_value t - 4]).
    { apply descends_perm_eq; [| apply run_descends |].
      - apply descends_map.
        apply (sorted_reverse_descends (fun c => Face_value (face c))).
      - unfold face_values.
        now rewrite (Permutation_map _ (Hand_descending_perm h)). }
    rewrite (Hand_straight_five h L), V.
    destruct (Hand_descending h) as [| a l]; [discriminate V |].
    injection V as Va _; simpl.
    rewrite !Z.eqb_refl; simpl.
    replace (Face_value t - 1 - 1) with (Face_value t - 2) by lia.
    replace (Face_value t - 2 - 1) with (Face_value t - 3) by lia.
    replace (Face_value t - 3 - 1) with (Face_value t - 4) by lia.
    rewrite !Z.eqb_refl; simpl.
    now apply Face_value_inj in Va; subst.
Qed.

(** ** The keys of the count dictionaries are distinct *)

Section Keys.
Context {K : Type} (eqb : K -> K -> bool).
Hypothesis eqb_true : forall a b, eqb a b = true <-> a = b.
Variable fun_ : Card -> K.

Lemma grouped_append_key_in (k : K) (c : Card) (g : list (K * list Card))
  (k' : K) :
  In k' (map fst (grouped_append eqb k c g)) -> k' = k \/ In k' (map fst g).
Proof.
  induction g as [| [k0 cs] g IH]; simpl.
  - intros [<- | []]; now left.
  - destruct (eqb k0 k); simpl; intros [<- | I]; auto.
    destruct (IH I); auto.
Qed.

Lemma grouped_append_NoDup (k : K) (c : Card) (g : list (K * list Card)) :
  NoDup (map fst g) -> NoDup (map fst (grouped_append eqb k c g)).
Proof.
  induction g as [| [k0 cs] g IH]; simpl; intros N.
  - repeat constructor; intros [].
  - inversion_clear N as [| ? ? N0 N1].
    destruct (eqb k0 k) eqn:E; simpl; constructor; auto.
    intros I; apply grouped_append_key_in in I as [-> | I]; [| contradiction].
    rewrite (proj2 (eqb_true k k) eq_refl) in E; discriminate E.
Qed.

Lemma Hand_grouped_NoDup (h : Hand) :
  NoDup (map fst (Hand_grouped eqb fun_ h)).
Proof.
  unfold Hand_grouped.
  assert (G : forall cs g, NoDup (map fst g) ->
              NoDup (map fst
                       (fold_left
                          (fun grouped card =>
                             grouped_append eqb (fun_ card) card grouped)
                          cs g))).
  { induction cs as [| c cs IH]; intros g N; simpl; [exact N |].
    now apply IH, grouped_append_NoDup. }
  apply G; constructor.
Qed.

Lemma keys_with_count_NoDup (h : Hand) (n : nat) :
  NoDup (keys_with_count eqb (counts_of (Hand_grouped eqb fun_ h)) n).
Proof.
  unfold keys_with_count; apply NoDup_filter.
  unfold counts_of; rewrite map_map; simpl.
  apply Hand_grouped_NoDup.
Qed.

End Keys.

Lemma facesOccuringTimes_NoDup (h : Hand) (n : nat) :
  NoDup (Hand_facesOccuringTimes h n).
Proof.
  unfold Hand_facesOccuringTimes, faceCounts.
  eapply Permutation_NoDup;
    [symmetry; apply (sorted_reverse_perm Face_value) |].
  apply (keys_with_count_NoDup Face_eq Face_eq_true).
Qed.

Lemma facesOccuringTimes_descends (h : Hand) (n : nat) :
  descends Face_value (Hand_facesOccuringTimes h n).
Proof. apply (sorted_reverse_descends Face_value). Qed.

Lemma suitsOccuringTimes_NoDup (h : Hand) (n : nat) :
  NoDup (Hand_suitsOccuringTimes h n).
Proof. apply (keys_with_count_NoDup Suit_eqb Suit_eqb_true). Qed.

Lemma map_Face_value_inj (l l' : list Face) :
  map Face_value l = map Face_value l' -> l = l'.
Proof.
  revert l'; induction l as [| a l IH]; intros [| b l'] E;
    try discriminate E; trivial.
  injection E as Ea El; apply Face_value_inj in Ea; subst.
  f_equal; now apply IH.
Qed.

(** ** [Hand.isFlush] *)

Lemma suit_count_all (s : Suit) (cs : list Card) :
  suit_count s cs = length cs <-> Forall (fun c => suit c = s) cs.
Proof.
  unfold suit_count; split.
  - intros E; apply filter_all in E.
    eapply Forall_impl; [| exact E]; intros c; apply Suit_eqb_true.
  - induction 1 as [| c cs E _ IH]; simpl; [reflexivity |].
    rewrite (proj2 (Suit_eqb_true _ _) E); simpl; now rewrite IH.
Qed.

(** Extra X6.  On a hand of five cards [isFlush] returns the one-element
    list of the suit all five cards share, and the empty list when they do
    not all share a suit. *)
Theorem Hand_isFlush_spec (h : Hand) :
  length (cards h) = 5%nat ->
  (forall s, Hand_isFlush h = [s]
             <-> Forall (fun c => suit c = s) (cards h))
  /\ (Hand_isFlush h = []
      <-> forall s, ~ Forall (fun c => suit c = s) (cards h)).
Proof.
  intros L.
  assert (M : forall s, In s (Hand_isFlush h)
                        <-> Forall (fun c => suit c = s) (cards h)).
  { intros s; unfold Hand_isFlush.
    rewrite suitsOccuringTimes_In, <- suit_count_all, L.
    split; [now intros [] | intros E; split; [exact E | discriminate]]. }
  assert (U : forall s s', In s (Hand_isFlush h) ->
                           In s' (Hand_isFlush h) -> s = s').
  { intros s s' I I'; apply M in I, I'.
    destruct (cards h) as [| c cs]; [discriminate L |].
    inversion I; inversion I'; congruence. }
  pose proof (suitsOccuringTimes_NoDup h 5) as N.
  fold (Hand_isFlush h) in N.
  split.
  - intros s; rewrite <- M; split; [intros ->; now left |].
    destruct (Hand_isFlush h) as [| a [| b l]]; intros I.
    + destruct I.
    + destruct I as [-> | []]; reflexivity.
    + exfalso; inversion_clear N as [| ? ? Na _]; apply Na.
      left; apply U; simpl; auto.
  - split.
    + intros E s F; apply M in F; rewrite E in F; destruct F.
    + intros A; destruct (Hand_isFlush h) as [| a l]; [reflexivity |].
      exfalso; apply (A a), M; now left.
Qed.

(** ** [Hand.triplet], [Hand.quartet], [Hand.pairs], [Hand.fullHouse] *)

Lemma Face_neq_dec (f g : Face) : f = g \/ f <> g.
Proof.
  destruct (Face_eq f g) eqn:E; [left; now apply Face_eq_true |].
  right; intros ->; now rewrite Face_eq_refl in E.
Qed.

Lemma face_count_without (p t : Face) (cs : list Card) :
  face_count p (filter (without t) cs)
  = if Face_eq p t then 0%nat else face_count p cs.
Proof.
  unfold face_count, without; induction cs as [| c cs IH].
  - now destruct (Face_eq p t).
  - cbn [filter].
    destruct (Face_eq (face c) t) eqn:Et, (Face_eq (face c) p) eqn:Ec;
      cbn [negb filter length]; rewrite ?Ec; cbn [length]; rewrite IH;
      destruct (Face_eq p t) eqn:Ep; trivial; exfalso;
      repeat match goal with
             | H : Face_eq _ _ = true |- _ => apply Face_eq_true in H; subst
             end;
      rewrite ?Face_eq_refl in *; congruence.
Qed.

Section Detectors.
Variable hash : Face * Suit -> Z.
Variable h : Hand.
Hypothesis valid : valid_hand hash h.

Lemma heavy_face_unique (n : nat) (f g : Face) :
  (3 <= n)%nat ->
  face_count f (cards h) = n -> face_count g (cards h) = n -> f = g.
Proof.
  intros N Cf Cg; destruct valid as [_ L].
  destruct (Face_neq_dec f g) as [E | D]; [exact E |].
  pose proof (face_count_two f g (cards h) D); lia.
Qed.

(** The shape shared by [pair], [triplet] and [quartet], for a count that
    at most one face of five cards can reach. *)
Lemma taken_spec (n : nat) :
  (3 <= n)%nat ->
  let taken :=
    match Hand_facesOccuringTimes h n with
    | f :: _ => (Some f, mkHand (colour h) (card_set hash (without f) (cards h)))
    | [] => (None, h)
    end in
  (forall f, face_count f (cards h) = n ->
             exists r, taken = (Some f, r)
                       /\ colour r = colour h
                       /\ (forall c, In c (cards r)
                                     <-> In c (cards h) /\ face c <> f)
                       /\ (length (cards r) + n = 5)%nat)
  /\ ((forall f, face_count f (cards h) <> n) -> taken = (None, h)).
Proof.
  intros N taken; subst taken; pose proof valid as [S L]; split.
  - intros f C.
    destruct (Hand_facesOccuringTimes h n) as [| g rest] eqn:E.
    + apply (facesOccuringTimes_nil h n) with (f := f) in E; [easy | lia].
    + apply facesOccuringTimes_head in E as (Cg & _).
      assert (g = f) by (now apply heavy_face_unique with (n := n)); subst g.
      eexists; split; [reflexivity |]; simpl.
      rewrite (card_set_filter hash _ _ S).
      split; [reflexivity |]. split.
      * intros c; rewrite filter_In, without_true; tauto.
      * pose proof (without_length f (cards h)); lia.
  - intros A.
    destruct (Hand_facesOccuringTimes h n) as [| g rest] eqn:E; trivial.
    apply facesOccuringTimes_head in E as (Cg & _); now apply A in Cg.
Qed.

End Detectors.

(** Extra X7.  On a valid hand [triplet] returns the face that occurs
    exactly three times, of which there is at most one, with a residual
    hand of the same owner holding exactly the two cards of other faces;
    [quartet] does the same for four occurrences and one remaining card;
    both return [None] with the hand itself when no face has that count. *)
Theorem Hand_triplet_quartet_spec (hash : Face * Suit -> Z) (h : Hand) :
  valid_hand hash h ->
  (forall f, face_count f (cards h) = 3%nat ->
             exists r, Hand_triplet hash h = (Some f, r)
                       /\ colour r = colour h
                       /\ (forall c, In c (cards r)
                                     <-> In c (cards h) /\ face c <> f)
                       /\ length (cards r) = 2%nat)
  /\ ((forall f, face_count f (cards h) <> 3%nat) ->
      Hand_triplet hash h = (None, h))
  /\ (forall f, face_count f (cards h) = 4%nat ->
                exists r, Hand_quartet hash h = (Some f, r)
                          /\ colour r = colour h
                          /\ (forall c, In c (cards r)
                                        <-> In c (cards h) /\ face c <> f)
                          /\ length (cards r) = 1%nat)
  /\ ((forall f, face_count f (cards h) <> 4%nat) ->
      Hand_quartet hash h = (None, h)).
Proof.
  intros V.
  destruct (taken_spec hash h V 3) as [T3 N3]; [lia |].
  destruct (taken_spec hash h V 4) as [T4 N4]; [lia |].
  split; [| split; [exact N3 | split; [| exact N4]]].
  - intros f C; destruct (T3 f C) as (r & E & Hc & Hi & Hl).
    exists r; split; [exact E |]. split; [exact Hc |].
    split; [exact Hi | lia].
  - intros f C; destruct (T4 f C) as (r & E & Hc & Hi & Hl).
    exists r; split; [exact E |]. split; [exact Hc |].
    split; [exact Hi | lia].
Qed.

Lemma face_count_three (f g k : Face) (cs : list Card) :
  f <> g -> f <> k -> g <> k ->
  (face_count f cs + face_count g cs + face_count k cs <= length cs)%nat.
Proof.
  intros N1 N2 N3; unfold face_count; induction cs as [| c cs IH]; simpl;
    [lia |].
  destruct (Face_eq (face c) f) eqn:Ef, (Face_eq (face c) g) eqn:Eg,
    (Face_eq (face c) k) eqn:Ek; simpl; try lia;
    repeat match goal with
           | H : Face_eq _ _ = true |- _ => apply Face_eq_true in H
           end; congruence.
Qed.

Lemma without_two_length (f g : Face) (cs : list Card) :
  f <> g ->
  (length (filter (fun card => negb (Face_eq (face card) f
                                     || Face_eq (face card) g)) cs)
   + face_count f cs + face_count g cs = length cs)%nat.
Proof.
  intros N; unfold face_count; induction cs as [| c cs IH]; simpl; [lia |].
  destruct (Face_eq (face c) f) eqn:Ef, (Face_eq (face c) g) eqn:Eg;
    simpl; try lia.
  apply Face_eq_true in Ef, Eg; congruence.
Qed.

(** Extra X8.  On a valid hand in which two faces occur exactly twice,
    [pairs] returns the higher one, then the lower one, with a residual hand
    of the same owner holding the one remaining card; when fewer than two
    faces occur exactly twice it returns [None], [None] and the hand
    itself. *)
Theorem Hand_pairs_spec (hash : Face * Suit -> Z) (h : Hand) :
  valid_hand hash h ->
  (forall f g,
      face_count f (cards h) = 2%nat -> face_count g (cards h) = 2%nat ->
      Face_value g < Face_value f ->
      exists r,
        Hand_pairs hash h = (Some f, Some g, r)
        /\ colour r = colour h
        /\ (forall c, In c (cards r)
                      <-> In c (cards h) /\ face c <> f /\ face c <> g)
        /\ length (cards r) = 1%nat)
  /\ ((forall f g, face_count f (cards h) = 2%nat ->
                   face_count g (cards h) = 2%nat -> f = g) ->
      Hand_pairs hash h = (None, None, h)).
Proof.
  intros [S L].
  pose proof (facesOccuringTimes_NoDup h 2) as N.
  pose proof (facesOccuringTimes_descends h 2) as D.
  assert (M : forall x, In x (Hand_facesOccuringTimes h 2)
                        <-> face_count x (cards h) = 2%nat).
  { intros x; rewrite facesOccuringTimes_In; split; [tauto | now split]. }
  unfold Hand_pairs; split.
  - intros f g Cf Cg Lt.
    assert (Nfg : f <> g) by (intros ->; lia).
    assert (E : Hand_facesOccuringTimes h 2 = [f; g]).
    { apply map_Face_value_inj, descends_perm_eq.
      - now apply descends_map.
      - unfold descends; repeat constructor; simpl; lia.
      - apply Permutation_map, NoDup_Permutation; trivial.
        + constructor; [simpl; intros [X | []]; congruence |].
          constructor; [intros [] | constructor].
        + intros x; rewrite M; simpl; split.
          * intros Cx.
            destruct (Face_neq_dec f x) as [-> | Nf]; [tauto |].
            destruct (Face_neq_dec g x) as [-> | Ng]; [tauto |].
            pose proof (face_count_three f g x (cards h) Nfg Nf Ng); lia.
          * intros [<- | [<- | []]]; assumption. }
    rewrite E; eexists; split; [reflexivity |]; simpl.
    rewrite (card_set_filter hash _ _ S).
    split; [reflexivity |]. split.
    + intros c; rewrite filter_In, negb_true_iff, orb_false_iff.
      rewrite <- !without_true; unfold without.
      rewrite !negb_true_iff; tauto.
    + pose proof (without_two_length f g (cards h) Nfg); lia.
  - intros A.
    destruct (Hand_facesOccuringTimes h 2) as [| a [| b l]]; trivial.
    exfalso; inversion_clear N as [| ? ? Na _]; apply Na.
    left; symmetry; apply A; apply M; simpl; auto.
Qed.

Lemma residual_pair_count (hash : Face * Suit -> Z) (h : Hand) (t p : Face) :
  is_set (Card_same hash) (cards h) = true ->
  face_count p
    (cards (mkHand (colour h) (card_set hash (without t) (cards h))))
  = if Face_eq p t then 0%nat else face_count p (cards h).
Proof.
  intros S; simpl; rewrite (card_set_filter hash _ _ S).
  apply face_count_without.
Qed.

(** Extra X9.  On a valid hand [fullHouse] returns the face [t] exactly
    when [t] occurs three times and the two other cards share a face, and
    [None] otherwise. *)
Theorem Hand_fullHouse_spec (hash : Face * Suit -> Z) (h : Hand) (t : Face) :
  valid_hand hash h ->
  (Hand_fullHouse hash h = Some t
   <-> face_count t (cards h) = 3%nat
       /\ exists p, face_count p (cards h) = 2%nat).
Proof.
  intros V; pose proof V as [S L]; unfold Hand_fullHouse, Hand_triplet.
  destruct (Hand_facesOccuringTimes h 3) as [| g rest] eqn:E3; simpl.
  - split; [discriminate |]; intros [C _].
    now apply (facesOccuringTimes_nil h 3) with (f := t) in E3.
  - apply facesOccuringTimes_head in E3 as (Cg & _).
    set (r := mkHand (colour h) (card_set hash (without g) (cards h))).
    unfold Hand_pair.
    destruct (Hand_facesOccuringTimes r 2) as [| p rest'] eqn:E2; simpl.
    + split; [discriminate |]; intros [Ct (p & Cp)]; exfalso.
      assert (g = t) by (now apply (heavy_face_unique hash h V 3)); subst g.
      apply (facesOccuringTimes_nil r 2) with (f := p) in E2; [| lia].
      apply E2; unfold r; rewrite (residual_pair_count hash h t p S).
      destruct (Face_eq p t) eqn:Ept; [| exact Cp].
      apply Face_eq_true in Ept; subst; lia.
    + apply facesOccuringTimes_head in E2 as (Cp & _).
      unfold r in Cp; rewrite (residual_pair_count hash h g p S) in Cp.
      destruct (Face_eq p g); [discriminate Cp |].
      split.
      * intros X; injection X as <-; eauto.
      * intros [Ct _]; f_equal.
        now apply (heavy_face_unique hash h V 3).
Qed.

(** ** [highCard] compares the descending faces lexicographically *)

Lemma compareFaces_not_draw (f g : Face) (h1 h2 : Hand) (w : string) :
  f <> g -> compareFaces f g h1 h2 w <> Result_draw.
Proof.
  intros N E.
  assert (D : isDraw (compareFaces f g h1 h2 w) = true) by now rewrite E.
  rewrite compareFaces_isDraw in D; apply Z.eqb_eq, Face_value_inj in D.
  contradiction.
Qed.

Lemma deepComparison_draw_faces (h1 h2 : Hand) (w : string)
  (l1 l2 : list Card) :
  length l1 = length l2 ->
  deepComparison h1 h2 (combine l1 l2) w = Result_draw ->
  map face l1 = map face l2.
Proof.
  revert l2; induction l1 as [| a l1 IH]; intros [| b l2] L E;
    try discriminate L; trivial.
  simpl in *.
  destruct (Face_neq_dec (face a) (face b)) as [Eab | Nab].
  - rewrite Eab, compareFaces_same, isDraw_draw in E by reflexivity.
    rewrite Eab; f_equal; apply IH; [lia | exact E].
  - exfalso.
    destruct (isDraw (compareFaces (face a) (face b) h1 h2 w)) eqn:D.
    + rewrite compareFaces_isDraw in D.
      now apply Z.eqb_eq, Face_value_inj in D.
    + now apply compareFaces_not_draw in E.
Qed.

Lemma deepComparison_first_difference (h1 h2 : Hand) (w : string)
  (p1 p2 r1 r2 : list Card) (a b : Card) :
  map face p1 = map face p2 ->
  face a <> face b ->
  deepComparison h1 h2 (combine (p1 ++ a :: r1) (p2 ++ b :: r2)) w
  = compareFaces (face a) (face b) h1 h2 w.
Proof.
  intros E N; revert p2 E; induction p1 as [| x p1 IH]; intros [| y p2] E;
    try discriminate E; simpl.
  - destruct (isDraw (compareFaces (face a) (face b) h1 h2 w)) eqn:D;
      [| reflexivity].
    rewrite compareFaces_isDraw in D.
    now apply Z.eqb_eq, Face_value_inj in D.
  - injection E as Exy E.
    rewrite Exy, compareFaces_same, isDraw_draw by reflexivity.
    now apply IH.
Qed.

(** Extra X10.  [highCard] orders two hands by their descending faces,
    position by position.  With as many cards on both sides it is the draw
    exactly when the two face sequences are equal; when the sequences first
    differ at some position, the hand with the higher face there wins and
    the reason names the two faces of that position, the higher first. *)
Theorem highCard_lexicographic (h1 h2 : Hand) (w : string) :
  (length (cards h1) = length (cards h2) ->
   (highCard h1 h2 w = Result_draw
    <-> map face (Hand_descending h1) = map face (Hand_descending h2)))
  /\ (forall p1 a r1 p2 b r2,
         Hand_descending h1 = p1 ++ a :: r1 ->
         Hand_descending h2 = p2 ++ b :: r2 ->
         map face p1 = map face p2 ->
         (Face_value (face b) < Face_value (face a) ->
          highCard h1 h2 w
          = Result_win (colour h1) (over w (face a) (face b)))
         /\ (Face_value (face a) < Face_value (face b) ->
             highCard h1 h2 w
             = Result_win (colour h2) (over w (face b) (face a)))).
Proof.
  split.
  - intros L; split.
    + apply deepComparison_draw_faces.
      now rewrite !Hand_descending_length.
    + apply deepComparison_same_faces.
  - intros p1 a r1 p2 b r2 D1 D2 E; unfold highCard; rewrite D1, D2.
    split; intros Lt;
      (rewrite deepComparison_first_difference;
       [| exact E | intros X; rewrite X in Lt; lia]).
    + now apply compareFaces_gt.
    + now apply compareFaces_lt.
Qed.

(** ** How [rank] can end on hands of any size *)

Lemma verdict_of_colours (a b h1 h2 : Hand) (w : string) (r : Result) :
  colour a = colour h1 -> colour b = colour h2 ->
  verdict_of a b w r -> verdict_of h1 h2 w r.
Proof. unfold verdict_of; intros <- <-; trivial. Qed.

Lemma verdict_of_win1 (h1 h2 : Hand) (w : string) :
  verdict_of h1 h2 w (Result_win (colour h1) w).
Proof. right; exists (colour h1); auto. Qed.

Lemma verdict_of_win2 (h1 h2 : Hand) (w : string) :
  verdict_of h1 h2 w (Result_win (colour h2) w).
Proof. right; exists (colour h2); auto. Qed.

Lemma verdict_of_compareFaces (f g : Face) (h1 h2 : Hand) (w : string) :
  verdict_of h1 h2 w (compareFaces f g h1 h2 w).
Proof.
  destruct (Z.lt_trichotomy (Face_value f) (Face_value g)) as [L | [E | L]].
  - rewrite compareFaces_lt by assumption.
    right; exists (colour h2); split; [auto | right; eauto].
  - rewrite compareFaces_same by assumption; now left.
  - rewrite compareFaces_gt by assumption.
    right; exists (colour h1); split; [auto | right; eauto].
Qed.

Lemma verdict_of_deepComparison (h1 h2 : Hand) (w : string)
  (l : list (Card * Card)) : verdict_of h1 h2 w (deepComparison h1 h2 l w).
Proof.
  induction l as [| [a b] l IH]; simpl; [now left |].
  destruct (isDraw _); [exact IH | apply verdict_of_compareFaces].
Qed.

Lemma verdict_of_highCard (a b h1 h2 : Hand) (w : string) :
  colour a = colour h1 -> colour b = colour h2 ->
  verdict_of h1 h2 w (highCard a b w).
Proof.
  intros Ca Cb; apply (verdict_of_colours a b); trivial.
  apply verdict_of_deepComparison.
Qed.

Lemma Hand_straight_raise_short (h : Hand) (e : exn) :
  Hand_straight h = Raise e ->
  e = IndexError /\ (length (cards h) < 5)%nat.
Proof.
  intros R; split; [now apply Hand_straight_raise in R |].
  rewrite <- Hand_descending_length.
  rewrite straight_of_descending in R.
  destruct (Hand_descending h) as [| a [| b [| c [| d [| x rest]]]]];
    simpl; try lia; discriminate R.
Qed.

Section Outcomes.
Variable hash : Face * Suit -> Z.
Variables h1 h2 : Hand.

Lemma Hand_pair_colour (h : Hand) : colour (snd (Hand_pair hash h)) = colour h.
Proof. unfold Hand_pair; now destruct (Hand_facesOccuringTimes h 2). Qed.

Lemma Hand_pairs_colour (h : Hand) :
  colour (snd (Hand_pairs hash h)) = colour h.
Proof.
  unfold Hand_pairs.
  now destruct (Hand_facesOccuringTimes h 2) as [| a [| b l]].
Qed.

Lemma fatal_tie_outcome (c : Category) (o1 o2 : option Face) :
  o1 = matched hash c h1 -> o2 = matched hash c h2 ->
  ranker_outcome hash c h1 h2
    (fatal_tie o1 o2 h1 h2 (Category_name c) (tie_message c)).
Proof.
  intros E1 E2; rewrite fatal_tie_gate; unfold ranker_outcome.
  destruct o1 as [f1 |], o2 as [f2 |];
    eauto 10 using verdict_of_win1, verdict_of_win2.
  destruct (Face_value f1 =? Face_value f2) eqn:E;
    [| eauto 10 using verdict_of_compareFaces].
  apply Z.eqb_eq, Face_value_inj in E; subst f2.
  right; right; left; split; [reflexivity | eauto].
Qed.

Lemma ranker_of_outcome (c : Category) :
  ranker_outcome hash c h1 h2 (ranker_of hash c h1 h2).
Proof.
  destruct c; simpl.
  - unfold straightFlush, straight_and_flush.
    destruct (Hand_straight h1) as [o1 | e1] eqn:S1; simpl.
    2: { apply Hand_straight_raise_short in S1 as [-> L].
         right; right; right; auto. }
    destruct (Hand_straight h2) as [o2 | e2] eqn:S2; simpl.
    2: { apply Hand_straight_raise_short in S2 as [-> L].
         right; right; right; auto. }
    rewrite gate_cases; unfold ranker_outcome.
    destruct (truthy o1), (truthy o2),
      (nonempty (Hand_isFlush h1)), (nonempty (Hand_isFlush h2));
      simpl; eauto 10 using verdict_of_win1, verdict_of_win2, verdict_of_highCard.
  - unfold fourOfAKind.
    destruct (Hand_quartet hash h1) as [o1 r1] eqn:Q1,
             (Hand_quartet hash h2) as [o2 r2] eqn:Q2.
    apply (fatal_tie_outcome FourOfAKind); simpl; [now rewrite Q1 | now rewrite Q2].
  - now apply (fatal_tie_outcome FullHouse).
  - unfold flush; rewrite gate_cases; unfold ranker_outcome.
    destruct (nonempty _), (nonempty _); simpl;
      eauto 10 using verdict_of_win1, verdict_of_win2, verdict_of_highCard.
  - unfold straight.
    destruct (Hand_straight h1) as [o1 | e1] eqn:S1; simpl.
    2: { apply Hand_straight_raise_short in S1 as [-> L].
         right; right; right; auto. }
    destruct (Hand_straight h2) as [o2 | e2] eqn:S2; simpl.
    2: { apply Hand_straight_raise_short in S2 as [-> L].
         right; right; right; auto. }
    rewrite gate_cases; unfold ranker_outcome.
    destruct o1 as [t1 |], o2 as [t2 |]; simpl;
      eauto 10 using verdict_of_win1, verdict_of_win2, verdict_of_compareFaces.
  - unfold threeOfAKind.
    destruct (Hand_triplet hash h1) as [o1 r1] eqn:Q1,
             (Hand_triplet hash h2) as [o2 r2] eqn:Q2.
    apply (fatal_tie_outcome ThreeOfAKind); simpl; [now rewrite Q1 | now rewrite Q2].
  - unfold twoPairs.
    pose proof (Hand_pairs_colour h1) as C1.
    pose proof (Hand_pairs_colour h2) as C2.
    destruct (Hand_pairs hash h1) as [[a1 b1] r1],
             (Hand_pairs hash h2) as [[a2 b2] r2]; simpl in C1, C2.
    rewrite gate_cases; unfold ranker_outcome.
    destruct a1 as [x1 |], b1 as [y1 |], a2 as [x2 |], b2 as [y2 |]; simpl;
      eauto 10 using verdict_of_win1, verdict_of_win2.
    destruct (isDraw (compareFaces x1 x2 h1 h2 _));
      [| eauto 10 using verdict_of_compareFaces].
    destruct (isDraw (compareFaces y1 y2 h1 h2 _));
      eauto 10 using verdict_of_compareFaces, verdict_of_highCard.
  - unfold twoOfAKind.
    pose proof (Hand_pair_colour h1) as C1.
    pose proof (Hand_pair_colour h2) as C2.
    destruct (Hand_pair hash h1) as [o1 r1], (Hand_pair hash h2) as [o2 r2];
      simpl in C1, C2.
    rewrite gate_cases; unfold ranker_outcome.
    destruct o1 as [x1 |], o2 as [x2 |]; simpl;
      eauto 10 using verdict_of_win1, verdict_of_win2.
    destruct (isDraw (compareFaces x1 x2 h1 h2 _));
      eauto 10 using verdict_of_compareFaces, verdict_of_highCard.
  - right; left; eauto 10 using verdict_of_highCard.
Qed.

Lemma rank_loop_outcome (cs : list Category) :
  In HighCard cs ->
  exists c, In c cs
            /\ ranker_outcome hash c h1 h2
                 (rank_loop (map (ranker_of hash) cs) h1 h2)
            /\ rank_loop (map (ranker_of hash) cs) h1 h2 <> Ret None.
Proof.
  induction cs as [| c cs IH]; [contradiction |]; intros I.
  pose proof (ranker_of_outcome c) as O.
  cbn [map rank_loop].
  destruct (ranker_of hash c h1 h2) as [[r |] | e] eqn:E; cbn [bind].
  - exists c; repeat split; [now left | exact O | discriminate].
  - destruct I as [-> | I]; [discriminate E |].
    destruct (IH I) as (c' & I' & O' & N').
    exists c'; repeat split; [now right | exact O' | exact N'].
  - exists c; repeat split; [now left | exact O | discriminate].
Qed.

End Outcomes.

(** Extra X11.  On any two hands, of any size, the ranker of a category
    ends in one of four ways: [None]; a verdict that is the draw or names
    one of the two owners, with a reason made of the category name, bare or
    followed by the two deciding faces, the higher first; [InvalidCardDeck]
    when both hands match the same face in Four of a Kind, Full House or
    Three of a Kind; [IndexError] from [straight] when a hand has fewer
    than five cards.  [rank] ends in one of the last three ways for some
    category and never returns [None]; it raises no other exception. *)
Theorem rank_outcomes (hash : Face * Suit -> Z) (h1 h2 : Hand) :
  (forall c, ranker_outcome hash c h1 h2 (ranker_of hash c h1 h2))
  /\ (exists c, ranker_outcome hash c h1 h2 (rank hash h1 h2))
  /\ rank hash h1 h2 <> Ret None.
Proof.
  split; [apply ranker_of_outcome |].
  destruct (rank_loop_outcome hash h1 h2 all_categories
              (In_all_categories HighCard)) as (c & _ & O & N).
  split; [now exists c | exact N].
Qed.

(** ** Hands dealt from one deck *)

Lemma is_set_NoDup (hash : Face * Suit -> Z) (l : list Card) :
  is_set (Card_same hash) l = true -> NoDup l.
Proof.
  induction l as [| c l IH]; simpl; intros S; constructor;
    apply andb_prop in S as [N S]; [| now apply IH].
  intros I; apply negb_true_iff in N.
  assert (C : set_contains (Card_same hash) l c = true).
  { apply existsb_exists; exists c; split; [exact I |].
    apply Card_same_refl. }
  congruence.
Qed.

Lemma one_face_at_most_four (f : Face) (l : list Card) :
  NoDup l -> Forall (fun c => face c = f) l -> (length l <= 4)%nat.
Proof.
  intros N F.
  assert (S : NoDup (map suit l)).
  { induction N as [| x l Nx N IH]; simpl; constructor.
    - inversion_clear F as [| ? ? Fx Fl].
      intros I; apply in_map_iff in I as (y & Ey & Iy).
      rewrite Forall_forall in Fl; specialize (Fl y Iy).
      apply Nx; replace x with y; [exact Iy |].
      destruct x, y; simpl in *; congruence.
    - apply IH; now inversion F. }
  rewrite <- (length_map suit).
  apply (NoDup_incl_length S (l' := [CLUBS; DIAMONDS; HEARTS; SPADES])).
  intros s _; destruct s; simpl; tauto.
Qed.

Lemma one_deck_face_count (hash : Face * Suit -> Z) (h1 h2 : Hand)
  (f : Face) :
  is_set (Card_same hash) (cards h1) = true ->
  is_set (Card_same hash) (cards h2) = true ->
  (forall c, In c (cards h1) -> ~ In c (cards h2)) ->
  (face_count f (cards h1) + face_count f (cards h2) <= 4)%nat.
Proof.
  intros S1 S2 D; unfold face_count; rewrite <- length_app.
  apply (one_face_at_most_four f).
  - apply NoDup_app.
    + now apply NoDup_filter, (is_set_NoDup hash).
    + now apply NoDup_filter, (is_set_NoDup hash).
    + intros c I1 I2; apply filter_In in I1 as [I1 _], I2 as [I2 _].
      now apply (D c).
  - apply Forall_app; split; apply Forall_forall; intros c I;
      apply filter_In in I as [_ E]; now apply Face_eq_true.
Qed.

(** Extra X12.  Two valid hands without a card in common, as dealt from
    one deck, are always ranked: [rank] raises nothing and returns a
    verdict, the draw or a win of one of the two owners.  The fatal tie
    is therefore raised only on hands that share cards. *)
Theorem rank_one_deck (hash : Face * Suit -> Z) (h1 h2 : Hand) :
  valid_hand hash h1 -> valid_hand hash h2 ->
  (forall c, In c (cards h1) -> ~ In c (cards h2)) ->
  exists c r,
    rank hash h1 h2 = Ret (Some r)
    /\ verdict_of h1 h2 (Category_name c) r.
Proof.
  intros [S1 L1] [S2 L2] D.
  destruct (rank_loop_outcome hash h1 h2 all_categories
              (In_all_categories HighCard)) as (c & _ & O & N).
  change (rank_loop (map (ranker_of hash) all_categories) h1 h2)
    with (rank hash h1 h2) in O, N.
  destruct O as [E | [(r & E & V) | [(E & f & M1 & M2) | (E & _ & L)]]].
  - contradiction.
  - now exists c, r.
  - exfalso.
    apply matched_count in M1, M2.
    pose proof (one_deck_face_count hash h1 h2 f S1 S2 D).
    destruct c; lia.
  - lia.
Qed.

(** ** The order in which a hand holds its cards does not matter *)

Lemma filter_perm {A : Type} (p : A -> bool) (l l' : list A) :
  Permutation l l' -> Permutation (filter p l) (filter p l').
Proof.
  induction 1 as [| x l l' _ IH | x y l | l l' l'' _ IH1 _ IH2]; simpl.
  - constructor.
  - destruct (p x); [now constructor | exact IH].
  - destruct (p x), (p y); try reflexivity; apply perm_swap.
  - now transitivity (filter p l').
Qed.

Lemma suit_count_perm (s : Suit) (l l' : list Card) :
  Permutation l l' -> suit_count s l = suit_count s l'.
Proof. intros P; apply Permutation_length, filter_perm, P. Qed.

Lemma nonempty_same_elements {A : Type} (l l' : list A) :
  (forall x, In x l <-> In x l') -> nonempty l = nonempty l'.
Proof.
  intros E; destruct l as [| a l], l' as [| b l']; trivial.
  - destruct (proj2 (E b)); now left.
  - destruct (proj1 (E a)); now left.
Qed.

Lemma descending_faces_perm (h h' : Hand) :
  Permutation (cards h) (cards h') ->
  map face (Hand_descending h) = map face (Hand_descending h').
Proof.
  intros P; apply map_Face_value_inj; rewrite !map_map.
  apply (sorted_keys_perm (fun c => Face_value (face c))), P.
Qed.

Lemma Hand_straight_perm (h h' : Hand) :
  Permutation (cards h) (cards h') -> Hand_straight h = Hand_straight h'.
Proof.
  intros P; apply descending_faces_perm in P.
  rewrite !straight_of_descending.
  destruct (Hand_descending h) as [| a [| b [| c [| d [| e r]]]]],
    (Hand_descending h') as [| a' [| b' [| c' [| d' [| e' r']]]]];
    simpl in P; try discriminate P; trivial;
    injection P; intros; unfold face_values; cbn [map];
    repeat match goal with
           | H : face _ = face _ |- _ => rewrite H; clear H
           end; reflexivity.
Qed.

Lemma facesOccuringTimes_perm (h h' : Hand) (n : nat) :
  Permutation (cards h) (cards h') ->
  Hand_facesOccuringTimes h n = Hand_facesOccuringTimes h' n.
Proof.
  intros P; apply map_Face_value_inj, descends_perm_eq.
  - apply descends_map, facesOccuringTimes_descends.
  - apply descends_map, facesOccuringTimes_descends.
  - apply Permutation_map, NoDup_Permutation;
      try apply facesOccuringTimes_NoDup.
    intros f; rewrite !facesOccuringTimes_In.
    now rewrite (face_count_perm f _ _ P).
Qed.

Lemma isFlush_perm (h h' : Hand) :
  Permutation (cards h) (cards h') ->
  nonempty (Hand_isFlush h) = nonempty (Hand_isFlush h').
Proof.
  intros P; apply nonempty_same_elements; intros s.
  unfold Hand_isFlush; rewrite !suitsOccuringTimes_In.
  now rewrite (suit_count_perm s _ _ P).
Qed.

Lemma compareFaces_colours (f g : Face) (h1 h2 h1' h2' : Hand) (w : string) :
  colour h1 = colour h1' -> colour h2 = colour h2' ->
  compareFaces f g h1 h2 w = compareFaces f g h1' h2' w.
Proof. unfold compareFaces; now intros -> ->. Qed.

Lemma deepComparison_faces (h1 h2 h1' h2' : Hand) (w : string)
  (l1 l2 l1' l2' : list Card) :
  colour h1 = colour h1' -> colour h2 = colour h2' ->
  map face l1 = map face l1' -> map face l2 = map face l2' ->
  deepComparison h1 h2 (combine l1 l2) w
  = deepComparison h1' h2' (combine l1' l2') w.
Proof.
  intros C1 C2; revert l2 l1' l2'.
  induction l1 as [| a l1 IH]; intros l2 [| a' l1'] l2' E1 E2;
    try discriminate E1; trivial.
  destruct l2 as [| b l2], l2' as [| b' l2']; try discriminate E2; trivial.
  injection E1 as Ea E1; injection E2 as Eb E2; simpl.
  rewrite Ea, Eb, (compareFaces_colours _ _ h1 h2 h1' h2' w C1 C2).
  now rewrite (IH l2 l1' l2' E1 E2).
Qed.

Section CardOrder.
Variable hash : Face * Suit -> Z.

Lemma highCard_same_hand (a b a' b' : Hand) (w : string) :
  same_hand hash a a' -> same_hand hash b b' ->
  highCard a b w = highCard a' b' w.
Proof.
  intros (Ca & Pa & _) (Cb & Pb & _).
  apply deepComparison_faces; trivial; now apply descending_faces_perm.
Qed.

Lemma residual_same_hand (keep : Card -> bool) (h h' : Hand) :
  same_hand hash h h' ->
  same_hand hash (mkHand (colour h) (card_set hash keep (cards h)))
    (mkHand (colour h') (card_set hash keep (cards h'))).
Proof.
  intros (C & P & S & S'); unfold same_hand; simpl.
  rewrite !card_set_filter by assumption.
  repeat split; trivial.
  - now apply filter_perm.
  - now apply is_set_filter.
  - now apply is_set_filter.
Qed.

Lemma Hand_pair_same_hand (h h' : Hand) :
  same_hand hash h h' ->
  fst (Hand_pair hash h) = fst (Hand_pair hash h')
  /\ same_hand hash (snd (Hand_pair hash h)) (snd (Hand_pair hash h')).
Proof.
  intros E; pose proof E as (_ & P & _); unfold Hand_pair.
  rewrite <- (facesOccuringTimes_perm h h' 2 P).
  destruct (Hand_facesOccuringTimes h 2); simpl; split; trivial.
  now apply residual_same_hand.
Qed.

Lemma Hand_pairs_same_hand (h h' : Hand) :
  same_hand hash h h' ->
  fst (Hand_pairs hash h) = fst (Hand_pairs hash h')
  /\ same_hand hash (snd (Hand_pairs hash h)) (snd (Hand_pairs hash h')).
Proof.
  intros E; pose proof E as (_ & P & _); unfold Hand_pairs.
  rewrite <- (facesOccuringTimes_perm h h' 2 P).
  destruct (Hand_facesOccuringTimes h 2) as [| f0 [| f1 l]];
    simpl; split; trivial.
  now apply residual_same_hand.
Qed.

Lemma Hand_triplet_same_hand (h h' : Hand) :
  same_hand hash h h' ->
  fst (Hand_triplet hash h) = fst (Hand_triplet hash h')
  /\ same_hand hash (snd (Hand_triplet hash h)) (snd (Hand_triplet hash h')).
Proof.
  intros E; pose proof E as (_ & P & _); unfold Hand_triplet.
  rewrite <- (facesOccuringTimes_perm h h' 3 P).
  destruct (Hand_facesOccuringTimes h 3); simpl; split; trivial.
  now apply residual_same_hand.
Qed.

Lemma Hand_quartet_same_hand (h h' : Hand) :
  same_hand hash h h' ->
  fst (Hand_quartet hash h) = fst (Hand_quartet hash h').
Proof.
  intros (_ & P & _); unfold Hand_quartet.
  rewrite <- (facesOccuringTimes_perm h h' 4 P).
  now destruct (Hand_facesOccuringTimes h 4).
Qed.

Lemma Hand_fullHouse_same_hand (h h' : Hand) :
  same_hand hash h h' -> Hand_fullHouse hash h = Hand_fullHouse hash h'.
Proof.
  intros E; unfold Hand_fullHouse.
  destruct (Hand_triplet_same_hand h h' E) as [Et Er].
  destruct (Hand_triplet hash h) as [t r], (Hand_triplet hash h') as [t' r'].
  simpl in Et, Er; subst t'.
  destruct (Hand_pair_same_hand r r' Er) as [Ep _].
  destruct (Hand_pair hash r) as [p q], (Hand_pair hash r') as [p' q'].
  simpl in Ep; now subst p'.
Qed.

Lemma gate_colours (a1 a2 : bool) (h1 h2 h1' h2' : Hand) (w : string) :
  colour h1 = colour h1' -> colour h2 = colour h2' ->
  neitherOrOnlyOne a1 a2 h1 h2 w = neitherOrOnlyOne a1 a2 h1' h2' w.
Proof. unfold neitherOrOnlyOne; now intros -> ->. Qed.

Lemma compareFaces_obj_colours (o1 o2 : option Face)
  (h1 h2 h1' h2' : Hand) (w : string) :
  colour h1 = colour h1' -> colour h2 = colour h2' ->
  compareFaces_obj o1 o2 h1 h2 w = compareFaces_obj o1 o2 h1' h2' w.
Proof.
  intros C1 C2; destruct o1, o2; simpl; trivial.
  now rewrite (compareFaces_colours _ _ h1 h2 h1' h2' w C1 C2).
Qed.

Lemma fatal_tie_colours (o1 o2 : option Face) (h1 h2 h1' h2' : Hand)
  (w msg : string) :
  colour h1 = colour h1' -> colour h2 = colour h2' ->
  fatal_tie o1 o2 h1 h2 w msg = fatal_tie o1 o2 h1' h2' w msg.
Proof.
  intros C1 C2; unfold fatal_tie.
  now rewrite (gate_colours _ _ h1 h2 h1' h2' w C1 C2),
    (compareFaces_obj_colours o1 o2 h1 h2 h1' h2' w C1 C2).
Qed.

Lemma ranker_of_same_hand (c : Category) (h1 h2 h1' h2' : Hand) :
  same_hand hash h1 h1' -> same_hand hash h2 h2' ->
  ranker_of hash c h1 h2 = ranker_of hash c h1' h2'.
Proof.
  intros E1 E2.
  pose proof E1 as (C1 & P1 & _); pose proof E2 as (C2 & P2 & _).
  destruct c; simpl.
  - unfold straightFlush, straight_and_flush.
    rewrite (Hand_straight_perm h1 h1' P1), (Hand_straight_perm h2 h2' P2),
      (isFlush_perm h1 h1' P1), (isFlush_perm h2 h2' P2).
    destruct (Hand_straight h1'); simpl; trivial.
    destruct (Hand_straight h2'); simpl; trivial.
    rewrite (gate_colours _ _ h1 h2 h1' h2' _ C1 C2).
    now rewrite (highCard_same_hand h1 h2 h1' h2' _ E1 E2).
  - unfold fourOfAKind.
    pose proof (Hand_quartet_same_hand h1 h1' E1) as Q1.
    pose proof (Hand_quartet_same_hand h2 h2' E2) as Q2.
    destruct (Hand_quartet hash h1), (Hand_quartet hash h1'),
      (Hand_quartet hash h2), (Hand_quartet hash h2'); simpl in Q1, Q2.
    subst; now apply fatal_tie_colours.
  - unfold fullHouse.
    rewrite (Hand_fullHouse_same_hand h1 h1' E1),
      (Hand_fullHouse_same_hand h2 h2' E2).
    now apply fatal_tie_colours.
  - unfold flush.
    rewrite (isFlush_perm h1 h1' P1), (isFlush_perm h2 h2' P2),
      (gate_colours _ _ h1 h2 h1' h2' _ C1 C2).
    now rewrite (highCard_same_hand h1 h2 h1' h2' _ E1 E2).
  - unfold straight.
    rewrite (Hand_straight_perm h1 h1' P1), (Hand_straight_perm h2 h2' P2).
    destruct (Hand_straight h1') as [o1 |]; simpl; trivial.
    destruct (Hand_straight h2') as [o2 |]; simpl; trivial.
    now rewrite (gate_colours _ _ h1 h2 h1' h2' _ C1 C2),
      (compareFaces_obj_colours o1 o2 h1 h2 h1' h2' _ C1 C2).
  - unfold threeOfAKind.
    destruct (Hand_triplet_same_hand h1 h1' E1) as [Q1 _].
    destruct (Hand_triplet_same_hand h2 h2' E2) as [Q2 _].
    destruct (Hand_triplet hash h1), (Hand_triplet hash h1'),
      (Hand_triplet hash h2), (Hand_triplet hash h2'); simpl in Q1, Q2.
    subst; now apply fatal_tie_colours.
  - unfold twoPairs.
    destruct (Hand_pairs_same_hand h1 h1' E1) as [Q1 R1].
    destruct (Hand_pairs_same_hand h2 h2' E2) as [Q2 R2].
    destruct (Hand_pairs hash h1) as [[a1 b1] r1],
      (Hand_pairs hash h1') as [[a1' b1'] r1'],
      (Hand_pairs hash h2) as [[a2 b2] r2],
      (Hand_pairs hash h2') as [[a2' b2'] r2']; simpl in Q1, Q2, R1, R2.
    injection Q1 as -> ->; injection Q2 as -> ->.
    rewrite (gate_colours _ _ h1 h2 h1' h2' _ C1 C2),
      (compareFaces_obj_colours a1' a2' h1 h2 h1' h2' _ C1 C2),
      (compareFaces_obj_colours b1' b2' h1 h2 h1' h2' _ C1 C2).
    now rewrite (highCard_same_hand r1 r2 r1' r2' _ R1 R2).
  - unfold twoOfAKind.
    destruct (Hand_pair_same_hand h1 h1' E1) as [Q1 R1].
    destruct (Hand_pair_same_hand h2 h2' E2) as [Q2 R2].
    destruct (Hand_pair hash h1) as [a1 r1],
      (Hand_pair hash h1') as [a1' r1'],
      (Hand_pair hash h2) as [a2 r2],
      (Hand_pair hash h2') as [a2' r2']; simpl in Q1, Q2, R1, R2.
    subst.
    rewrite (gate_colours _ _ h1 h2 h1' h2' _ C1 C2),
      (compareFaces_obj_colours a1' a2' h1 h2 h1' h2' _ C1 C2).
    now rewrite (highCard_same_hand r1 r2 r1' r2' _ R1 R2).
  - now rewrite (highCard_same_hand h1 h2 h1' h2' _ E1 E2).
Qed.

(** Extra X13.  A hand is ranked as a set: when two hands of one owner
    hold the same card set in different iteration orders, [straight],
    [fullHouse] and the lists of faces with a given count return the same
    on both, and [rank] against any opponent, itself in any order, returns
    the identical result or raises the identical exception. *)
Theorem rank_card_order_irrelevant (h1 h1' h2 h2' : Hand) :
  same_hand hash h1 h1' -> same_hand hash h2 h2' ->
  Hand_straight h1 = Hand_straight h1'
  /\ (forall n, Hand_facesOccuringTimes h1 n = Hand_facesOccuringTimes h1' n)
  /\ nonempty (Hand_isFlush h1) = nonempty (Hand_isFlush h1')
  /\ Hand_fullHouse hash h1 = Hand_fullHouse hash h1'
  /\ rank hash h1 h2 = rank hash h1' h2'.
Proof.
  intros E1 E2; pose proof E1 as (_ & P1 & _).
  split; [now apply Hand_straight_perm |].
  split; [intros n; now apply facesOccuringTimes_perm |].
  split; [now apply isFlush_perm |].
  split; [now apply Hand_fullHouse_same_hand |].
  unfold rank; rewrite categories_ranker_of.
  induction all_categories as [| c cs IH]; simpl; trivial.
  now rewrite (ranker_of_same_hand c h1 h2 h1' h2' E1 E2), IH.
Qed.

End CardOrder.

(** ** Results read from text *)

Lemma opt_string_eqb_true (a b : option string) :
  opt_string_eqb a b = true <-> a = b.
Proof.
  destruct a as [x |], b as [y |]; simpl; split; intros E;
    try discriminate E; trivial.
  - apply String.eqb_eq in E; now subst.
  - injection E as ->; apply String.eqb_refl.
Qed.

Lemma Result_eq_true (a b : Result) : Result_eq a b = true <-> a = b.
Proof.
  destruct a as [o c w], b as [o' c' w']; unfold Result_eq; simpl.
  rewrite !andb_true_iff, !opt_string_eqb_true, String.eqb_eq.
  split; [intros [[-> ->] ->]; reflexivity | intros E; now injection E].
Qed.

Lemma one_line_first_line (s : string) :
  one_line s = true -> first_line s = s.
Proof.
  induction s as [| c s IH]; simpl; trivial.
  destruct (Ascii.eqb c "010"); simpl; [discriminate |].
  intros O; now rewrite IH.
Qed.

Lemma lazy_comma_groups_first (owner rest : string) :
  comma_space_free owner = true -> one_line owner = true ->
  lazy_comma_groups (owner ++ ", " ++ rest)%string
  = Some (owner, first_line rest).
Proof.
  induction owner as [| c owner IH]; [reflexivity |].
  cbn [comma_space_free one_line]; intros F O.
  apply andb_prop in F as [F0 F], O as [O0 O].
  specialize (IH F O).
  change ((String c owner ++ ", " ++ rest)%string)
    with (String c (owner ++ ", " ++ rest)%string).
  assert (N : (if Ascii.eqb c ","
               then strip_prefix " " (owner ++ ", " ++ rest)%string
               else None) = None).
  { destruct (Ascii.eqb c ",") eqn:E; [| reflexivity].
    destruct owner as [| d owner]; [reflexivity |].
    cbn [andb] in F0; apply negb_true_iff in F0.
    cbn [String.append strip_prefix].
    now rewrite Ascii.eqb_sym, F0. }
  remember (owner ++ ", " ++ rest)%string as t.
  cbn [lazy_comma_groups]; rewrite N, IH.
  apply negb_true_iff in O0; now rewrite O0.
Qed.

(** Extra X14.  [Result.fromRep] never fails.  The text of a win, made of
    the word Win, an owner, a comma with a space and a reason, reads back
    as that win when the owner holds no comma followed by a space and
    neither part holds a line end; the owner ends at the first comma
    followed by a space.  Any text that does not start with that word
    reads as the draw.  [Result.__eq__] holds exactly between results with
    the same three fields. *)
Theorem Result_fromRep_round_trip :
  (forall owner why,
      comma_space_free owner = true -> one_line owner = true ->
      one_line why = true ->
      Result_fromRep ("Win " ++ owner ++ ", " ++ why)%string
      = Result_win owner why)
  /\ (forall owner rest,
         comma_space_free owner = true -> one_line owner = true ->
         Result_fromRep ("Win " ++ owner ++ ", " ++ rest)%string
         = Result_win owner (first_line rest))
  /\ (forall rep, strip_prefix "Win " rep = None ->
                  Result_fromRep rep = Result_draw)
  /\ (forall a b, Result_eq a b = true <-> a = b).
Proof.
  assert (G : forall owner rest,
             comma_space_free owner = true -> one_line owner = true ->
             Result_fromRep ("Win " ++ owner ++ ", " ++ rest)%string
             = Result_win owner (first_line rest)).
  { intros owner rest F O; unfold Result_fromRep.
    pose proof (lazy_comma_groups_first owner rest F O) as E.
    remember (owner ++ ", " ++ rest)%string as t.
    replace (strip_prefix "Win " ("Win " ++ t)%string) with (Some t)
      by reflexivity.
    now rewrite E. }
  split; [| split; [exact G | split]].
  - intros owner why F O W; rewrite G by assumption.
    now rewrite one_line_first_line.
  - intros rep E; unfold Result_fromRep; now rewrite E.
  - apply Result_eq_true.
Qed.

(** ** Hands read from text, in general *)

Lemma one_line_app (a b : string) :
  one_line (a ++ b)%string = one_line a && one_line b.
Proof.
  induction a as [| c a IH]; simpl; [reflexivity |].
  now rewrite IH, andb_assoc.
Qed.

Lemma Card_repr_inj (a b : Card) : Card_repr a = Card_repr b -> a = b.
Proof.
  destruct a as [f s], b as [g t]; destruct f, s, g, t; simpl; intros E;
    try reflexivity; discriminate E.
Qed.

Lemma cards_text_one_line (cs : list Card) :
  one_line (join_space (map Card_repr cs)) = true.
Proof.
  induction cs as [| c cs IH]; [reflexivity |].
  cbn [map join_space]; destruct (map Card_repr cs) as [| w ws] eqn:E.
  - destruct c as [f s]; destruct f, s; reflexivity.
  - rewrite !one_line_app, IH.
    destruct c as [f s]; destruct f, s; reflexivity.
Qed.

Lemma colon_groups_cards (cs : list Card) :
  colon_groups (join_space (map Card_repr cs)) = None.
Proof.
  induction cs as [| c cs IH]; [reflexivity |].
  cbn [map join_space]; destruct (map Card_repr cs) as [| w ws] eqn:E.
  - destruct c as [f s]; destruct f, s; reflexivity.
  - remember (join_space (w :: ws)) as t.
    destruct c as [f s]; destruct f, s; simpl; rewrite IH;
      destruct t; reflexivity.
Qed.

Lemma colon_groups_last (owner t : string) :
  colon_groups t = None ->
  colon_groups (owner ++ ": " ++ t)%string = Some (owner, t).
Proof.
  intros N; induction owner as [| c owner IH].
  - simpl; rewrite N; destruct t; reflexivity.
  - change ((String c owner ++ ": " ++ t)%string)
      with (String c (owner ++ ": " ++ t)%string).
    remember (owner ++ ": " ++ t)%string as u.
    cbn [colon_groups]; now rewrite IH.
Qed.

Lemma split_space_cards (cs : list Card) :
  cs <> [] -> split_space (join_space (map Card_repr cs)) = map Card_repr cs.
Proof.
  induction cs as [| c cs IH]; [congruence |]; intros _.
  cbn [map join_space]; destruct cs as [| c' cs].
  - destruct c as [f s]; destruct f, s; reflexivity.
  - specialize (IH ltac:(discriminate)).
    remember (map Card_repr (c' :: cs)) as ws.
    destruct ws as [| w ws']; [discriminate Heqws |].
    remember (join_space (w :: ws')) as t.
    destruct c as [f s]; destruct f, s; simpl; rewrite IH; reflexivity.
Qed.

(** ** The first category either hand qualifies for decides *)

Section FirstCategory.
Variable hash : Face * Suit -> Z.
Variables h1 h2 : Hand.
Hypothesis five1 : length (cards h1) = 5%nat.
Hypothesis five2 : length (cards h2) = 5%nat.

Lemma ranker_of_both (c : Category) :
  qualifies hash c h1 = true -> qualifies hash c h2 = true ->
  ranker_of hash c h1 h2 <> Ret None.
Proof.
  destruct c; simpl; intros Q1 Q2.
  - unfold straightFlush.
    destruct (straight_and_flush h1) as [a1 | e1]; [| discriminate Q1].
    destruct (straight_and_flush h2) as [a2 | e2]; [| discriminate Q2].
    subst; simpl; discriminate.
  - unfold fourOfAKind.
    destruct (Hand_quartet hash h1) as [[f1 |] r1]; [| discriminate Q1].
    destruct (Hand_quartet hash h2) as [[f2 |] r2]; [| discriminate Q2].
    rewrite fatal_tie_gate; destruct (_ =? _); discriminate.
  - unfold fullHouse; rewrite fatal_tie_gate.
    destruct (Hand_fullHouse hash h1); [| discriminate Q1].
    destruct (Hand_fullHouse hash h2); [| discriminate Q2].
    destruct (_ =? _); discriminate.
  - unfold flush; rewrite Q1, Q2; simpl; discriminate.
  - unfold straight.
    destruct (Hand_straight h1) as [[t1 |] | e1]; try discriminate Q1.
    destruct (Hand_straight h2) as [[t2 |] | e2]; try discriminate Q2.
    simpl; discriminate.
  - unfold threeOfAKind.
    destruct (Hand_triplet hash h1) as [[f1 |] r1]; [| discriminate Q1].
    destruct (Hand_triplet hash h2) as [[f2 |] r2]; [| discriminate Q2].
    rewrite fatal_tie_gate; destruct (_ =? _); discriminate.
  - unfold twoPairs.
    destruct (Hand_pairs hash h1) as [[a1 b1] r1],
             (Hand_pairs hash h2) as [[a2 b2] r2]; simpl in Q1, Q2.
    rewrite Q1, Q2; simpl.
    destruct a1, a2, b1, b2; try discriminate Q1; try discriminate Q2; simpl.
    destruct (isDraw _); [| discriminate].
    destruct (isDraw _); discriminate.
  - unfold twoOfAKind.
    destruct (Hand_pair hash h1) as [[f1 |] r1]; [| discriminate Q1].
    destruct (Hand_pair hash h2) as [[f2 |] r2]; [| discriminate Q2].
    simpl; destruct (isDraw _); discriminate.
  - discriminate.
Qed.

Lemma ranker_of_some (c : Category) :
  qualifies hash c h1 = true \/ qualifies hash c h2 = true ->
  ranker_of hash c h1 h2 <> Ret None.
Proof.
  intros Q.
  destruct (qualifies hash c h1) eqn:Q1, (qualifies hash c h2) eqn:Q2.
  - now apply ranker_of_both.
  - assert (c <> HighCard) by (intros ->; discriminate Q2).
    rewrite (ranker_of_gate hash h1 h2 five1 five2) by assumption.
    rewrite Q1; discriminate.
  - assert (c <> HighCard) by (intros ->; discriminate Q1).
    rewrite ranker_of_swap, (ranker_of_gate hash h2 h1 five2 five1)
      by assumption.
    rewrite Q2; discriminate.
  - destruct Q; discriminate.
Qed.

Lemma rank_loop_first (cs : list Category) (c : Category) :
  StronglySorted (fun a b => (precedence a < precedence b)%nat) cs ->
  In c cs ->
  (forall c', (precedence c' < precedence c)%nat ->
              qualifies hash c' h1 = false /\ qualifies hash c' h2 = false) ->
  qualifies hash c h1 = true \/ qualifies hash c h2 = true ->
  rank_loop (map (ranker_of hash) cs) h1 h2 = ranker_of hash c h1 h2.
Proof.
  intros St I Before Q; induction cs as [| c0 cs IH]; [contradiction |].
  apply StronglySorted_inv in St as [St F]; rewrite Forall_forall in F.
  destruct (Nat.eq_dec (precedence c0) (precedence c)) as [E | NE].
  - assert (c0 = c) by (destruct c0, c; simpl in E; congruence); subst c0.
    pose proof (ranker_of_some c Q) as N.
    cbn [map rank_loop].
    destruct (ranker_of hash c h1 h2) as [[r |] | e]; simpl; congruence.
  - destruct I as [-> | I]; [congruence |].
    destruct (Before c0 (F c I)) as [Q1 Q2].
    rewrite rank_loop_skip; trivial; [now apply IH |].
    intros ->; discriminate Q1.
Qed.

End FirstCategory.

(** Extra X17.  On two valid hands [rank] is decided by one category
    alone: the first in the order of precedence for which at least one hand
    qualifies.  Its result, verdict or exception, is the result of that
    category's ranker; no later category has any influence. *)
Theorem rank_first_category (hash : Face * Suit -> Z) (h1 h2 : Hand)
  (c : Category) :
  valid_hand hash h1 -> valid_hand hash h2 ->
  (forall c', (precedence c' < precedence c)%nat ->
              qualifies hash c' h1 = false /\ qualifies hash c' h2 = false) ->
  qualifies hash c h1 = true \/ qualifies hash c h2 = true ->
  rank hash h1 h2 = ranker_of hash c h1 h2.
Proof.
  intros [_ L1] [_ L2] B Q.
  apply (rank_loop_first hash h1 h2 L1 L2 all_categories c
           all_categories_sorted (In_all_categories c) B Q).
Qed.

(** ** The count dictionaries *)

Lemma counts_of_sum {K : Type} (g : list (K * list Card)) :
  list_sum (map snd (counts_of g))
  = list_sum (map (fun kv => length (snd kv)) g).
Proof. unfold counts_of; now rewrite map_map. Qed.

Lemma grouped_append_total {K : Type} (eqb : K -> K -> bool) (k : K)
  (c : Card) (g : list (K * list Card)) :
  list_sum (map (fun kv => length (snd kv)) (grouped_append eqb k c g))
  = S (list_sum (map (fun kv => length (snd kv)) g)).
Proof.
  assert (C : forall a l, list_sum (a :: l) = (a + list_sum l)%nat)
    by reflexivity.
  induction g as [| [k0 cs] g IH]; [reflexivity |].
  cbn [grouped_append]; destruct (eqb k0 k); cbn [map snd]; rewrite !C.
  - rewrite length_app; simpl; lia.
  - rewrite IH; lia.
Qed.

Lemma Hand_grouped_total {K : Type} (eqb : K -> K -> bool)
  (fun_ : Card -> K) (h : Hand) :
  list_sum (map snd (counts_of (Hand_grouped eqb fun_ h))) = length (cards h).
Proof.
  rewrite counts_of_sum; unfold Hand_grouped.
  assert (G : forall cs g,
             list_sum (map (fun kv => length (snd kv))
               (fold_left
                  (fun grouped card =>
                     grouped_append eqb (fun_ card) card grouped) cs g))
             = (list_sum (map (fun kv => length (snd kv)) g)
                + length cs)%nat).
  { induction cs as [| c cs IH]; intros g; cbn [fold_left length]; [lia |].
    rewrite IH, grouped_append_total; lia. }
  now rewrite G.
Qed.

Lemma counted_get {K : Type} (eqb : K -> K -> bool)
  (eqb_true : forall a b, eqb a b = true <-> a = b) (fun_ : Card -> K)
  (h : Hand) (k : K) :
  dict_get eqb (counts_of (Hand_grouped eqb fun_ h)) k
  = match length (filter (fun c => eqb (fun_ c) k) (cards h)) with
    | O => None
    | S n => Some (S n)
    end.
Proof.
  rewrite dict_get_counts_of, (Hand_grouped_get eqb eqb_true).
  now destruct (filter _ (cards h)).
Qed.

Lemma In_dict_get {K V : Type} (eqb : K -> K -> bool)
  (eqb_true : forall a b, eqb a b = true <-> a = b)
  (d : list (K * V)) (k : K) (v : V) :
  NoDup (map fst d) -> In (k, v) d -> dict_get eqb d k = Some v.
Proof.
  induction d as [| [k0 v0] d IH]; simpl; [contradiction |].
  intros N [E | I]; inversion_clear N as [| ? ? N0 N1].
  - injection E as -> ->.
    now rewrite (proj2 (eqb_true k k) eq_refl).
  - destruct (eqb k0 k) eqn:E; [| now apply IH].
    apply eqb_true in E; subst k0.
    exfalso; apply N0; apply in_map_iff; now exists (k, v).
Qed.

(** Extra X18.  The dictionaries a hand derives from its cards: the keys
    of [faceCounts] are distinct, the value of a face is the number of cards
    showing it, a face without card is not a key, and the values add up to
    the number of cards; the same holds of [suitCounts].  In a card set no
    face has more than four cards. *)
Theorem Hand_counts_invariants (hash : Face * Suit -> Z) (h : Hand) :
  NoDup (map fst (faceCounts h))
  /\ NoDup (map fst (suitCounts h))
  /\ (forall f, dict_get Face_eq (faceCounts h) f
                = match face_count f (cards h) with
                  | O => None
                  | S n => Some (S n)
                  end)
  /\ (forall s, dict_get Suit_eqb (suitCounts h) s
                = match suit_count s (cards h) with
                  | O => None
                  | S n => Some (S n)
                  end)
  /\ (forall f n, In (f, n) (faceCounts h) ->
                  n = face_count f (cards h) /\ (1 <= n)%nat)
  /\ list_sum (map snd (faceCounts h)) = length (cards h)
  /\ list_sum (map snd (suitCounts h)) = length (cards h)
  /\ (is_set (Card_same hash) (cards h) = true ->
      forall f, (face_count f (cards h) <= 4)%nat).
Proof.
  assert (Nf : NoDup (map fst (faceCounts h))).
  { unfold faceCounts, counts_of; rewrite map_map; simpl.
    apply (Hand_grouped_NoDup Face_eq Face_eq_true). }
  assert (Gf : forall f, dict_get Face_eq (faceCounts h) f
                         = match face_count f (cards h) with
                           | O => None
                           | S n => Some (S n)
                           end)
    by (intros f; apply (counted_get Face_eq Face_eq_true)).
  split; [exact Nf |]. split.
  { unfold suitCounts, counts_of; rewrite map_map; simpl.
    apply (Hand_grouped_NoDup Suit_eqb Suit_eqb_true). }
  split; [exact Gf |].
  split; [intros s; apply (counted_get Suit_eqb Suit_eqb_true) |].
  split.
  { intros f n I.
    apply (In_dict_get Face_eq Face_eq_true _ _ _ Nf) in I.
    rewrite Gf in I; destruct (face_count f (cards h)); [discriminate I |].
    injection I as <-; split; [reflexivity | lia]. }
  split; [apply Hand_grouped_total |].
  split; [apply Hand_grouped_total |].
  intros S f; unfold face_count.
  apply (one_face_at_most_four f).
  - now apply NoDup_filter, (is_set_NoDup hash).
  - apply Forall_forall; intros c I.
    apply filter_In in I as [_ E]; now apply Face_eq_true.
Qed.

(** ** A draw needs the same faces on both sides *)

Lemma face_count_cons (f : Face) (c : Card) (l : list Card) :
  face_count f (c :: l)
  = ((if Face_eq (face c) f then 1 else 0) + face_count f l)%nat.
Proof. unfold face_count; simpl; now destruct (Face_eq (face c) f). Qed.

Lemma face_count_app (f : Face) (l l' : list Card) :
  face_count f (l ++ l') = (face_count f l + face_count f l')%nat.
Proof. unfold face_count; now rewrite filter_app, length_app. Qed.

Lemma face_count_pos (f : Face) (l : list Card) :
  (1 <= face_count f l)%nat -> exists c, In c l /\ face c = f.
Proof.
  unfold face_count; destruct (filter _ l) as [| c r] eqn:E; simpl; [lia |].
  intros _; exists c.
  assert (I : In c (filter (fun c => Face_eq (face c) f) l))
    by (rewrite E; now left).
  apply filter_In in I as [I F]; split; [exact I | now apply Face_eq_true].
Qed.

Lemma same_counts_same_faces (l l' : list Card) :
  (forall f, face_count f l = face_count f l') ->
  Permutation (map face l) (map face l').
Proof.
  revert l'; induction l as [| c l IH]; intros l' E.
  - destruct l' as [| c' l']; [constructor |].
    specialize (E (face c')); rewrite face_count_cons, Face_eq_refl in E.
    unfold face_count in E; simpl in E; lia.
  - destruct (face_count_pos (face c) l') as (c' & I & F).
    { rewrite <- E, face_count_cons, Face_eq_refl; lia. }
    apply in_split in I as (pre & post & ->).
    rewrite map_app; simpl; rewrite F.
    apply Permutation_cons_app; rewrite <- map_app; apply IH.
    intros f; specialize (E f).
    rewrite face_count_app in *; rewrite !face_count_cons, F in E; lia.
Qed.

Lemma same_counts_same_descending (h h' : Hand) :
  (forall f, face_count f (cards h) = face_count f (cards h')) ->
  map face (Hand_descending h) = map face (Hand_descending h').
Proof.
  intros E; apply map_Face_value_inj, descends_perm_eq.
  - rewrite map_map; apply descends_map.
    apply (sorted_reverse_descends (fun c => Face_value (face c))).
  - rewrite map_map; apply descends_map.
    apply (sorted_reverse_descends (fun c => Face_value (face c))).
  - apply Permutation_map.
    rewrite (Permutation_map face (Hand_descending_perm h)),
      (Permutation_map face (Hand_descending_perm h')).
    now apply same_counts_same_faces.
Qed.

Lemma face_count_map (f : Face) (l : list Card) :
  face_count f l = length (filter (fun g => Face_eq g f) (map face l)).
Proof.
  unfold face_count; induction l as [| c l IH]; simpl; [reflexivity |].
  destruct (Face_eq (face c) f); simpl; now rewrite IH.
Qed.

Lemma same_descending_same_counts (h h' : Hand) (f : Face) :
  map face (Hand_descending h) = map face (Hand_descending h') ->
  face_count f (cards h) = face_count f (cards h').
Proof.
  intros E.
  rewrite <- (face_count_perm f _ _ (Hand_descending_perm h)),
    <- (face_count_perm f _ _ (Hand_descending_perm h')).
  now rewrite !face_count_map, E.
Qed.

Lemma face_count_without_two (f a b : Face) (cs : list Card) :
  f <> a -> f <> b ->
  face_count f (filter (fun card => negb (Face_eq (face card) a
                                          || Face_eq (face card) b)) cs)
  = face_count f cs.
Proof.
  intros Na Nb; unfold face_count; induction cs as [| c cs IH];
    [reflexivity |].
  cbn [filter].
  destruct (Face_eq (face c) a) eqn:Ea, (Face_eq (face c) b) eqn:Eb,
    (Face_eq (face c) f) eqn:Ef; cbn [orb negb filter length];
    rewrite ?Ef; cbn [length]; rewrite ?IH; trivial;
    repeat match goal with
           | H : Face_eq _ _ = true |- _ => apply Face_eq_true in H
           end; congruence.
Qed.

Lemma rank_loop_source (hash : Face * Suit -> Z) (h1 h2 : Hand)
  (cs : list Category) (r : Result) :
  rank_loop (map (ranker_of hash) cs) h1 h2 = Ret (Some r) ->
  exists c, ranker_of hash c h1 h2 = Ret (Some r).
Proof.
  induction cs as [| c cs IH]; simpl; [discriminate |].
  destruct (ranker_of hash c h1 h2) as [[r' |] | e] eqn:E; simpl;
    [| exact IH | discriminate].
  intros X; injection X as ->; now exists c.
Qed.

Section Draws.
Variable hash : Face * Suit -> Z.
Variables h1 h2 : Hand.
Hypothesis valid1 : valid_hand hash h1.
Hypothesis valid2 : valid_hand hash h2.

Let same_faces : Prop :=
  map face (Hand_descending h1) = map face (Hand_descending h2).

Lemma highCard_draw_same_faces (w : string) :
  highCard h1 h2 w = Result_draw -> same_faces.
Proof.
  destruct valid1 as [_ L1], valid2 as [_ L2].
  apply deepComparison_draw_faces.
  rewrite !Hand_descending_length; congruence.
Qed.

Lemma fatal_tie_no_draw (o1 o2 : option Face) (w msg : string) :
  fatal_tie o1 o2 h1 h2 w msg <> Ret (Some Result_draw).
Proof.
  rewrite fatal_tie_gate.
  destruct o1 as [f1 |], o2 as [f2 |]; try discriminate.
  destruct (Face_value f1 =? Face_value f2) eqn:E; [discriminate |].
  intros X; injection X as X; revert X; apply compareFaces_not_draw.
  intros ->; now rewrite Z.eqb_refl in E.
Qed.

Lemma straight_draw_same_faces (w : string) :
  straight h1 h2 w = Ret (Some Result_draw) -> same_faces.
Proof.
  destruct valid1 as [_ L1], valid2 as [_ L2]; unfold straight.
  destruct (Hand_straight h1) as [[t1 |] | e1] eqn:S1;
    destruct (Hand_straight h2) as [[t2 |] | e2] eqn:S2;
    simpl; try discriminate.
  intros X; injection X as X.
  destruct (Face_neq_dec t1 t2) as [-> | N];
    [| now apply compareFaces_not_draw in X].
  destruct (Hand_straight_run h1 t2 L1 S1)
    as (a & b & c & d & e & D1 & Ea & Hb & Hc & Hd & He).
  destruct (Hand_straight_run h2 t2 L2 S2)
    as (a' & b' & c' & d' & e' & D2 & Ea' & Hb' & Hc' & Hd' & He').
  subst same_faces; rewrite D1, D2; simpl.
  assert (Fa : face a = face a') by congruence.
  assert (Fb : face b = face b') by (apply Face_value_inj; congruence).
  assert (Fc : face c = face c') by (apply Face_value_inj; congruence).
  assert (Fd : face d = face d') by (apply Face_value_inj; congruence).
  assert (Fe : face e = face e') by (apply Face_value_inj; congruence).
  now rewrite Fa, Fb, Fc, Fd, Fe.
Qed.

Lemma twoOfAKind_draw_same_faces (w : string) :
  twoOfAKind hash h1 h2 w = Ret (Some Result_draw) -> same_faces.
Proof.
  destruct valid1 as [S1 L1], valid2 as [S2 L2].
  unfold twoOfAKind, Hand_pair.
  destruct (Hand_facesOccuringTimes h1 2) as [| a l1] eqn:E1;
    destruct (Hand_facesOccuringTimes h2 2) as [| b l2] eqn:E2;
    simpl; try discriminate.
  apply facesOccuringTimes_head in E1 as (Ca & _), E2 as (Cb & _).
  destruct (isDraw (compareFaces a b h1 h2 w)) eqn:D;
    [| intros X; injection X as X; rewrite X in D; discriminate D].
  rewrite compareFaces_isDraw in D; apply Z.eqb_eq, Face_value_inj in D.
  subst b; intros X; injection X as X.
  apply deepComparison_draw_faces in X.
  2: { rewrite !Hand_descending_length; simpl.
       rewrite !card_set_filter by assumption.
       pose proof (without_length a (cards h1)).
       pose proof (without_length a (cards h2)); lia. }
  apply same_counts_same_descending; intros f.
  pose proof (same_descending_same_counts _ _ f X) as C; simpl in C.
  rewrite !card_set_filter, !face_count_without in C by assumption.
  destruct (Face_eq f a) eqn:E; [| exact C].
  apply Face_eq_true in E; congruence.
Qed.

Lemma twoPairs_draw_same_faces (w : string) :
  twoPairs hash h1 h2 w = Ret (Some Result_draw) -> same_faces.
Proof.
  destruct valid1 as [S1 L1], valid2 as [S2 L2].
  unfold twoPairs, Hand_pairs.
  pose proof (facesOccuringTimes_NoDup h1 2) as N1.
  pose proof (facesOccuringTimes_NoDup h2 2) as N2.
  assert (M : forall h x, In x (Hand_facesOccuringTimes h 2) ->
                          face_count x (cards h) = 2%nat)
    by (intros h x I; now apply facesOccuringTimes_In in I).
  pose proof (M h1) as M1; pose proof (M h2) as M2.
  destruct (Hand_facesOccuringTimes h1 2) as [| a [| b l1]];
    destruct (Hand_facesOccuringTimes h2 2) as [| a' [| b' l2]];
    simpl; try discriminate.
  destruct (isDraw (compareFaces a a' h1 h2 w)) eqn:D;
    [| intros X; injection X as X; rewrite X in D; discriminate D].
  rewrite compareFaces_isDraw in D; apply Z.eqb_eq, Face_value_inj in D.
  subst a'.
  destruct (isDraw (compareFaces b b' h1 h2 w)) eqn:D';
    [| intros X; injection X as X; rewrite X in D'; discriminate D'].
  rewrite compareFaces_isDraw in D'; apply Z.eqb_eq, Face_value_inj in D'.
  subst b'; intros X; injection X as X.
  assert (Nab : a <> b).
  { inversion_clear N1 as [| ? ? Na _]; intros ->; apply Na; now left. }
  assert (Ca1 : face_count a (cards h1) = 2%nat) by (apply M1; simpl; auto).
  assert (Cb1 : face_count b (cards h1) = 2%nat) by (apply M1; simpl; auto).
  assert (Ca2 : face_count a (cards h2) = 2%nat) by (apply M2; simpl; auto).
  assert (Cb2 : face_count b (cards h2) = 2%nat) by (apply M2; simpl; auto).
  apply deepComparison_draw_faces in X.
  2: { rewrite !Hand_descending_length; simpl.
       rewrite !card_set_filter by assumption.
       pose proof (without_two_length a b (cards h1) Nab).
       pose proof (without_two_length a b (cards h2) Nab); lia. }
  apply same_counts_same_descending; intros f.
  destruct (Face_neq_dec f a) as [-> | Na]; [congruence |].
  destruct (Face_neq_dec f b) as [-> | Nb]; [congruence |].
  pose proof (same_descending_same_counts _ _ f X) as C; simpl in C.
  now rewrite !card_set_filter, !face_count_without_two in C by assumption.
Qed.

Lemma ranker_draw_same_faces (c : Category) :
  ranker_of hash c h1 h2 = Ret (Some Result_draw) -> same_faces.
Proof.
  destruct c; simpl.
  - unfold straightFlush.
    destruct (straight_and_flush h1) as [a1 | e1]; simpl; [| discriminate].
    destruct (straight_and_flush h2) as [a2 | e2]; simpl; [| discriminate].
    rewrite gate_cases; destruct a1, a2; simpl; try discriminate.
    intros X; injection X as X; now apply highCard_draw_same_faces in X.
  - unfold fourOfAKind.
    destruct (Hand_quartet hash h1), (Hand_quartet hash h2).
    intros X; now apply fatal_tie_no_draw in X.
  - intros X; now apply fatal_tie_no_draw in X.
  - unfold flush; rewrite gate_cases.
    destruct (nonempty _), (nonempty _); simpl; try discriminate.
    intros X; injection X as X; now apply highCard_draw_same_faces in X.
  - apply straight_draw_same_faces.
  - unfold threeOfAKind.
    destruct (Hand_triplet hash h1), (Hand_triplet hash h2).
    intros X; now apply fatal_tie_no_draw in X.
  - apply twoPairs_draw_same_faces.
  - apply twoOfAKind_draw_same_faces.
  - intros X; injection X as X; now apply highCard_draw_same_faces in X.
Qed.

End Draws.

(** Extra X19.  [rank] reports a draw between two valid hands only when
    they show the same faces: their descending face sequences are equal,
    so every face occurs equally often in both. *)
Theorem rank_draw_same_faces (hash : Face * Suit -> Z) (h1 h2 : Hand) :
  valid_hand hash h1 -> valid_hand hash h2 ->
  rank hash h1 h2 = Ret (Some Result_draw) ->
  map face (Hand_descending h1) = map face (Hand_descending h2)
  /\ forall f, face_count f (cards h1) = face_count f (cards h2).
Proof.
  intros V1 V2 R.
  apply (rank_loop_source hash h1 h2 all_categories) in R as (c & R).
  apply (ranker_draw_same_faces hash h1 h2 V1 V2) in R.
  split; [exact R |].
  intros f; now apply same_descending_same_counts.
Qed.

(** ** The further properties at work on example hands *)

Lemma Hand_straight_iff_run_witness :
  Hand_straight ex_straight = Ret (Some F6)
  <-> Permutation (face_values (cards ex_straight))
        [Face_value F6; Face_value F6 - 1; Face_value F6 - 2;
         Face_value F6 - 3; Face_value F6 - 4].
Proof. apply (Hand_straight_iff_run ex_straight F6); reflexivity. Defined.

Lemma Hand_isFlush_spec_witness :
  Hand_isFlush ex_flush = [CLUBS]
  <-> Forall (fun c => suit c = CLUBS) (cards ex_flush).
Proof. apply (Hand_isFlush_spec ex_flush); reflexivity. Defined.

Lemma Hand_triplet_quartet_spec_witness :
  exists r,
    Hand_triplet hash0 ex_triplet_black = (Some F3, r)
    /\ colour r = colour ex_triplet_black
    /\ (forall c, In c (cards r)
                  <-> In c (cards ex_triplet_black) /\ face c <> F3)
    /\ length (cards r) = 2%nat.
Proof.
  apply (Hand_triplet_quartet_spec hash0 ex_triplet_black);
    [split |]; reflexivity.
Defined.

Lemma Hand_pairs_spec_witness :
  exists r,
    Hand_pairs hash0 ex_two_pairs = (Some FK, Some F3, r)
    /\ colour r = colour ex_two_pairs
    /\ (forall c, In c (cards r)
                  <-> In c (cards ex_two_pairs)
                      /\ face c <> FK /\ face c <> F3)
    /\ length (cards r) = 1%nat.
Proof.
  apply (Hand_pairs_spec hash0 ex_two_pairs); [split | | |]; reflexivity.
Defined.

Lemma Hand_fullHouse_spec_witness :
  Hand_fullHouse hash0 ex_full_house = Some F3
  <-> face_count F3 (cards ex_full_house) = 3%nat
      /\ exists p, face_count p (cards ex_full_house) = 2%nat.
Proof.
  apply (Hand_fullHouse_spec hash0 ex_full_house F3); split; reflexivity.
Defined.

Lemma rank_one_deck_witness :
  exists c r,
    rank hash0 ex_flush ex_straight = Ret (Some r)
    /\ verdict_of ex_flush ex_straight (Category_name c) r.
Proof.
  apply (rank_one_deck hash0 ex_flush ex_straight).
  - split; reflexivity.
  - split; reflexivity.
  - intros c I1 I2; simpl in I1, I2.
    repeat (destruct I1 as [<- | I1]; [| ]); try contradiction;
      repeat (destruct I2 as [I2 | I2]; [discriminate I2 |]); contradiction.
Defined.

Lemma rank_card_order_irrelevant_witness :
  rank hash0 ex_two_pairs ex_flush = rank hash0 ex_two_pairs_swapped ex_flush.
Proof.
  apply (rank_card_order_irrelevant hash0 ex_two_pairs ex_two_pairs_swapped
           ex_flush ex_flush).
  - repeat split; apply perm_swap.
  - repeat split; apply Permutation_refl.
Defined.

Lemma rank_first_category_witness :
  rank hash0 ex_flush ex_straight
  = ranker_of hash0 Flush ex_flush ex_straight.
Proof.
  apply (rank_first_category hash0 ex_flush ex_straight Flush).
  - split; reflexivity.
  - split; reflexivity.
  - intros c'; destruct c'; simpl precedence; intros P; try lia;
      split; reflexivity.
  - left; reflexivity.
Defined.

Lemma rank_draw_same_faces_witness :
  map face (Hand_descending ex_high_black)
  = map face (Hand_descending ex_high_white).
Proof.
  apply (rank_draw_same_faces hash0 ex_high_black ex_high_white);
    try (split; reflexivity); reflexivity.
Defined.

(** ** Any two collision-free hashes give the same results *)

Lemma Card_same_structural (hash : Face * Suit -> Z) (a b : Card) :
  collision_free hash -> Card_same hash a b = Card_eqb a b.
Proof.
  intros I; unfold Card_same, Card_eqb, Card_eq, Card_hash.
  destruct (Face_eq (face a) (face b)) eqn:F; simpl;
    [| now rewrite andb_false_r].
  rewrite andb_true_r.
  destruct (Suit_eqb (suit a) (suit b)) eqn:S.
  - apply Face_eq_true in F; apply Suit_eqb_true in S.
    rewrite F, S; apply Z.eqb_refl.
  - apply hash_distinct; [exact I |].
    intros E; injection E as _ E; apply Suit_eqb_true in E; congruence.
Qed.

Section HashChoice.
Variables hash hash' : Face * Suit -> Z.
Hypothesis same_entries : forall a b, Card_same hash a b = Card_same hash' a b.

Lemma set_add_hash (s : list Card) (c : Card) :
  set_add (Card_same hash) s c = set_add (Card_same hash') s c.
Proof.
  unfold set_add, set_contains.
  replace (existsb (fun y => Card_same hash y c) s)
    with (existsb (fun y => Card_same hash' y c) s); [reflexivity |].
  induction s as [| y s IH]; simpl; [reflexivity |].
  now rewrite IH, same_entries.
Qed.

Lemma card_set_hash (keep : Card -> bool) (cs : list Card) :
  card_set hash keep cs = card_set hash' keep cs.
Proof.
  unfold card_set, set_of; generalize (@nil Card).
  induction (filter keep cs) as [| c l IH]; intros acc; simpl; [reflexivity |].
  now rewrite set_add_hash, IH.
Qed.

Lemma Hand_pair_hash (h : Hand) : Hand_pair hash h = Hand_pair hash' h.
Proof.
  unfold Hand_pair; destruct (Hand_facesOccuringTimes h 2); trivial.
  now rewrite card_set_hash.
Qed.

Lemma Hand_pairs_hash (h : Hand) : Hand_pairs hash h = Hand_pairs hash' h.
Proof.
  unfold Hand_pairs.
  destruct (Hand_facesOccuringTimes h 2) as [| a [| b l]]; trivial.
  now rewrite card_set_hash.
Qed.

Lemma Hand_triplet_hash (h : Hand) :
  Hand_triplet hash h = Hand_triplet hash' h.
Proof.
  unfold Hand_triplet; destruct (Hand_facesOccuringTimes h 3); trivial.
  now rewrite card_set_hash.
Qed.

Lemma Hand_quartet_hash (h : Hand) :
  Hand_quartet hash h = Hand_quartet hash' h.
Proof.
  unfold Hand_quartet; destruct (Hand_facesOccuringTimes h 4); trivial.
  now rewrite card_set_hash.
Qed.

Lemma Hand_fullHouse_hash (h : Hand) :
  Hand_fullHouse hash h = Hand_fullHouse hash' h.
Proof.
  unfold Hand_fullHouse; rewrite Hand_triplet_hash.
  destruct (Hand_triplet hash' h) as [t r]; now rewrite Hand_pair_hash.
Qed.

Lemma ranker_of_hash (c : Category) (h1 h2 : Hand) :
  ranker_of hash c h1 h2 = ranker_of hash' c h1 h2.
Proof.
  destruct c; simpl; trivial.
  - unfold fourOfAKind; now rewrite !Hand_quartet_hash.
  - unfold fullHouse; now rewrite !Hand_fullHouse_hash.
  - unfold threeOfAKind; now rewrite !Hand_triplet_hash.
  - unfold twoPairs; now rewrite !Hand_pairs_hash.
  - unfold twoOfAKind; now rewrite !Hand_pair_hash.
Qed.

Lemma rank_hash (h1 h2 : Hand) : rank hash h1 h2 = rank hash' h1 h2.
Proof.
  unfold rank; rewrite !categories_ranker_of.
  induction all_categories as [| c cs IH]; simpl; trivial.
  now rewrite ranker_of_hash, IH.
Qed.

End HashChoice.

Lemma collision_free_same_entries (hash hash' : Face * Suit -> Z) :
  collision_free hash -> collision_free hash' ->
  forall a b, Card_same hash a b = Card_same hash' a b.
Proof.
  intros I I' a b; now rewrite !Card_same_structural.
Qed.

Lemma hash1_collision_free : collision_free hash1.
Proof.
  intros [f s] [g t]; unfold hash1; simpl; intros E.
  assert (V : Face_value f = Face_value g)
    by (destruct f, g; destruct s, t; simpl in *; lia).
  apply Face_value_inj in V; subst g.
  destruct s, t; try reflexivity; simpl in E; lia.
Qed.


(** ** Sets iterated in any order *)

Section SetOrder.
Context {A : Type} (same : A -> A -> bool).
Hypothesis same_sym : forall a b, same a b = same b a.

Lemma set_contains_perm (l l' : list A) (x : A) :
  Permutation l l' -> set_contains same l x = set_contains same l' x.
Proof.
  intros P; unfold set_contains.
  induction P as [| y l l' P IH | y z l | l l' l'' P IH P' IH']; simpl.
  - reflexivity.
  - now rewrite IH.
  - now rewrite !orb_assoc, (orb_comm (same z x)).
  - now rewrite IH.
Qed.

Lemma is_set_perm (l l' : list A) :
  Permutation l l' -> is_set same l = is_set same l'.
Proof.
  intros P.
  induction P as [| y l l' P IH | y z l | l l' l'' P IH P' IH'].
  - reflexivity.
  - cbn [is_set]; now rewrite IH, (set_contains_perm l l' y P).
  - cbn [is_set]; unfold set_contains; cbn [existsb].
    rewrite (same_sym z y).
    destruct (same y z), (existsb (fun u => same u y) l),
      (existsb (fun u => same u z) l), (is_set same l); reflexivity.
  - now rewrite IH.
Qed.

Lemma set_add_keeps_set (s : list A) (x : A) :
  is_set same s = true -> is_set same (set_add same s x) = true.
Proof.
  unfold set_add.
  destruct (set_contains same s x) eqn:C; [trivial |].
  induction s as [| a s IH]; [reflexivity |].
  simpl in C |- *; apply orb_false_iff in C as [Ca C].
  intros S; apply andb_prop in S as [N S].
  rewrite (IH C S), andb_true_r.
  rewrite set_contains_app, negb_orb, N; simpl.
  now rewrite orb_false_r, same_sym, Ca.
Qed.

Lemma fold_set_add_keeps_set (l acc : list A) :
  is_set same acc = true -> is_set same (fold_left (set_add same) l acc) = true.
Proof.
  revert acc; induction l as [| x l IH]; intros acc S; [exact S |].
  now apply IH, set_add_keeps_set.
Qed.

Lemma fold_set_add_length (l acc : list A) :
  (length (fold_left (set_add same) l acc) <= length acc + length l)%nat.
Proof.
  revert acc; induction l as [| x l IH]; intros acc; simpl; [lia |].
  specialize (IH (set_add same acc x)).
  assert (length (set_add same acc x) <= S (length acc))%nat
    by (unfold set_add; destruct (set_contains same acc x);
        [lia | rewrite length_app; simpl; lia]).
  lia.
Qed.

(** A set as long as the list it is built from has dropped nothing. *)
Lemma fold_set_add_full (l acc : list A) :
  is_set same acc = true ->
  length (fold_left (set_add same) l acc) = (length acc + length l)%nat ->
  is_set same (acc ++ l) = true.
Proof.
  revert acc; induction l as [| x l IH]; intros acc S L.
  - now rewrite app_nil_r.
  - cbn [fold_left] in L.
    pose proof (set_add_keeps_set acc x S) as S'.
    destruct (set_contains same acc x) eqn:C.
    + replace (set_add same acc x) with acc in L
        by (unfold set_add; now rewrite C).
      pose proof (fold_set_add_length l acc); simpl in L; lia.
    + replace (set_add same acc x) with (acc ++ [x]) in L, S'
        by (unfold set_add; now rewrite C).
      replace (acc ++ x :: l) with ((acc ++ [x]) ++ l)
        by (now rewrite <- app_assoc).
      apply IH; [exact S' |].
      rewrite L, length_app; simpl; lia.
Qed.

Lemma is_set_distinct (l : list A) (a b : A) :
  is_set same l = true -> In a l -> In b l -> a <> b -> same a b = false.
Proof.
  induction l as [| x l IH]; [intros _ [] |].
  cbn [is_set]; intros S Ia Ib N; apply andb_prop in S as [C S].
  apply negb_true_iff in C.
  assert (F : forall y, In y l -> same y x = false).
  { intros y Iy; destruct (same y x) eqn:E; [| reflexivity].
    assert (X : set_contains same l x = true)
      by (apply existsb_exists; eauto).
    congruence. }
  destruct Ia as [-> | Ia], Ib as [-> | Ib].
  - congruence.
  - rewrite same_sym; now apply F.
  - now apply F.
  - now apply IH.
Qed.

Lemma NoDup_is_set_on (l : list A) :
  (forall a b, In a l -> In b l -> same a b = true -> a = b) ->
  NoDup l -> is_set same l = true.
Proof.
  intros E N; induction N as [| x l Nx N IH]; [reflexivity |].
  cbn [is_set]; rewrite IH by (intros a b Ia Ib; apply E; now right).
  rewrite andb_true_r; apply negb_true_iff.
  destruct (set_contains same l x) eqn:C; [| reflexivity].
  apply existsb_exists in C as (y & Iy & Sy).
  apply E in Sy; [subst y; contradiction | now right | now left].
Qed.

(** What a set built from a list holds, when the set tells the entries of
    the list apart exactly as equality does. *)
Lemma fold_set_add_elements (l acc : list A) :
  (forall a, same a a = true) ->
  (forall a b, In a (acc ++ l) -> In b (acc ++ l) -> same a b = true -> a = b) ->
  NoDup acc ->
  NoDup (fold_left (set_add same) l acc)
  /\ (forall x, In x (fold_left (set_add same) l acc) <-> In x acc \/ In x l).
Proof.
  intros R; revert acc; induction l as [| x l IH]; intros acc E N.
  - split; [exact N | intros x; simpl; tauto].
  - assert (C : set_contains same acc x = true <-> In x acc).
    { unfold set_contains; rewrite existsb_exists; split.
      - intros (y & Iy & Sy).
        apply E in Sy; [now subst y | |]; apply in_or_app;
          [now left | right; now left].
      - intros I; exists x; split; [exact I | apply R]. }
    cbn [fold_left]; unfold set_add at 2 4.
    destruct (set_contains same acc x) eqn:Cx.
    + destruct (IH acc) as [N' M]; [| exact N |].
      * intros a b Ia Ib; apply E; apply in_app_or in Ia, Ib;
          apply in_or_app; simpl; tauto.
      * split; [exact N' |].
        intros y; rewrite M; simpl; split; [tauto |].
        intros [I | [<- | I]]; tauto.
    + destruct (IH (acc ++ [x])) as [N' M].
      * intros a b; rewrite <- app_assoc; apply E.
      * apply NoDup_app; [exact N | repeat constructor; intros [] |].
        intros a Ia [<- | []].
        apply C in Ia; discriminate Ia.
      * split; [exact N' |].
        intros y; rewrite M, in_app_iff; simpl; tauto.
Qed.

End SetOrder.

(** ** The cards read by [Hand.fromRep], whatever the iteration orders *)

Section ReadHand.
Variable hash : Face * Suit -> Z.
Variable iter_words : list string -> list string.
Variable iter_cards : list Card -> list Card.
Hypothesis words_order : iteration_order iter_words.
Hypothesis cards_order : iteration_order iter_cards.

Let step (acc : M (list Card)) (cardrep : string) : M (list Card) :=
  s <- acc ;; c <- Card_fromRep cardrep ;; Ret (set_add (Card_same hash) s c).

Let parses (cardrep : string) (c : Card) : Prop := Card_fromRep cardrep = Ret c.

Lemma read_cards_raise (reps : list string) (e : exn) :
  fold_left step reps (Raise e) = Raise e.
Proof. induction reps as [| r reps IH]; [reflexivity | exact IH]. Qed.

Lemma read_cards_parsed (reps : list string) (acc cs : list Card) :
  fold_left step reps (Ret acc) = Ret cs ->
  exists cs1,
    Forall2 parses reps cs1
    /\ cs = fold_left (set_add (Card_same hash)) cs1 acc.
Proof.
  revert acc; induction reps as [| r reps IH]; intros acc E.
  - injection E as <-; exists []; split; [constructor | reflexivity].
  - cbn [fold_left] in E; unfold step at 2 in E; cbn [bind] in E.
    destruct (Card_fromRep r) as [c | e] eqn:R; cbn [bind] in E.
    + apply IH in E as (cs1 & F & ->).
      exists (c :: cs1); split; [now constructor | reflexivity].
    + rewrite read_cards_raise in E; discriminate E.
Qed.

Lemma read_cards_Forall2 (reps : list string) (cs1 acc : list Card) :
  Forall2 parses reps cs1 ->
  fold_left step reps (Ret acc)
  = Ret (fold_left (set_add (Card_same hash)) cs1 acc).
Proof.
  intros F; revert acc.
  induction F as [| r c reps cs1 R F IH]; intros acc; [reflexivity |].
  cbn [fold_left]; unfold step at 2; cbn [bind].
  unfold parses in R; rewrite R; cbn [bind]; apply IH.
Qed.

Lemma parses_reprs (cs : list Card) : Forall2 parses (map Card_repr cs) cs.
Proof.
  induction cs as [| c cs IH]; constructor; [| exact IH].
  destruct c as [f s]; destruct f, s; reflexivity.
Qed.

(** What a successful call has done. *)
Lemma Hand_fromRep_inv (rep : string) (h : Hand) :
  Hand_fromRep hash iter_words iter_cards rep = Ret h ->
  exists g cs1,
    re_match rep = Ret g
    /\ colour h = fst g
    /\ Forall2 parses
         (iter_words (set_of String.eqb (split_space (snd g)))) cs1
    /\ cards h = iter_cards (set_of (Card_same hash) cs1).
Proof.
  unfold Hand_fromRep.
  destruct (re_match rep) as [g | e]; cbn [bind]; [| discriminate].
  fold step.
  destruct (fold_left step _ (Ret [])) as [cs | e] eqn:E; cbn [bind];
    [| discriminate].
  intros X; injection X as <-.
  apply read_cards_parsed in E as (cs1 & F & ->).
  exists g, cs1; repeat split; trivial.
Qed.

(** When every word after the colon is the text of a card, and the set
    tells these cards apart as equality does, the call returns a hand of
    these cards, in some order. *)
Lemma Hand_fromRep_hand (rep : string) (g : string * string)
  (ws : list string) (cs1 l : list Card) :
  re_match rep = Ret g ->
  Permutation ws (set_of String.eqb (split_space (snd g))) ->
  Forall2 parses ws cs1 ->
  (forall a b, In a cs1 -> In b cs1 -> Card_same hash a b = true -> a = b) ->
  NoDup l -> (forall c, In c l <-> In c cs1) ->
  exists h,
    Hand_fromRep hash iter_words iter_cards rep = Ret h
    /\ colour h = fst g
    /\ Permutation (cards h) l
    /\ is_set (Card_same hash) (cards h) = true.
Proof.
  intros G P F E Nl Ml.
  assert (P' : Permutation ws
                 (iter_words (set_of String.eqb (split_space (snd g)))))
    by (etransitivity; [exact P | symmetry; apply words_order]).
  destruct (Permutation_Forall2 P' F) as (cs2 & P2 & F2).
  unfold Hand_fromRep; rewrite G; cbn [bind]; fold step.
  rewrite (read_cards_Forall2 _ _ _ F2); cbn [bind].
  exists (mkHand (fst g) (iter_cards (set_of (Card_same hash) cs2))).
  split; [reflexivity |]; split; [reflexivity |]; cbn [cards].
  destruct (fold_set_add_elements (Card_same hash) cs2 []
              (Card_same_refl hash)) as [N2 M2].
  { simpl; intros a b Ia Ib; apply E;
      eapply Permutation_in; try eassumption; now symmetry. }
  { constructor. }
  assert (PL : Permutation (iter_cards (set_of (Card_same hash) cs2)) l).
  { etransitivity; [apply cards_order |].
    apply NoDup_Permutation; [exact N2 | exact Nl |].
    intros c; rewrite Ml; unfold set_of; rewrite M2; simpl.
    split; [intros [[] | I] | intros I; right];
      eapply Permutation_in; try eassumption; now symmetry. }
  split; [exact PL |].
  rewrite (is_set_perm _ (Card_same_sym hash) _ _ PL).
  apply NoDup_is_set_on; [| exact Nl].
  intros a b Ia Ib; apply E; now apply Ml.
Qed.

(** Extra X15.  With a collision-free [hash] and whatever the orders in
    which the sets are iterated, [Hand.fromRep] reads the text made of an
    owner without line end, a colon with a space, and the texts of one or
    more pairwise distinct cards separated by single spaces, as a hand of
    that owner holding exactly those cards, each once, in some order; the
    owner may itself hold colons.  Without any card after the colon it
    raises [IndexError]. *)
Theorem Hand_fromRep_text (owner : string) (cs : list Card) :
  collision_free hash -> one_line owner = true -> NoDup cs ->
  (cs <> [] ->
   exists h,
     Hand_fromRep hash iter_words iter_cards (Hand_text owner cs) = Ret h
     /\ colour h = owner
     /\ Permutation (cards h) cs)
  /\ (cs = [] ->
      Hand_fromRep hash iter_words iter_cards (Hand_text owner cs)
      = Raise IndexError).
Proof.
  intros I O N.
  assert (G : re_match (Hand_text owner cs)
              = Ret (owner, join_space (map Card_repr cs))).
  { unfold re_match, Hand_text.
    rewrite one_line_first_line
      by (rewrite !one_line_app, O, cards_text_one_line; reflexivity).
    now rewrite colon_groups_last by apply colon_groups_cards. }
  split.
  - intros NE.
    destruct (Hand_fromRep_hand _ _ (map Card_repr cs) cs cs G)
      as (h & R & C & P & _).
    + cbn [snd]; rewrite (split_space_cards cs NE), set_of_is_set;
        [reflexivity | apply String.eqb_sym |].
      apply NoDup_is_set; [intros a b; apply String.eqb_eq |].
      apply Finite.Injective_map_NoDup; [| exact N].
      intros a b; apply Card_repr_inj.
    + apply parses_reprs.
    + intros a b _ _; now apply Card_same_eq.
    + exact N.
    + tauto.
    + exists h; auto.
  - intros ->; unfold Hand_fromRep; rewrite G; cbn [bind fst snd].
    change (set_of String.eqb (split_space (join_space (map Card_repr []))))
      with [EmptyString].
    rewrite (Permutation_length_1_inv
               (Permutation_sym (words_order [EmptyString]))).
    reflexivity.
Qed.

(** Extra X16.  Whatever the text, the [hash] and the orders in which the
    sets are iterated, a hand returned by [Hand.fromRep] holds a card set,
    no two entries of which the set takes for the same, with at most as
    many cards as the text has distinct words after the colon. *)
Theorem Hand_fromRep_is_set (rep : string) (h : Hand) :
  Hand_fromRep hash iter_words iter_cards rep = Ret h ->
  is_set (Card_same hash) (cards h) = true
  /\ exists g, re_match rep = Ret g
               /\ colour h = fst g
               /\ (length (cards h)
                   <= length (set_of String.eqb (split_space (snd g))))%nat.
Proof.
  intros R; apply Hand_fromRep_inv in R as (g & cs1 & G & C & F & ->).
  pose proof (cards_order (set_of (Card_same hash) cs1)) as P.
  split.
  - rewrite (is_set_perm _ (Card_same_sym hash) _ _ P).
    now apply fold_set_add_keeps_set; [apply Card_same_sym |].
  - exists g; repeat split; trivial.
    rewrite (Permutation_length P).
    pose proof (fold_set_add_length (Card_same hash) cs1 []) as L.
    apply Forall2_length in F.
    rewrite (Permutation_length (words_order _)) in F.
    change (fold_left (set_add (Card_same hash)) cs1 [])
      with (set_of (Card_same hash) cs1) in L.
    simpl in L; lia.
Qed.

End ReadHand.

(** ** The hash values and the iteration orders do not show in the results *)

Lemma insertion_order_iteration (A : Type) :
  iteration_order (@insertion_order A).
Proof. intros l; apply Permutation_refl. Qed.

Lemma rank_same_hand (hash : Face * Suit -> Z) (h1 h2 h1' h2' : Hand) :
  same_hand hash h1 h1' -> same_hand hash h2 h2' ->
  rank hash h1 h2 = rank hash h1' h2'.
Proof.
  intros E1 E2; unfold rank; rewrite categories_ranker_of.
  induction all_categories as [| c cs IH]; simpl; trivial.
  now rewrite (ranker_of_same_hand hash c h1 h2 h1' h2' E1 E2), IH.
Qed.

(** A text read with one collision-free hash and one pair of iteration
    orders is read with any other as a hand of the same cards. *)
Lemma Hand_fromRep_any_order (hash hash' : Face * Suit -> Z)
  (iw iw' : list string -> list string) (ic ic' : list Card -> list Card)
  (rep : string) (h : Hand) :
  collision_free hash -> collision_free hash' ->
  iteration_order iw -> iteration_order ic ->
  iteration_order iw' -> iteration_order ic' ->
  Hand_fromRep hash iw ic rep = Ret h ->
  exists h',
    Hand_fromRep hash' iw' ic' rep = Ret h'
    /\ same_cards h' h
    /\ is_set (Card_same hash') (cards h') = true
    /\ is_set (Card_same hash') (cards h) = true.
Proof.
  intros I I' W C W' C' R.
  apply Hand_fromRep_inv in R as (g & cs1 & G & Cg & F & Ch).
  destruct (fold_set_add_elements (Card_same hash) cs1 []
              (Card_same_refl hash)) as [N M].
  { intros a b _ _; now apply Card_same_eq. }
  { constructor. }
  fold (set_of (Card_same hash) cs1) in N, M.
  assert (Nh : NoDup (cards h)).
  { rewrite Ch; eapply Permutation_NoDup; [symmetry; apply C | exact N]. }
  assert (Mh : forall c, In c (cards h) <-> In c cs1).
  { intros c; rewrite Ch; split; intros X.
    - apply (Permutation_in c (C _)), M in X as [[] | X]; exact X.
    - apply (Permutation_in c (Permutation_sym (C _))), M; now right. }
  destruct (Hand_fromRep_hand hash' iw' ic' W' C' rep g _ cs1 (cards h) G
              (W _) F) as (h' & R' & C1 & P & S).
  - intros a b _ _; now apply Card_same_eq.
  - exact Nh.
  - exact Mh.
  - exists h'; split; [exact R' |].
    split; [split; [congruence | exact P] |].
    split; [exact S |].
    apply NoDup_is_set; [| exact Nh].
    intros a b; now apply Card_same_eq.
Qed.

(** Extra X20.  The results do not depend on the values of the tuple hash
    as long as it has no collisions on cards, nor on the orders in which
    the sets are iterated: a text that [Hand.fromRep] reads with one hash
    and one pair of orders it reads with any other, as a hand of the same
    owner and the same cards, and a text on which it raises an exception
    it never reads; the detectors with a residual hand return the same
    faces and residual hands of the same cards; and [rank] returns the same
    result or raises the same exception on every two hands. *)
Theorem collision_free_hash_irrelevant (hash hash' : Face * Suit -> Z) :
  collision_free hash -> collision_free hash' ->
  (forall iw ic iw' ic' rep,
      iteration_order iw -> iteration_order ic ->
      iteration_order iw' -> iteration_order ic' ->
      (forall h,
          Hand_fromRep hash iw ic rep = Ret h ->
          exists h', Hand_fromRep hash' iw' ic' rep = Ret h'
                     /\ same_cards h' h)
      /\ (forall e,
             Hand_fromRep hash iw ic rep = Raise e ->
             exists e', Hand_fromRep hash' iw' ic' rep = Raise e'))
  /\ (forall h,
         fst (Hand_pair hash h) = fst (Hand_pair hash' h)
         /\ same_cards (snd (Hand_pair hash h)) (snd (Hand_pair hash' h))
         /\ fst (Hand_pairs hash h) = fst (Hand_pairs hash' h)
         /\ same_cards (snd (Hand_pairs hash h)) (snd (Hand_pairs hash' h))
         /\ fst (Hand_triplet hash h) = fst (Hand_triplet hash' h)
         /\ same_cards (snd (Hand_triplet hash h))
              (snd (Hand_triplet hash' h))
         /\ fst (Hand_quartet hash h) = fst (Hand_quartet hash' h)
         /\ same_cards (snd (Hand_quartet hash h))
              (snd (Hand_quartet hash' h))
         /\ Hand_fullHouse hash h = Hand_fullHouse hash' h)
  /\ (forall h1 h2, rank hash h1 h2 = rank hash' h1 h2).
Proof.
  intros I I'.
  pose proof (collision_free_same_entries hash hash' I I') as E.
  split; [| split; [| intros h1 h2; now apply rank_hash]].
  - intros iw ic iw' ic' rep W C W' C'; split.
    + intros h R.
      destruct (Hand_fromRep_any_order hash hash' iw iw' ic ic' rep h
                  I I' W C W' C' R) as (h' & R' & S & _).
      now exists h'.
    + intros e R.
      destruct (Hand_fromRep hash' iw' ic' rep) as [h' | e'] eqn:R';
        [| now exists e'].
      destruct (Hand_fromRep_any_order hash' hash iw' iw ic' ic rep h'
                  I' I W' C' W C R') as (h & Rh & _).
      congruence.
  - intros h.
    rewrite (Hand_pair_hash hash hash' E), (Hand_pairs_hash hash hash' E),
      (Hand_triplet_hash hash hash' E), (Hand_quartet_hash hash hash' E),
      (Hand_fullHouse_hash hash hash' E).
    repeat split; apply Permutation_refl.
Qed.

(** Extra X21.  With a collision-free hash, and whatever the orders in
    which the sets are iterated, every entry of the test table of the
    program passes: both hand texts are read, [rank] returns a result, and
    that result equals the expected one read by [Result.fromRep], the
    entries expected as not ranked being draws. *)
Theorem testCases_all_pass (hash : Face * Suit -> Z)
  (iw : list string -> list string) (ic : list Card -> list Card) :
  collision_free hash -> iteration_order iw -> iteration_order ic ->
  length testCases = 49%nat
  /\ Forall (fun testCase => run_test hash iw ic testCase = Ret true)
       testCases.
Proof.
  intros I W C; split; [reflexivity |].
  assert (B : forallb
                (fun t =>
                   match run_test hash0 insertion_order insertion_order t with
                   | Ret true => true
                   | _ => false
                   end) testCases = true)
    by (vm_compute; reflexivity).
  rewrite forallb_forall in B; apply Forall_forall; intros t It.
  specialize (B t It); unfold run_test in B |- *.
  destruct (split_two_spaces (fst t)) as [| a [| b [| c l]]];
    try discriminate B.
  destruct (Hand_fromRep hash0 insertion_order insertion_order a)
    as [h1 | e] eqn:R1; cbn [bind] in B; [| discriminate B].
  destruct (Hand_fromRep hash0 insertion_order insertion_order b)
    as [h2 | e] eqn:R2; cbn [bind] in B; [| discriminate B].
  destruct (Hand_fromRep_any_order hash0 hash _ iw _ ic a h1
              hash0_collision_free I
              (insertion_order_iteration _) (insertion_order_iteration _)
              W C R1) as (h1' & R1' & [C1 P1] & S1 & S1').
  destruct (Hand_fromRep_any_order hash0 hash _ iw _ ic b h2
              hash0_collision_free I
              (insertion_order_iteration _) (insertion_order_iteration _)
              W C R2) as (h2' & R2' & [C2 P2] & S2 & S2').
  rewrite R1', R2'; cbn [bind].
  rewrite (rank_same_hand hash h1' h2' h1 h2)
    by (repeat split; assumption).
  rewrite (rank_hash hash hash0
             (collision_free_same_entries hash hash0 I hash0_collision_free)).
  destruct (rank hash0 h1 h2) as [[r |] | e]; cbn [bind] in B |- *;
    try discriminate B.
  destruct (Result_eq r (Result_fromRep (snd t)));
    [reflexivity | discriminate B].
Qed.

(** ** Hands read from the texts of the scenarios *)

(** Claim C9.  On every hand of exactly five cards [straight] returns
    without an exception: the face of the highest card when the five
    descending values are consecutive, [None] otherwise.  A hand read from
    a text that repeats a card holds four cards only, whatever the hash
    and the orders in which the sets are iterated, and on such a hand with
    consecutive faces [straight] raises [IndexError]. *)
Theorem Hand_straight_needs_five_cards (hash : Face * Suit -> Z)
  (iw : list string -> list string) (ic : list Card -> list Card) :
  iteration_order iw -> iteration_order ic ->
  (forall h,
      length (cards h) = 5%nat ->
      exists o,
        Hand_straight h = Ret o
        /\ o = (if is_run (face_values (Hand_descending h))
                then option_map face (hd_error (Hand_descending h))
                else None))
  /\ (exists h,
         Hand_fromRep hash iw ic "Black: 2H 3H 4H 5H 5H" = Ret h
         /\ length (cards h) = 4%nat
         /\ Hand_straight h = Raise IndexError).
Proof.
  intros W C; split; [apply Hand_straight_total |].
  pose (four := [mkCard F2 HEARTS; mkCard F3 HEARTS; mkCard F4 HEARTS;
                 mkCard F5 HEARTS]).
  destruct (Hand_fromRep_hand hash iw ic W C "Black: 2H 3H 4H 5H 5H"
              ("Black", "2H 3H 4H 5H 5H") ["2H"; "3H"; "4H"; "5H"]
              four four) as (h & R & _ & P & _).
  - reflexivity.
  - apply Permutation_refl.
  - repeat constructor.
  - intros a b Ia Ib S; apply andb_prop in S as [_ S].
    simpl in Ia, Ib.
    repeat match goal with
           | H : _ \/ _ |- _ => destruct H as [H | H]
           | H : False |- _ => destruct H
           end; subst a b; try reflexivity; discriminate S.
  - apply (is_set_NoDup hash0); reflexivity.
  - tauto.
  - exists h; split; [exact R |]; split.
    + now rewrite (Permutation_length P).
    + now rewrite (Hand_straight_perm h (mkHand "Black" four) P).
Qed.

(** Claim C8.  With a collision-free [hash], and whatever the orders in
    which the sets are iterated, the text of Black reads as the five hearts
    from 2 to 6 and the text of White, which repeats the ace of spades, as
    a set of four cards; [rank] returns the win of Black by Straight
    Flush. *)
Theorem rank_scenario_straight_flush (hash : Face * Suit -> Z)
  (iw : list string -> list string) (ic : list Card -> list Card) :
  collision_free hash -> iteration_order iw -> iteration_order ic ->
  exists black white,
    Hand_fromRep hash iw ic "Black: 2H 3H 4H 5H 6H" = Ret black
    /\ Hand_fromRep hash iw ic "White: AC AH AS AS KH" = Ret white
    /\ length (cards black) = 5%nat
    /\ length (cards white) = 4%nat
    /\ rank hash black white
       = Ret (Some (Result_win "Black" "Straight Flush")).
Proof.
  intros I W C.
  pose (black0 := mkHand "Black"
                    [mkCard F2 HEARTS; mkCard F3 HEARTS; mkCard F4 HEARTS;
                     mkCard F5 HEARTS; mkCard F6 HEARTS]).
  pose (white0 := mkHand "White"
                    [mkCard FA CLUBS; mkCard FA HEARTS; mkCard FA SPADES;
                     mkCard FK HEARTS]).
  assert (Rb : Hand_fromRep hash0 insertion_order insertion_order
                 "Black: 2H 3H 4H 5H 6H" = Ret black0) by reflexivity.
  assert (Rw : Hand_fromRep hash0 insertion_order insertion_order
                 "White: AC AH AS AS KH" = Ret white0) by reflexivity.
  apply (Hand_fromRep_any_order hash0 hash _ iw _ ic) in Rb
      as (black & Rb & [Cb Pb] & Sb & Sb');
    auto using hash0_collision_free, insertion_order_iteration.
  apply (Hand_fromRep_any_order hash0 hash _ iw _ ic) in Rw
      as (white & Rw & [Cw Pw] & Sw & Sw');
    auto using hash0_collision_free, insertion_order_iteration.
  exists black, white.
  split; [exact Rb |]. split; [exact Rw |].
  split; [now rewrite (Permutation_length Pb) |].
  split; [now rewrite (Permutation_length Pw) |].
  rewrite (rank_same_hand hash black white black0 white0)
    by (repeat split; assumption).
  now rewrite (rank_hash hash hash0
                 (collision_free_same_entries hash hash0 I
                    hash0_collision_free)).
Qed.

(** Extra X22.  What the card set keeps is decided by the hash values.
    Two cards of one face compare equal whatever their suits, and the set
    takes two cards for one entry when they compare equal and hash alike.
    So a set built from pairwise distinct cards keeps all of them exactly
    when no two of them of one face have the same hash value; and a card
    given twice is kept once, whatever the hash. *)
Theorem card_set_keeps_by_hash (hash : Face * Suit -> Z) (cs : list Card) :
  NoDup cs ->
  (forall f s t, Card_eq (mkCard f s) (mkCard f t) = true)
  /\ (length (set_of (Card_same hash) cs) = length cs
      <-> forall a b,
            In a cs -> In b cs -> a <> b -> face a = face b ->
            Card_hash hash a <> Card_hash hash b)
  /\ (forall c, set_of (Card_same hash) [c; c] = [c]).
Proof.
  intros N; split; [intros f s t; apply Face_eq_refl |]; split; [split |].
  - intros L a b Ia Ib D F E.
    assert (S : is_set (Card_same hash) cs = true)
      by (apply (fold_set_add_full _ (Card_same_sym hash) cs []);
          [reflexivity | exact L]).
    pose proof (is_set_distinct _ (Card_same_sym hash) cs a b S Ia Ib D) as X.
    unfold Card_same, Card_eq in X.
    rewrite E, F, Z.eqb_refl, Face_eq_refl in X; discriminate X.
  - intros D.
    rewrite set_of_is_set; [reflexivity | apply Card_same_sym |].
    apply NoDup_is_set_on; [| exact N].
    intros a b Ia Ib S; apply andb_prop in S as [H F].
    apply Z.eqb_eq in H; apply Face_eq_true in F.
    assert (Dec : a = b \/ a <> b).
    { destruct a as [f s], b as [g t]; simpl in F; subst g.
      destruct s, t; (left; reflexivity) || (right; discriminate). }
    destruct Dec as [-> | Ne]; [reflexivity |].
    now destruct (D a b Ia Ib Ne F).
  - intros c; unfold set_of; simpl.
    unfold set_add at 2; simpl.
    unfold set_add; simpl; now rewrite Card_same_refl.
Qed.

(** ** The theorems on texts at work *)

Lemma rank_scenario_straight_flush_witness :
  exists black white,
    Hand_fromRep hash0 insertion_order insertion_order
      "Black: 2H 3H 4H 5H 6H" = Ret black
    /\ Hand_fromRep hash0 insertion_order insertion_order
         "White: AC AH AS AS KH" = Ret white
    /\ length (cards black) = 5%nat
    /\ length (cards white) = 4%nat
    /\ rank hash0 black white
       = Ret (Some (Result_win "Black" "Straight Flush")).
Proof.
  apply (rank_scenario_straight_flush hash0 insertion_order insertion_order).
  - apply hash0_collision_free.
  - apply insertion_order_iteration.
  - apply insertion_order_iteration.
Defined.

Lemma Hand_straight_needs_five_cards_witness :
  (exists o,
      Hand_straight ex_straight = Ret o
      /\ o = (if is_run (face_values (Hand_descending ex_straight))
              then option_map face (hd_error (Hand_descending ex_straight))
              else None))
  /\ (exists h,
         Hand_fromRep hash0 insertion_order insertion_order
           "Black: 2H 3H 4H 5H 5H" = Ret h
         /\ length (cards h) = 4%nat
         /\ Hand_straight h = Raise IndexError).
Proof.
  destruct (Hand_straight_needs_five_cards hash0 insertion_order
              insertion_order (insertion_order_iteration _)
              (insertion_order_iteration _)) as [T X].
  split; [apply (T ex_straight); reflexivity | exact X].
Defined.

Lemma Hand_fromRep_text_witness :
  exists h,
    Hand_fromRep hash0 insertion_order insertion_order
      (Hand_text "Black" (cards ex_straight)) = Ret h
    /\ colour h = "Black"
    /\ Permutation (cards h) (cards ex_straight).
Proof.
  apply (Hand_fromRep_text hash0 insertion_order insertion_order
           (insertion_order_iteration _) (insertion_order_iteration _)
           "Black" (cards ex_straight)).
  - apply hash0_collision_free.
  - reflexivity.
  - apply (is_set_NoDup hash0); reflexivity.
  - discriminate.
Defined.

Lemma Hand_fromRep_is_set_witness :
  is_set (Card_same hash0)
    [mkCard FA CLUBS; mkCard FA HEARTS; mkCard FA SPADES; mkCard FK HEARTS]
  = true.
Proof.
  apply (Hand_fromRep_is_set hash0 insertion_order insertion_order
           (insertion_order_iteration _) (insertion_order_iteration _)
           "White: AC AH AS AS KH"
           (mkHand "White"
              [mkCard FA CLUBS; mkCard FA HEARTS; mkCard FA SPADES;
               mkCard FK HEARTS])).
  reflexivity.
Defined.

Lemma collision_free_hash_irrelevant_witness :
  rank hash0 ex_two_pairs ex_full_house
  = rank hash1 ex_two_pairs ex_full_house.
Proof.
  apply (collision_free_hash_irrelevant hash0 hash1);
    [apply hash0_collision_free | apply hash1_collision_free].
Defined.

Lemma testCases_all_pass_witness :
  Forall (fun testCase =>
            run_test hash0 insertion_order insertion_order testCase
            = Ret true) testCases.
Proof.
  apply (testCases_all_pass hash0 insertion_order insertion_order).
  - apply hash0_collision_free.
  - apply insertion_order_iteration.
  - apply insertion_order_iteration.
Defined.

Lemma card_set_keeps_by_hash_witness :
  length (set_of (Card_same hash0) (cards ex_two_pairs))
  = length (cards ex_two_pairs).
Proof.
  apply (card_set_keeps_by_hash hash0 (cards ex_two_pairs)).
  - apply (is_set_NoDup hash0); reflexivity.
  - intros a b Ia Ib D F E; apply hash0_collision_free in E.
    destruct a, b; simpl in E; congruence.
Defined.
